(** * Campus Crush backend: a shallow embedding of the request handlers

    The Express handlers of the repository are embedded as pure functions
    over an explicit document store.  A collection is the list of its
    documents in insertion order ([findOne] returns the first match), an
    ObjectId is the string that [toString()] yields, a date is the number of
    milliseconds that [Date.now()] returns, and everything the handlers
    obtain from outside the store (the verified bearer token, the current
    time, random tokens, fresh ids, the answer of the image host) is an
    argument of the handler. *)

From stdpp Require Import base option list strings gmap sorting pretty.
From Stdlib Require Import ZArith Lia.

Local Open Scope Z_scope.
Local Open Scope string_scope.

(** ** Values shared by all routes *)

Definition ObjectId := string.

(** The JSON envelope [{ success, message?, data? }] together with the HTTP
    status ([res.json] alone answers 200). *)
Record Response (D : Type) := mkResponse {
  status : Z;
  success : bool;
  message : option string;
  data : option D
}.
Arguments mkResponse {D} _ _ _ _.
Arguments status {D} _.
Arguments success {D} _.
Arguments message {D} _.
Arguments data {D} _.

Definition fail {D} (code : Z) (msg : string) : Response D :=
  mkResponse code false (Some msg) None.

(** [jwt.sign({ userId }, secret, { expiresIn: '7d' })]: the payload is a
    JavaScript object; reading a property it does not have gives
    [undefined], which is [None] here. *)
Inductive JsValue :=
  | JStr (s : string)
  | JNum (n : Z).

Definition generateToken (userId : ObjectId) (iat : Z) : gmap string JsValue :=
  {[ "userId" := JStr userId; "iat" := JNum iat; "exp" := JNum (iat + 604800) ]}.

(** What the [Authorization] header carries: nothing, a token that
    [jwt.verify] rejects, or a token whose signature checks, with its
    payload. *)
Inductive Bearer :=
  | NoToken
  | InvalidToken
  | SignedToken (decoded : gmap string JsValue).

Definition prop_string (o : gmap string JsValue) (k : string) : option string :=
  match o !! k with
  | Some (JStr s) => Some s
  | _ => None
  end.

(** ** models/User.js *)

Record Photo := mkPhoto {
  url : string;
  publicId : string;
  isMain : bool;
  likes : list (option ObjectId);
  likeCount : Z
}.

Record User := mkUser {
  _id : ObjectId;
  name : string;
  email : string;
  password : string;
  college : string;
  isVerified : bool;
  verificationToken : option string;
  verificationTokenExpires : option Z;
  resetPasswordToken : option string;
  resetPasswordExpires : option Z;
  photos : list Photo
}.

Definition set_photos (u : User) (ps : list Photo) : User :=
  mkUser (_id u) (name u) (email u) (password u) (college u) (isVerified u)
    (verificationToken u) (verificationTokenExpires u)
    (resetPasswordToken u) (resetPasswordExpires u) ps.

Definition set_isMain (p : Photo) (b : bool) : Photo :=
  mkPhoto (url p) (publicId p) b (likes p) (likeCount p).

(** [User.findById(id)] and [user.save()] on the users collection. *)
Definition findById (us : list User) (id : ObjectId) : option User :=
  snd <$> list_find (λ u, _id u = id) us.

Definition save (us : list User) (u : User) : list User :=
  (λ v, if decide (_id v = _id u) then u else v) <$> us.

(** The [auth] middleware of routes/users.js, routes/matches.js,
    routes/chat.js and routes/notifications.js: the token must verify and
    the user it names must exist. *)
Definition auth (us : list User) (b : Bearer) : Response unit + ObjectId :=
  match b with
  | NoToken => inl (fail 401 "No token provided")
  | InvalidToken => inl (fail 401 "Invalid token")
  | SignedToken decoded =>
      match prop_string decoded "userId" with
      | Some uid =>
          match findById us uid with
          | Some _ => inr uid
          | None => inl (fail 401 "User not found")
          end
      | None => inl (fail 401 "User not found")
      end
  end.

(** ** JavaScript string operations used by the handlers

    A string is the sequence of its UTF-16 code units, and the model has
    the code units below 256 (U+0000 to U+00FF). On these the operations
    are those of ECMAScript: [toLowerCase] maps A to Z, U+00C0 to U+00D6
    and U+00D8 to U+00DE to the unit 32 above and leaves the others, and
    [trim] strips the white space and the line terminators, which are
    U+0009 to U+000D, U+0020 and U+00A0. *)

Definition lower_unit (a : Ascii.ascii) : Ascii.ascii :=
  let n := Ascii.nat_of_ascii a in
  if bool_decide ((65 ≤ n ≤ 90) ∨ (192 ≤ n ≤ 214) ∨ (216 ≤ n ≤ 222))%nat
  then Ascii.ascii_of_nat (n + 32) else a.

Fixpoint toLowerCase (s : string) : string :=
  match s with
  | EmptyString => EmptyString
  | String a s' => String (lower_unit a) (toLowerCase s')
  end.

Definition white_space (a : Ascii.ascii) : bool :=
  let n := Ascii.nat_of_ascii a in
  bool_decide ((9 ≤ n ≤ 13) ∨ n = 32 ∨ n = 160)%nat.

Fixpoint trimStart (s : string) : string :=
  match s with
  | EmptyString => EmptyString
  | String a s' => if white_space a then trimStart s' else s
  end.

Definition trim (s : string) : string :=
  String.rev (trimStart (String.rev (trimStart s))).

(** [!s] for a value that is a string or [undefined]. *)
Definition falsy (s : option string) : bool :=
  match s with
  | None => true
  | Some s => bool_decide (s = "")
  end.

(** A property of a JSON body on which the handler calls [trim]: it is
    absent ([undefined]), a string, or another JSON value. Of the latter the
    handlers only test the truthiness: [null], [false] and [0] are falsy;
    the other numbers, [true], arrays and objects are truthy, and none of
    them has a [trim] to call. *)
Inductive Field :=
  | Absent
  | Text (s : string)
  | NotText (truthy : bool).

(** ** models/Swipe.js, models/Match.js, models/Message.js,
       models/Notification.js, models/Confession.js *)

Inductive Action := like | pass | superlike.

Global Instance Action_eq_dec : EqDecision Action.
Proof. solve_decision. Defined.

Module Swipe.
Record doc := mk {
  swiper : ObjectId;
  swiped : ObjectId;
  action : Action;
  swipedAt : Z;
  createdAt : Z
}.
End Swipe.

Inductive MatchStatus := active | unmatched | blocked.

Global Instance MatchStatus_eq_dec : EqDecision MatchStatus.
Proof. solve_decision. Defined.

Module Match.
Record lastMessage_t := mkLast {
  content : option string;
  sender : option ObjectId;
  timestamp : Z
}.
Record doc := mk {
  _id : ObjectId;
  user1 : ObjectId;
  user2 : ObjectId;
  status : MatchStatus;
  matchedAt : Z;
  lastActivity : Z;
  lastMessage : lastMessage_t
}.
End Match.

Inductive MessageType := m_text | m_image | m_video | m_audio | m_file.

Module Message.
Record doc := mk {
  _id : ObjectId;
  match_ : ObjectId;
  sender : ObjectId;
  content : string;
  type : MessageType;
  replyTo : option ObjectId;
  readBy : list ObjectId;
  createdAt : Z
}.
End Message.

Inductive NotificationType := n_match | n_like | n_message | n_confession | n_comment.

Global Instance NotificationType_eq_dec : EqDecision NotificationType.
Proof. solve_decision. Defined.

Module Notification.
Record data_t := mkData {
  matchId : option ObjectId;
  userId : option ObjectId
}.
Record doc := mk {
  recipient : ObjectId;
  sender : option ObjectId;
  type : NotificationType;
  title : string;
  message : string;
  data : data_t;
  isRead : bool
}.
End Notification.

Inductive ReactionType := heart | laugh | fire | sad.

Global Instance ReactionType_eq_dec : EqDecision ReactionType.
Proof. solve_decision. Defined.

Inductive Category := crush | academic | funny | support | general.

Global Instance Category_eq_dec : EqDecision Category.
Proof. solve_decision. Defined.

Module Reaction.
Record doc := mk {
  userId : ObjectId;
  type : ReactionType
}.
End Reaction.

Module Comment.
Record doc := mk {
  _id : ObjectId;
  userId : ObjectId;
  content : string;
  createdAt : Z
}.
End Comment.

Module Confession.
Record doc := mk {
  _id : ObjectId;
  userId : ObjectId;
  content : string;
  category : Category;
  college : string;
  isAnonymous : bool;
  isReported : bool;
  reactions : list Reaction.doc;
  comments : list Comment.doc;
  createdAt : Z
}.
End Confession.

(** The document store: one list per collection. *)
Record Db := mkDb {
  users : list User;
  swipes : list Swipe.doc;
  matches : list Match.doc;
  messages : list Message.doc;
  notifications : list Notification.doc;
  confessions : list Confession.doc
}.

Definition set_swipes (db : Db) (x : list Swipe.doc) : Db :=
  mkDb (users db) x (matches db) (messages db) (notifications db) (confessions db).
Definition set_matches (db : Db) (x : list Match.doc) : Db :=
  mkDb (users db) (swipes db) x (messages db) (notifications db) (confessions db).
Definition set_messages (db : Db) (x : list Message.doc) : Db :=
  mkDb (users db) (swipes db) (matches db) x (notifications db) (confessions db).
Definition set_notifications (db : Db) (x : list Notification.doc) : Db :=
  mkDb (users db) (swipes db) (matches db) (messages db) x (confessions db).
Definition set_confessions (db : Db) (x : list Confession.doc) : Db :=
  mkDb (users db) (swipes db) (matches db) (messages db) (notifications db) x.

(** ** routes/auth.js: e-mail verification and password reset *)
Module Auth.

Definition set_reset (u : User) (tok : option string) (exp : option Z) : User :=
  mkUser (_id u) (name u) (email u) (password u) (college u) (isVerified u)
    (verificationToken u) (verificationTokenExpires u) tok exp (photos u).

Definition set_password (u : User) (pw : string) : User :=
  mkUser (_id u) (name u) (email u) pw (college u) (isVerified u)
    (verificationToken u) (verificationTokenExpires u)
    (resetPasswordToken u) (resetPasswordExpires u) (photos u).

Definition set_verified (u : User) : User :=
  mkUser (_id u) (name u) (email u) (password u) (college u) true
    None None (resetPasswordToken u) (resetPasswordExpires u) (photos u).

(** [{ $gt: Date.now() }] on a date field that may be unset. *)
Definition gt_now (d : option Z) (now : Z) : bool :=
  match d with
  | Some e => bool_decide (now < e)
  | None => false
  end.

(** [User.findOne({ email })] *)
Definition findByEmail (us : list User) (e : string) : option User :=
  snd <$> list_find (λ u, email u = e) us.

(** [User.findOne({ resetPasswordToken: token,
                    resetPasswordExpires: { $gt: Date.now() } })] *)
Definition findByResetToken (us : list User) (token : string) (now : Z) : option User :=
  snd <$> list_find
    (λ u, resetPasswordToken u = Some token ∧
          gt_now (resetPasswordExpires u) now = true) us.

(** [User.findOne({ verificationToken: token,
                    verificationTokenExpires: { $gt: Date.now() } })] *)
Definition findByVerificationToken (us : list User) (token : string) (now : Z)
    : option User :=
  snd <$> list_find
    (λ u, verificationToken u = Some token ∧
          gt_now (verificationTokenExpires u) now = true) us.

(** utils/emailService.js: [sendVerificationEmail] and
    [sendPasswordResetEmail] catch every error of the mail transport and
    return [{ success, error }]; they do not throw, and the handlers below
    ignore what they return. A send is recorded as an outgoing message
    (address, name, token). *)
Record Mail := mkMail {
  mail_to : string;
  mail_name : string;
  mail_token : string
}.

Definition forgot_message : string :=
  "If an account exists with this email, you will receive password reset instructions.".

Section WithHash.
(** The pre-save hook of the user schema replaces a modified password
    by its salted bcrypt hash. *)
Variable bcrypt_hash : string → string.

(** POST /forgot-password. [resetToken] is
    [crypto.randomBytes(32).toString('hex')]. *)
Definition forgot_password (us : list User) (email_ : option string)
    (now : Z) (resetToken : string)
    : list User * list Mail * Response unit :=
  if falsy email_ then (us, [], fail 400 "Email is required")
  else
    match findByEmail us (toLowerCase (default "" email_)) with
    | None => (us, [], mkResponse 200 true (Some forgot_message) None)
    | Some user =>
        (save us (set_reset user (Some resetToken) (Some (now + 3600000))),
         [mkMail (email user) (name user) resetToken],
         mkResponse 200 true (Some forgot_message) None)
    end.

(** POST /reset-password/:token *)
Definition reset_password (us : list User) (token : string)
    (password_ : option string) (now : Z) : list User * Response unit :=
  if falsy password_ || bool_decide (String.length (default "" password_) < 6)%nat
  then (us, fail 400 "Password must be at least 6 characters")
  else
    match findByResetToken us token now with
    | None => (us, fail 400 "Invalid or expired reset token")
    | Some user =>
        (save us
           (set_reset (set_password user (bcrypt_hash (default "" password_)))
              None None),
         mkResponse 200 true (Some "Password reset successful") None)
    end.
End WithHash.

(** The two HTML pages of GET /verify-email/:token. *)
Inductive Page := InvalidOrExpiredLink | EmailVerified.

(** GET /verify-email/:token *)
Definition verify_email (us : list User) (token : string) (now : Z)
    : list User * (Z * Page) :=
  match findByVerificationToken us token now with
  | None => (us, (400, InvalidOrExpiredLink))
  | Some user => (save us (set_verified user), (200, EmailVerified))
  end.

(** No two accounts hold the same pending reset token (the tokens are 32
    random bytes). *)
Definition reset_token_unique (us : list User) (token : string) : Prop :=
  ∀ u v, u ∈ us → v ∈ us →
    resetPasswordToken u = Some token → resetPasswordToken v = Some token →
    _id u = _id v.

Definition verification_token_unique (us : list User) (token : string) : Prop :=
  ∀ u v, u ∈ us → v ∈ us →
    verificationToken u = Some token → verificationToken v = Some token →
    _id u = _id v.

End Auth.

(** ** routes/users.js: the photo list of a user *)
Module Users.

(** The answer of [cloudinary.uploader.upload_stream]. *)
Inductive Upload :=
  | Uploaded (secure_url public_id : string)
  | UploadError (msg : string).

Record PhotoData := mkPhotoData {
  pd_url : string;
  pd_publicId : string;
  pd_isMain : bool
}.

(** POST /upload-photo, after [auth]. [file] is [req.file]. *)
Definition upload_photo (us : list User) (userId : ObjectId)
    (file : option string) (cloud : Upload) : list User * Response PhotoData :=
  match file with
  | None => (us, fail 400 "No image file provided")
  | Some _ =>
      match findById us userId with
      | None => (us, fail 500 "Photo upload failed")
      | Some user =>
          if decide (6 ≤ length (photos user))%nat then
            (us, fail 400 "Maximum 6 photos allowed")
          else
            match cloud with
            | UploadError msg => (us, fail 500 ("Photo upload failed: " ++ msg))
            | Uploaded secure_url public_id =>
                let isFirstPhoto := bool_decide (length (photos user) = 0%nat) in
                let user' :=
                  set_photos user
                    (photos user ++ [mkPhoto secure_url public_id isFirstPhoto [] 0]) in
                (save us user',
                 mkResponse 200 true (Some "Photo uploaded successfully")
                   (Some (mkPhotoData secure_url public_id isFirstPhoto)))
            end
      end
  end.

(** [user.photos.findIndex(photo => photo.publicId === publicId)] *)
Definition findIndex (ps : list Photo) (pid : string) : option nat :=
  fst <$> list_find (λ p, publicId p = pid) ps.

Definition some_main (ps : list Photo) : bool :=
  bool_decide (Exists (λ p, isMain p = true) ps).

(** DELETE /photo/:publicId, after [auth]. [decoded] is the result of
    [decodeURIComponent], [None] when it throws. Errors of the image host
    are caught and ignored by the handler. *)
Definition delete_photo (us : list User) (userId : ObjectId)
    (decoded : option string) : list User * Response unit :=
  match decoded, findById us userId with
  | Some pid, Some user =>
      match findIndex (photos user) pid with
      | None => (us, fail 404 "Photo not found")
      | Some photoIndex =>
          let ps := delete photoIndex (photos user) in
          let ps' :=
            match ps with
            | p0 :: rest =>
                if some_main ps then ps else set_isMain p0 true :: rest
            | [] => ps
            end in
          (save us (set_photos user ps'),
           mkResponse 200 true (Some "Photo deleted successfully") None)
      end
  | _, _ => (us, fail 500 "Server error")
  end.

(** PUT /photo/:publicId/main, after [auth]. *)
Definition set_main_photo (us : list User) (userId : ObjectId)
    (decoded : option string) : list User * Response unit :=
  match decoded, findById us userId with
  | Some pid, Some user =>
      match findIndex (photos user) pid with
      | None => (us, fail 404 "Photo not found")
      | Some photoIndex =>
          let cleared := (λ p, set_isMain p false) <$> photos user in
          let ps' := alter (λ p, set_isMain p true) photoIndex cleared in
          (save us (set_photos user ps'),
           mkResponse 200 true (Some "Main photo updated successfully") None)
      end
  | _, _ => (us, fail 500 "Server error")
  end.

(** The three photo requests, with [auth] in front as the router has it. *)
Inductive Request :=
  | UploadPhoto (file : option string) (cloud : Upload)
  | DeletePhoto (decoded : option string)
  | SetMainPhoto (decoded : option string).

Definition handle (us : list User) (b : Bearer) (r : Request) : list User * Z :=
  match auth us b with
  | inl res => (us, status res)
  | inr uid =>
      match r with
      | UploadPhoto file cloud =>
          let '(us', res) := upload_photo us uid file cloud in (us', status res)
      | DeletePhoto d =>
          let '(us', res) := delete_photo us uid d in (us', status res)
      | SetMainPhoto d =>
          let '(us', res) := set_main_photo us uid d in (us', status res)
      end
  end.

Definition run (us : list User) (rs : list (Bearer * Request)) : list User :=
  foldl (λ acc br, fst (handle acc br.1 br.2)) us rs.

(** Number of photos flagged as main. *)
Definition main_count (ps : list Photo) : nat :=
  length (filter (λ p, isMain p = true) ps).

(** The invariant of the data model: a non-empty photo list has exactly
    one main photo. *)
Definition main_ok (ps : list Photo) : Prop :=
  ps ≠ [] → main_count ps = 1%nat.

Definition all_main_ok (us : list User) : Prop :=
  Forall (λ u, main_ok (photos u)) us.

End Users.

(** ** routes/matches.js: swipes, matches and their notifications *)
Module Matches.

Definition parse_action (s : string) : option Action :=
  if decide (s = "like") then Some like
  else if decide (s = "pass") then Some pass
  else if decide (s = "superlike") then Some superlike
  else None.

Definition action_string (a : Action) : string :=
  match a with
  | like => "like"
  | pass => "pass"
  | superlike => "superlike"
  end.

Definition is_like (a : Action) : Prop := a = like ∨ a = superlike.

(** [Swipe.findOne({ swiper, swiped })] with the position of the record. *)
Definition existingSwipe (ss : list Swipe.doc) (swiperId target : ObjectId)
    : option (nat * Swipe.doc) :=
  list_find (λ s, Swipe.swiper s = swiperId ∧ Swipe.swiped s = target) ss.

(** The existing record gets the new action and [createdAt]; otherwise a
    new record is appended. The unique index on (swiper, swiped) cannot
    reject the insertion, as no record of the pair was found. *)
Definition record_swipe (ss : list Swipe.doc) (swiperId target : ObjectId)
    (a : Action) (now : Z) : list Swipe.doc :=
  match existingSwipe ss swiperId target with
  | Some (i, s) =>
      <[i := Swipe.mk (Swipe.swiper s) (Swipe.swiped s) a (Swipe.swipedAt s) now]> ss
  | None => ss ++ [Swipe.mk swiperId target a now now]
  end.

(** [Swipe.findOne({ swiper: targetUserId, swiped: swiperId,
                     action: { $in: ['like', 'superlike'] } })] *)
Definition reciprocalSwipe (ss : list Swipe.doc) (swiperId target : ObjectId)
    : option Swipe.doc :=
  snd <$> list_find
    (λ s, Swipe.swiper s = target ∧ Swipe.swiped s = swiperId ∧
          is_like (Swipe.action s)) ss.

(** The filter of [Match.findOne({ $or: [...], status: 'active' })]. *)
Definition active_between (x y : ObjectId) (m : Match.doc) : Prop :=
  ((Match.user1 m = x ∧ Match.user2 m = y) ∨
   (Match.user1 m = y ∧ Match.user2 m = x)) ∧
  Match.status m = active.

Global Instance active_between_dec x y m : Decision (active_between x y m).
Proof. unfold active_between. apply _. Defined.

Definition existingMatch (ms : list Match.doc) (swiperId target : ObjectId)
    : option Match.doc :=
  snd <$> list_find (active_between swiperId target) ms.

(** The two kinds of notification the handler builds (the emoji of the
    titles are left out). *)
Definition match_notification (recipient sender : ObjectId) (other_name : string)
    (matchId : ObjectId) : Notification.doc :=
  Notification.mk recipient (Some sender) n_match "New Match!"
    ("You and " ++ other_name ++ " liked each other!")
    (Notification.mkData (Some matchId) (Some sender)) false.

Definition like_notification (recipient sender : ObjectId) : Notification.doc :=
  Notification.mk recipient (Some sender) n_like "Someone likes you!"
    "You have a new admirer"
    (Notification.mkData None (Some sender)) false.

Record SwipeData := mkSwipeData {
  isMatch : bool;
  matchId : option ObjectId;
  sd_message : string
}.

Definition swipe_response (isMatch : bool) (matchId : option ObjectId)
    : Response SwipeData :=
  mkResponse 200 true None
    (Some (mkSwipeData isMatch matchId
             (if isMatch then "It's a match!" else "Swipe recorded"))).

(** POST /swipe, after [auth]. [now] is [new Date()], [fresh] the id of a
    match record created by the call. *)
Definition swipe (db : Db) (swiperId : ObjectId) (targetUserId action : option string)
    (now : Z) (fresh : ObjectId) : Db * Response SwipeData :=
  if falsy targetUserId || falsy action then
    (db, fail 400 "Target user ID and action are required")
  else
    let target := default "" targetUserId in
    match parse_action (default "" action) with
    | None => (db, fail 400 "Invalid action. Must be like, pass, or superlike")
    | Some a =>
        if decide (swiperId = target) then (db, fail 400 "Cannot swipe on yourself")
        else
          match findById (users db) target with
          | None => (db, fail 404 "Target user not found")
          | Some targetUser =>
              let db1 := set_swipes db (record_swipe (swipes db) swiperId target a now) in
              if decide (is_like a) then
                match reciprocalSwipe (swipes db1) swiperId target with
                | None => (db1, swipe_response false None)
                | Some _ =>
                    match existingMatch (matches db1) swiperId target with
                    | Some m => (db1, swipe_response true (Some (Match._id m)))
                    | None =>
                        let m := Match.mk fresh swiperId target active now now
                                   (Match.mkLast None None now) in
                        let db2 := set_matches db1 (matches db1 ++ [m]) in
                        match findById (users db2) swiperId with
                        | None => (db2, fail 500 "Server error")
                        | Some swiperUser =>
                            (set_notifications db2
                               (notifications db2 ++
                                  [match_notification swiperId target
                                     (name targetUser) fresh;
                                   match_notification target swiperId
                                     (name swiperUser) fresh]),
                             swipe_response true (Some fresh))
                        end
                    end
                end
              else
                (* the [else] of the like test: it is a pass that sends the
                   like notification *)
                (set_notifications db1
                   (notifications db1 ++ [like_notification target swiperId]),
                 swipe_response false None)
          end
    end.

(** The route: [auth], then the handler. *)
Definition swipe_route (db : Db) (b : Bearer) (targetUserId action : option string)
    (now : Z) (fresh : ObjectId) : Db * Response SwipeData :=
  match auth (users db) b with
  | inl res => (db, mkResponse (status res) (success res) (message res) None)
  | inr swiperId => swipe db swiperId targetUserId action now fresh
  end.

(** Swipe records of the ordered pair, active matches of the unordered
    pair, and the notifications of a type that a user has got from another. *)
Definition swipes_of (ss : list Swipe.doc) (a b : ObjectId) : list Swipe.doc :=
  filter (λ s, Swipe.swiper s = a ∧ Swipe.swiped s = b) ss.

Definition active_matches (ms : list Match.doc) (a b : ObjectId) : list Match.doc :=
  filter (active_between a b) ms.

Definition notified (ns : list Notification.doc) (t : NotificationType)
    (recipient sender : ObjectId) : list Notification.doc :=
  filter (λ n, Notification.type n = t ∧ Notification.recipient n = recipient ∧
               Notification.sender n = Some sender) ns.

(** The notifications a call has added to the collection. *)
Definition created (before after : list Notification.doc) : list Notification.doc :=
  drop (length before) after.

End Matches.

(** ** routes/chat.js: sending a message *)
Module Chat.

Definition parse_type (s : string) : option MessageType :=
  if decide (s = "text") then Some m_text
  else if decide (s = "image") then Some m_image
  else if decide (s = "video") then Some m_video
  else if decide (s = "audio") then Some m_audio
  else if decide (s = "file") then Some m_file
  else None.

(** [!content || !content.trim()] *)
Definition blank (content : option string) : bool :=
  falsy content || bool_decide (trim (default "" content) = "").

(** [Match.findOne({ _id: matchId, $or: [{ user1: userId }, { user2: userId }] })] *)
Definition findMatch (ms : list Match.doc) (matchId userId : ObjectId)
    : option Match.doc :=
  snd <$> list_find
    (λ m, Match._id m = matchId ∧ (Match.user1 m = userId ∨ Match.user2 m = userId))
    ms.

(** [Match.findByIdAndUpdate(matchId, { lastMessage, lastActivity })] *)
Definition updateMatch (ms : list Match.doc) (matchId : ObjectId)
    (lm : Match.lastMessage_t) (act : Z) : list Match.doc :=
  match list_find (λ m, Match._id m = matchId) ms with
  | Some (i, m) =>
      <[i := Match.mk (Match._id m) (Match.user1 m) (Match.user2 m) (Match.status m)
               (Match.matchedAt m) act lm]> ms
  | None => ms
  end.

Record MessageData := mkMessageData {
  md_id : ObjectId;
  md_content : string;
  md_senderId : string;
  md_timestamp : Z;
  md_type : MessageType;
  md_isRead : bool
}.

(** POST /matches/:matchId/messages, after [auth]. The test
    [!content || !content.trim()] holds for a content that is absent or
    falsy and for a string of white space; for a truthy content that is no
    string the call of [trim] throws, which the handler's [catch] answers
    with 500. A message that the schema rejects (content longer than 1000,
    unknown type) makes [message.save()] throw, which the handler answers
    with 500. *)
Definition send_message (db : Db) (userId matchId : ObjectId)
    (content : Field) (type : option string) (replyTo : option ObjectId)
    (now : Z) (fresh : ObjectId) : Db * Response MessageData :=
  match content with
  | Absent | NotText false => (db, fail 400 "Message content is required")
  | NotText true => (db, fail 500 "Server error")
  | Text text =>
      if blank (Some text) then
        (db, fail 400 "Message content is required")
      else
        match findMatch (matches db) matchId userId with
        | None => (db, fail 404 "Match not found")
        | Some _ =>
            let body := trim text in
            match parse_type (default "text" type) with
            | None => (db, fail 500 "Server error")
            | Some ty =>
                if decide (1000 < String.length body)%nat then
                  (db, fail 500 "Server error")
                else
                  let msg :=
                    Message.mk fresh matchId userId body ty replyTo [userId] now in
                  let db1 := set_messages db (messages db ++ [msg]) in
                  let db2 :=
                    set_matches db1
                      (updateMatch (matches db1) matchId
                         (Match.mkLast (Some body) (Some userId) now) now) in
                  (db2,
                   mkResponse 200 true None
                     (Some (mkMessageData fresh body "me" now ty true)))
            end
        end
  end.

Definition send_message_route (db : Db) (b : Bearer) (matchId : ObjectId)
    (content : Field) (type : option string) (replyTo : option ObjectId)
    (now : Z) (fresh : ObjectId) : Db * Response MessageData :=
  match auth (users db) b with
  | inl res => (db, mkResponse (status res) (success res) (message res) None)
  | inr userId => send_message db userId matchId content type replyTo now fresh
  end.

End Chat.

(** ** routes/confessions.js: the confession board *)
Module Confessions.

(** The [auth] middleware of routes/confessions.js and routes/photos.js
    only verifies the token: [req.user = decoded]. *)
Definition auth (b : Bearer) : Response unit + gmap string JsValue :=
  match b with
  | NoToken => inl (fail 401 "No token provided")
  | InvalidToken => inl (fail 401 "Invalid token")
  | SignedToken decoded => inr decoded
  end.

Definition reaction_string (t : ReactionType) : string :=
  match t with
  | heart => "heart"
  | laugh => "laugh"
  | fire => "fire"
  | sad => "sad"
  end.

Definition parse_reaction (s : string) : option ReactionType :=
  if decide (s = "heart") then Some heart
  else if decide (s = "laugh") then Some laugh
  else if decide (s = "fire") then Some fire
  else if decide (s = "sad") then Some sad
  else None.

Definition category_string (c : Category) : string :=
  match c with
  | crush => "crush"
  | academic => "academic"
  | funny => "funny"
  | support => "support"
  | general => "general"
  end.

Definition set_reactions (c : Confession.doc) (rs : list Reaction.doc) : Confession.doc :=
  Confession.mk (Confession._id c) (Confession.userId c) (Confession.content c)
    (Confession.category c) (Confession.college c) (Confession.isAnonymous c)
    (Confession.isReported c) rs (Confession.comments c) (Confession.createdAt c).

(** [Confession.findById(id)], with the position of the document. *)
Definition findConfession (cs : list Confession.doc) (id : ObjectId)
    : option (nat * Confession.doc) :=
  list_find (λ c, Confession._id c = id) cs.

(** [reactionCounts]: one counter per reaction type. *)
Definition count (rs : list Reaction.doc) (t : ReactionType) : nat :=
  length (filter (λ r, Reaction.type r = t) rs).

Record ReactionCounts := mkCounts {
  c_heart : nat;
  c_laugh : nat;
  c_fire : nat;
  c_sad : nat
}.

Definition reactionCounts (rs : list Reaction.doc) : ReactionCounts :=
  mkCounts (count rs heart) (count rs laugh) (count rs fire) (count rs sad).

(** The reaction list after POST /:id/react: [findIndex] and [splice] when
    the user has a reaction of this type, [filter] and [push] otherwise. *)
Definition react_reactions (rs : list Reaction.doc) (userId : ObjectId)
    (t : ReactionType) : list Reaction.doc :=
  match list_find (λ r, Reaction.userId r = userId ∧ Reaction.type r = t) rs with
  | Some (existingReactionIndex, _) => delete existingReactionIndex rs
  | None => filter (λ r, Reaction.userId r ≠ userId) rs ++ [Reaction.mk userId t]
  end.

Record ReactData := mkReactData {
  rd_reactionCounts : ReactionCounts;
  userReacted : bool
}.

(** POST /:id/react, after [auth]. *)
Definition react (db : Db) (userId confessionId : ObjectId) (type : option string)
    : Db * Response ReactData :=
  match type ≫= parse_reaction with
  | None => (db, fail 400 "Invalid reaction type")
  | Some t =>
      match findConfession (confessions db) confessionId with
      | None => (db, fail 404 "Confession not found")
      | Some (i, confession) =>
          let existing :=
            list_find (λ r, Reaction.userId r = userId ∧ Reaction.type r = t)
              (Confession.reactions confession) in
          let rs := react_reactions (Confession.reactions confession) userId t in
          (set_confessions db (<[i := set_reactions confession rs]> (confessions db)),
           mkResponse 200 true None
             (Some (mkReactData (reactionCounts rs)
                      (bool_decide (existing = None)))))
      end
  end.

(** The reactions of [u] within a reaction list. *)
Definition of_user (u : ObjectId) (rs : list Reaction.doc) : list Reaction.doc :=
  filter (λ r, Reaction.userId r = u) rs.

(** The reactions stored for a confession, and those a user holds on it. *)
Definition reactions_of (db : Db) (confessionId : ObjectId) : list Reaction.doc :=
  match findConfession (confessions db) confessionId with
  | Some (_, c) => Confession.reactions c
  | None => []
  end.

Definition held (db : Db) (confessionId userId : ObjectId) : list Reaction.doc :=
  filter (λ r, Reaction.userId r = userId) (reactions_of db confessionId).

(** [getTimeAgo]: the rendered strings are "now", "5m", "3h", "2d", "1w". *)
Inductive TimeAgo :=
  | t_now
  | t_minutes (n : Z)
  | t_hours (n : Z)
  | t_days (n : Z)
  | t_weeks (n : Z).

Definition getTimeAgo (now date : Z) : TimeAgo :=
  let diffInSeconds := (now - date) / 1000 in
  if decide (diffInSeconds < 60) then t_now
  else if decide (diffInSeconds < 3600) then t_minutes (diffInSeconds / 60)
  else if decide (diffInSeconds < 86400) then t_hours (diffInSeconds / 3600)
  else if decide (diffInSeconds < 604800) then t_days (diffInSeconds / 86400)
  else t_weeks (diffInSeconds / 604800).

Record UserReactions := mkUserReactions {
  u_heart : bool;
  u_laugh : bool;
  u_fire : bool;
  u_sad : bool
}.

Definition reacted (rs : list Reaction.doc) (userId : ObjectId) (t : ReactionType) : bool :=
  bool_decide (Exists (λ r, Reaction.userId r = userId ∧ Reaction.type r = t) rs).

Definition userReactions (rs : list Reaction.doc) (userId : ObjectId) : UserReactions :=
  mkUserReactions (reacted rs userId heart) (reacted rs userId laugh)
    (reacted rs userId fire) (reacted rs userId sad).

(** A confession as the endpoints return it; the college is not part of
    it. The comments of the single view are given by their number. *)
Record Formatted := mkFormatted {
  f_id : ObjectId;
  f_content : string;
  f_category : Category;
  f_reactions : ReactionCounts;
  f_commentCount : nat;
  f_timeAgo : TimeAgo;
  f_isAnonymous : bool;
  f_userReactions : UserReactions
}.

Definition format (now : Z) (userId : ObjectId) (c : Confession.doc) : Formatted :=
  mkFormatted (Confession._id c) (Confession.content c) (Confession.category c)
    (reactionCounts (Confession.reactions c)) (length (Confession.comments c))
    (getTimeAgo now (Confession.createdAt c)) (Confession.isAnonymous c)
    (userReactions (Confession.reactions c) userId).

(** The filter of the list query: the caller's college, not reported,
    and the category unless it is 'all'. *)
Definition matches_query (college_ category : string) (c : Confession.doc) : Prop :=
  Confession.college c = college_ ∧ Confession.isReported c = false ∧
  (category = "all" ∨ category_string (Confession.category c) = category).

Global Instance matches_query_dec co ca c : Decision (matches_query co ca c).
Proof. unfold matches_query. apply _. Defined.

Definition newer (a b : Confession.doc) : Prop :=
  (Confession.createdAt b ≤ Confession.createdAt a)%Z.

Global Instance newer_dec : RelDecision newer.
Proof. intros a b. unfold newer. apply _. Defined.

(** [find(query).sort({ createdAt: -1 }).limit(l).skip(s)]; [limit] and
    [skip] are the numbers that [parseInt] gave. The store applies the
    skip before the limit, takes a limit of 0 as no limit and a negative
    one by its absolute value, and rejects a negative skip. *)
Definition find_page (cs : list Confession.doc) (college_ category : string)
    (limit skip : Z) : option (list Confession.doc) :=
  if decide (skip < 0) then None
  else
    let sorted := merge_sort newer (filter (matches_query college_ category) cs) in
    let skipped := drop (Z.to_nat skip) sorted in
    Some (if decide (limit = 0) then skipped
          else take (Z.to_nat (Z.abs limit)) skipped).

Record ListData := mkListData {
  ld_confessions : list Formatted;
  hasMore : bool
}.

(** GET /, after [auth]. *)
Definition list_confessions (db : Db) (userId : ObjectId) (category : string)
    (page limit : Z) (now : Z) : Response ListData :=
  match findById (users db) userId with
  | None => fail 404 "User not found"
  | Some currentUser =>
      match find_page (confessions db) (college currentUser) category
              limit ((page - 1) * limit) with
      | None => fail 500 "Server error"
      | Some found =>
          mkResponse 200 true None
            (Some (mkListData (format now userId <$> found)
                     (bool_decide (Z.of_nat (length found) = limit))))
      end
  end.

(** GET /:id, after [auth]. *)
Definition get_confession (db : Db) (userId confessionId : ObjectId) (now : Z)
    : Response Formatted :=
  match findById (users db) userId with
  | None => fail 404 "User not found"
  | Some currentUser =>
      match findConfession (confessions db) confessionId with
      | None => fail 404 "Confession not found"
      | Some (_, confession) =>
          if decide (Confession.college confession ≠ college currentUser) then
            fail 403 "Access denied"
          else
            mkResponse 200 true None (Some (format now userId confession))
      end
  end.

End Confessions.

(** ** routes/photos.js: liking a photo *)
Module Photos.

Definition set_likes (p : Photo) (ls : list (option ObjectId)) (n : Z) : Photo :=
  mkPhoto (url p) (publicId p) (isMain p) ls n.

(** [User.findOne({ 'photos.url': photoUrl })] *)
Definition findOwner (us : list User) (photoUrl : string) : option User :=
  snd <$> list_find (λ u, Exists (λ p, url p = photoUrl) (photos u)) us.

Record LikeData := mkLikeData {
  ld_likeCount : Z;
  isLiked : bool
}.

(** The toggle on one photo. [currentUserId] is [req.user.id]; an entry
    of [likes] is an id or [null]. Returns the photo and [actuallyLiked]. *)
Definition toggle (photo : Photo) (currentUserId : option ObjectId) : Photo * bool :=
  let cleaned := filter (λ userId, userId ≠ None) (likes photo) in
  let wasLiked :=
    bool_decide (Exists (λ userId, is_Some userId ∧ userId = currentUserId) cleaned) in
  let photo' :=
    if wasLiked then
      set_likes photo
        (filter (λ userId, userId ≠ None ∧ userId ≠ currentUserId) cleaned)
        (Z.max 0 (likeCount photo - 1))
    else
      set_likes photo (cleaned ++ [currentUserId]) (likeCount photo + 1) in
  (photo', bool_decide (currentUserId ∈ likes photo')).

(** POST /like, after [auth]: [decoded] is the payload of the token. *)
Definition like_photo (us : list User) (decoded : gmap string JsValue)
    (photoUrl : option string) : list User * Response LikeData :=
  let currentUserId := prop_string decoded "id" in
  if falsy photoUrl then (us, fail 400 "Photo URL is required")
  else
    match findOwner us (default "" photoUrl) with
    | None => (us, fail 404 "Photo not found")
    | Some photoOwner =>
        match list_find (λ p, url p = default "" photoUrl) (photos photoOwner) with
        | None => (us, fail 404 "Photo not found")
        | Some (i, photo) =>
            let '(photo', actuallyLiked) := toggle photo currentUserId in
            (save us (set_photos photoOwner (<[i := photo']> (photos photoOwner))),
             mkResponse 200 true None
               (Some (mkLikeData (likeCount photo') actuallyLiked)))
        end
    end.

Definition like_route (us : list User) (b : Bearer) (photoUrl : option string)
    : list User * Response LikeData :=
  match Confessions.auth b with
  | inl res => (us, mkResponse (status res) (success res) (message res) None)
  | inr decoded => like_photo us decoded photoUrl
  end.

(** What a later read of the photo reports for a user
    ([isLikedByCurrentUser] and [likeCount] of GET /discover). *)
Definition isLikedByCurrentUser (p : Photo) (userId : ObjectId) : bool :=
  bool_decide (Some userId ∈ likes p).

Definition photo_by_url (us : list User) (photoUrl : string) : option Photo :=
  findOwner us photoUrl ≫= λ u, snd <$> list_find (λ p, url p = photoUrl) (photos u).

End Photos.

(** ** utils/emailService.js *)
Module EmailService.

(** What [transporter.sendMail] does: it resolves, or rejects with an
    error message. *)
Inductive Transport :=
  | Delivered
  | Rejected (error : string).

Record Result := mkResult {
  r_success : bool;
  r_error : option string
}.

(** [`${process.env.APP_URL || 'http://localhost:5001'}/api/auth/...`] *)
Definition base_url (app_url : option string) : string :=
  if falsy app_url then "http://localhost:5001" else default "" app_url.

Definition verificationUrl (app_url : option string) (verificationToken : string) : string :=
  base_url app_url ++ "/api/auth/verify-email/" ++ verificationToken.

Definition resetUrl (app_url : option string) (resetToken : string) : string :=
  base_url app_url ++ "/api/auth/reset-password/" ++ resetToken.

(** Both senders: the [try] returns [{ success: true }], the [catch]
    returns [{ success: false, error: error.message }]. *)
Definition send (t : Transport) : Result :=
  match t with
  | Delivered => mkResult true None
  | Rejected e => mkResult false (Some e)
  end.

End EmailService.

(** ** routes/auth.js: registration, login and the verification mail *)
Module Accounts.
Import Auth Stdlib.Strings.Ascii.

(** [toUpperCase] on the code units below 256: a to z, U+00E0 to U+00F6
    and U+00F8 to U+00FE go to the unit 32 below, and U+00DF becomes "SS".
    The upper case of U+00B5 and of U+00FF is no code unit below 256
    (U+039C, U+0178): a string with one of the two is outside what the
    model can upper-case, which [upper_in_range] tells. *)
Definition upper_unit (a : Ascii.ascii) : string :=
  let n := Ascii.nat_of_ascii a in
  if bool_decide (n = 223)%nat then "SS"
  else
    String (if bool_decide ((97 ≤ n ≤ 122) ∨ (224 ≤ n ≤ 246) ∨ (248 ≤ n ≤ 254))%nat
            then Ascii.ascii_of_nat (n - 32) else a) EmptyString.

Fixpoint toUpperCase (s : string) : string :=
  match s with
  | EmptyString => EmptyString
  | String a s' => String.append (upper_unit a) (toUpperCase s')
  end.

Fixpoint upper_in_range (s : string) : bool :=
  match s with
  | EmptyString => true
  | String a s' =>
      bool_decide (Ascii.nat_of_ascii a ≠ 181 ∧ Ascii.nat_of_ascii a ≠ 255)%nat
      && upper_in_range s'
  end.

(** [s.split(sep)[0]] for a separator of one code unit. *)
Fixpoint split0 (sep : Ascii.ascii) (s : string) : string :=
  match s with
  | EmptyString => EmptyString
  | String a s' => if decide (a = sep) then EmptyString else String a (split0 sep s')
  end.

(** What follows the first [sep], if [s] has one: [s.includes(sep)] is
    [is_Some (after sep s)]. *)
Fixpoint after (sep : Ascii.ascii) (s : string) : option string :=
  match s with
  | EmptyString => None
  | String a s' => if decide (a = sep) then Some s' else after sep s'
  end.

(** [s.split(sep)[1]] *)
Definition split1 (sep : Ascii.ascii) (s : string) : option string :=
  split0 sep <$> after sep s.

(** [email.split('@')[1].split('.')[0].toUpperCase()] *)
Definition collegeName (email_ : string) : option string :=
  (λ emailDomain, toUpperCase (split0 "."%char emailDomain)) <$> split1 "@"%char email_.

Definition set_verification (u : User) (tok : option string) (exp : option Z) : User :=
  mkUser (_id u) (name u) (email u) (password u) (college u) (isVerified u)
    tok exp (resetPasswordToken u) (resetPasswordExpires u) (photos u).

Record UserData := mkUserData {
  ud_id : ObjectId;
  ud_name : string;
  ud_email : string;
  ud_college : string
}.

Record SessionData := mkSessionData {
  token : gmap string JsValue;
  sd_user : UserData;
  sd_isVerified : option bool
}.

Section WithBcrypt.
(** [bcrypt.hash] with a fresh salt in the pre-save hook, and
    [bcrypt.compare] of [comparePassword]. *)
Variable bcrypt_hash : string → string.
Variable bcrypt_compare : string → string → bool.

(** POST /register. [selfiePhoto] and [collegeIdPhoto] tell whether the
    two files came with the request, [selfie] and [collegeId] are the
    answers of the image host, [verificationToken] the 32 random bytes in
    hex and [fresh] the id of the new document. The fields of the
    multipart body are strings, or absent. A name of white space only or
    an address without a domain label leaves a required field of the
    schema empty, so that [user.save()] throws and the answer is 500. *)
Definition register (us : list User) (name_ email_ password_ : option string)
    (selfiePhoto collegeIdPhoto : bool) (selfie collegeId : Users.Upload)
    (now : Z) (verificationToken : string) (fresh : ObjectId)
    : list User * list Mail * Response SessionData :=
  if falsy name_ || falsy email_ || falsy password_ then
    (us, [], fail 400 "All fields are required")
  else if negb selfiePhoto || negb collegeIdPhoto then
    (us, [], fail 400 "Both selfie and college ID photos are required")
  else
    let nm := default "" name_ in
    let em := default "" email_ in
    let pw := default "" password_ in
    match collegeName em with
    | None => (us, [], fail 400 "Please enter a valid email address")
    | Some college_ =>
        if decide (String.length pw < 6)%nat then
          (us, [], fail 400 "Password must be at least 6 characters")
        else
          match findByEmail us (toLowerCase em) with
          | Some _ => (us, [], fail 400 "User already exists")
          | None =>
              match selfie, collegeId with
              | Users.UploadError _, _ => (us, [], fail 500 "Failed to upload selfie")
              | _, Users.UploadError _ => (us, [], fail 500 "Failed to upload college ID")
              | Users.Uploaded _ _, Users.Uploaded _ _ =>
                  if decide (trim nm = "" ∨ college_ = "") then
                    (us, [], fail 500 "Server error")
                  else
                    let user :=
                      mkUser fresh (trim nm) (toLowerCase em) (bcrypt_hash pw) college_
                        false (Some verificationToken) (Some (now + 86400000))
                        None None [] in
                    ((us ++ [user])%list,
                     [mkMail (email user) (name user) verificationToken],
                     mkResponse 201 true
                       (Some "Registration successful! Please check your email to verify your account.")
                       (Some (mkSessionData (generateToken fresh (now / 1000))
                                (mkUserData fresh (name user) (email user) (college user))
                                (Some false))))
              end
          end
    end.

(** The account that a registration stores. *)
Definition new_account (nm em pw col : string) (now : Z) (t : string) (f : ObjectId)
    : User :=
  mkUser f (trim nm) (toLowerCase em) (bcrypt_hash pw) col false
    (Some t) (Some (now + 86400000)) None None [].

(** POST /login *)
Definition login (us : list User) (email_ password_ : option string) (now : Z)
    : Response SessionData :=
  if falsy email_ || falsy password_ then fail 400 "Email and password required"
  else
    match findByEmail us (toLowerCase (default "" email_)) with
    | None => fail 401 "Invalid credentials"
    | Some user =>
        if bcrypt_compare (default "" password_) (password user) then
          mkResponse 200 true (Some "Login successful")
            (Some (mkSessionData (generateToken (_id user) (now / 1000))
                     (mkUserData (_id user) (name user) (email user) (college user))
                     None))
        else fail 401 "Invalid credentials"
    end.
End WithBcrypt.

(** POST /resend-verification *)
Definition resend_verification (us : list User) (email_ : option string)
    (now : Z) (verificationToken : string) : list User * list Mail * Response unit :=
  if falsy email_ then (us, [], fail 400 "Email is required")
  else
    match findByEmail us (toLowerCase (default "" email_)) with
    | None => (us, [], fail 404 "User not found")
    | Some user =>
        if isVerified user then (us, [], fail 400 "Email is already verified")
        else
          (save us (set_verification user (Some verificationToken)
                      (Some (now + 86400000))),
           [mkMail (email user) (name user) verificationToken],
           mkResponse 200 true (Some "Verification email sent successfully") None)
    end.

(** The accounts are told apart by their lower-case address. *)
Definition emails_ok (us : list User) : Prop :=
  NoDup (email <$> us) ∧ Forall (λ u, toLowerCase (email u) = email u) us.

End Accounts.

(** ** routes/users.js: GET /discover *)
Module Discover.

Record PhotoView := mkPhotoView {
  pv_url : string;
  pv_publicId : string;
  pv_isMain : bool;
  pv_likeCount : Z;
  pv_isLikedByCurrentUser : bool
}.

(** A user as the endpoint returns it; of the profile fields the record
    [User] has, the view keeps the name and the college. *)
Record UserView := mkUserView {
  uv_id : ObjectId;
  uv_name : string;
  uv_photos : list PhotoView;
  uv_college : string
}.

(** The filter of the query: not the caller, the caller's college, a
    name and at least one photo. *)
Definition candidate (userId : ObjectId) (college_ : string) (u : User) : Prop :=
  _id u ≠ userId ∧ college u = college_ ∧ name u ≠ "" ∧ photos u ≠ [].

Global Instance candidate_dec userId college_ u : Decision (candidate userId college_ u).
Proof. unfold candidate. apply _. Defined.

(** [.limit(parseInt(limit))]: 0 is no limit, a negative number counts by
    its absolute value. *)
Definition limited {A} (limit : Z) (l : list A) : list A :=
  if decide (limit = 0) then l else take (Z.to_nat (Z.abs limit)) l.

Definition photo_view (userId : ObjectId) (p : Photo) : PhotoView :=
  mkPhotoView (url p) (publicId p) (isMain p) (likeCount p)
    (Photos.isLikedByCurrentUser p userId).

Definition user_view (userId : ObjectId) (u : User) : UserView :=
  mkUserView (_id u) (name u) (photo_view userId <$> photos u) (college u).

(** GET /discover, after [auth]. *)
Definition discover (us : list User) (userId : ObjectId) (limit : Z)
    : Response (list UserView) :=
  match findById us userId with
  | None => fail 500 "Server error"
  | Some currentUser =>
      mkResponse 200 true None
        (Some (user_view userId <$>
                 limited limit (filter (candidate userId (college currentUser)) us)))
  end.

(** The photo list after PUT /photo/:publicId/main found the photo at [i]. *)
Definition flagged (i : nat) (ps : list Photo) : list Photo :=
  alter (λ p, set_isMain p true) i ((λ p, set_isMain p false) <$> ps).

(** What a photo is apart from its main flag. *)
Definition content (p : Photo) : string * string * list (option ObjectId) * Z :=
  (url p, publicId p, likes p, likeCount p).

(** Where a photo is and whether it is the main one. *)
Definition shape (p : Photo) : string * string * bool :=
  (url p, publicId p, isMain p).

(** The like counters of all photos are not negative. *)
Definition counts_ok (us : list User) : Prop :=
  Forall (λ u, Forall (λ p, (0 ≤ likeCount p)%Z) (photos u)) us.

(** A liker list without null entries and without repetition, and a
    counter that is its length. *)
Definition in_step (p : Photo) : Prop :=
  (None ∉ likes p) ∧ NoDup (likes p) ∧ likeCount p = Z.of_nat (length (likes p)).

End Discover.

(** ** routes/chat.js: reading, marking and deleting messages *)
Module Inbox.
Import Chat.

(** What the handlers show of a user: the address of the first photo, or
    a placeholder image made from the first code unit of the name. *)
Inductive Avatar :=
  | PhotoUrl (address : string)
  | Placeholder (of_name : string).

(** [u.photos?.[0]?.url || placeholder] *)
Definition avatar (u : User) : Avatar :=
  match photos u with
  | p :: _ => if bool_decide (url p = "") then Placeholder (name u) else PhotoUrl (url p)
  | [] => Placeholder (name u)
  end.

Definition set_readBy (m : Message.doc) (rb : list ObjectId) : Message.doc :=
  Message.mk (Message._id m) (Message.match_ m) (Message.sender m) (Message.content m)
    (Message.type m) (Message.replyTo m) rb (Message.createdAt m).

(** [$addToSet] *)
Definition addToSet (x : ObjectId) (l : list ObjectId) : list ObjectId :=
  if decide (x ∈ l) then l else (l ++ [x])%list.

(** The filter [{ match: matchId, sender: { $ne: userId },
                  readBy: { $ne: userId } }]. *)
Definition unread_in (matchId userId : ObjectId) (msg : Message.doc) : Prop :=
  Message.match_ msg = matchId ∧ Message.sender msg ≠ userId ∧
  userId ∉ Message.readBy msg.

Global Instance unread_in_dec matchId userId msg : Decision (unread_in matchId userId msg).
Proof. unfold unread_in. apply _. Defined.

(** [Message.updateMany(filter, { $addToSet: { readBy: userId } })], which
    is also the body of the static [markAsReadByUser] of the Message model:
    what it does to one message, and to the collection. *)
Definition marked (matchId userId : ObjectId) (msg : Message.doc) : Message.doc :=
  if decide (unread_in matchId userId msg)
  then set_readBy msg (addToSet userId (Message.readBy msg)) else msg.

Definition markRead (ms : list Message.doc) (matchId userId : ObjectId)
    : list Message.doc :=
  marked matchId userId <$> ms.

Definition older (a b : Message.doc) : Prop :=
  (Message.createdAt a ≤ Message.createdAt b)%Z.

Global Instance older_dec : RelDecision older.
Proof. intros a b. unfold older. apply _. Defined.

Record MessageView := mkMessageView {
  mv_id : ObjectId;
  mv_content : string;
  mv_senderId : string;
  mv_senderName : string;
  mv_timestamp : Z;
  mv_type : MessageType;
  mv_isRead : bool
}.

Record MatchInfo := mkMatchInfo {
  mi_id : ObjectId;
  mi_name : string;
  mi_avatar : Avatar
}.

Record MessagesData := mkMessagesData {
  md_messages : list MessageView;
  md_match : MatchInfo
}.

(** One message of the answer. The sender is populated; when the account
    is gone, [msg.sender._id] throws, which is [None] here. *)
Definition formatMessage (us : list User) (userId : ObjectId) (msg : Message.doc)
    : option MessageView :=
  sender ← findById us (Message.sender msg);
  Some (mkMessageView (Message._id msg) (Message.content msg)
          (if decide (_id sender = userId) then "me" else _id sender)
          (if decide (_id sender = userId) then "You" else name sender)
          (Message.createdAt msg) (Message.type msg)
          (bool_decide (userId ∈ Message.readBy msg))).

(** The [match] object of the answer, from the populated participants;
    [None] when reading a participant whose account is gone throws. *)
Definition matchInfo (us : list User) (userId : ObjectId) (m : Match.doc)
    : option MatchInfo :=
  user1 ← findById us (Match.user1 m);
  other ← (if decide (_id user1 = userId) then findById us (Match.user2 m)
           else Some user1);
  Some (mkMatchInfo (Match._id m) (name other) (avatar other)).

(** GET /matches/:matchId/messages, after [auth]; [limit] and [page] are
    the numbers that [parseInt] gave. The messages are formatted before
    the update, and the update is not limited to the page. *)
Definition get_messages (db : Db) (userId matchId : ObjectId) (limit page : Z)
    : Db * Response MessagesData :=
  match findMatch (matches db) matchId userId with
  | None => (db, fail 404 "Match not found")
  | Some m =>
      let found :=
        Discover.limited (limit * page)
          (merge_sort older
             (filter (λ msg, Message.match_ msg = matchId) (messages db))) in
      match mapM (formatMessage (users db) userId) found with
      | None => (db, fail 500 "Server error")
      | Some formattedMessages =>
          let db1 := set_messages db (markRead (messages db) matchId userId) in
          match matchInfo (users db) userId m with
          | None => (db1, fail 500 "Server error")
          | Some info =>
              (db1, mkResponse 200 true None
                      (Some (mkMessagesData formattedMessages info)))
          end
      end
  end.

(** PUT /messages/:messageId/read, after [auth]:
    [Message.findByIdAndUpdate(messageId, { $addToSet: { readBy: userId } })]. *)
Definition mark_read (db : Db) (userId messageId : ObjectId) : Db * Response unit :=
  match list_find (λ msg, Message._id msg = messageId) (messages db) with
  | None => (db, fail 404 "Message not found")
  | Some (i, msg) =>
      (set_messages db
         (<[i := set_readBy msg (addToSet userId (Message.readBy msg))]> (messages db)),
       mkResponse 200 true (Some "Message marked as read") None)
  end.

(** DELETE /messages/:messageId, after [auth]:
    [Message.findOne({ _id: messageId, sender: userId })], then
    [Message.findByIdAndDelete(messageId)]. *)
Definition delete_message (db : Db) (userId messageId : ObjectId)
    : Db * Response unit :=
  match list_find (λ msg, Message._id msg = messageId ∧ Message.sender msg = userId)
          (messages db) with
  | None => (db, fail 404 "Message not found or not authorized")
  | Some _ =>
      (match list_find (λ msg, Message._id msg = messageId) (messages db) with
       | Some (i, _) => set_messages db (delete i (messages db))
       | None => db
       end,
       mkResponse 200 true (Some "Message deleted") None)
  end.

(** The ids of the matches of a user, whatever their status. *)
Definition matchIds (ms : list Match.doc) (userId : ObjectId) : list ObjectId :=
  Match._id <$> filter (λ m, Match.user1 m = userId ∨ Match.user2 m = userId) ms.

(** The filter [{ match: { $in: matchIds }, sender: { $ne: userId },
                  readBy: { $ne: userId } }]. *)
Definition unread (ids : list ObjectId) (userId : ObjectId) (msg : Message.doc) : Prop :=
  Message.match_ msg ∈ ids ∧ Message.sender msg ≠ userId ∧
  userId ∉ Message.readBy msg.

Global Instance unread_dec ids userId msg : Decision (unread ids userId msg).
Proof. unfold unread. apply _. Defined.

Definition unreadCount (db : Db) (userId : ObjectId) : nat :=
  length (filter (unread (matchIds (matches db) userId) userId) (messages db)).

(** GET /unread-count, after [auth]. *)
Definition unread_count (db : Db) (userId : ObjectId) : Response nat :=
  mkResponse 200 true None (Some (unreadCount db userId)).

End Inbox.

(** ** routes/notifications.js: read marks and the unread counter *)
Module Notifications.

Definition set_isRead (n : Notification.doc) (b : bool) : Notification.doc :=
  Notification.mk (Notification.recipient n) (Notification.sender n)
    (Notification.type n) (Notification.title n) (Notification.message n)
    (Notification.data n) b.

(** The filter [{ recipient: userId, isRead: false }]. *)
Definition unread_of (userId : ObjectId) (n : Notification.doc) : Prop :=
  Notification.recipient n = userId ∧ Notification.isRead n = false.

Global Instance unread_of_dec userId n : Decision (unread_of userId n).
Proof. unfold unread_of. apply _. Defined.

Definition unreadCount (db : Db) (userId : ObjectId) : nat :=
  length (filter (unread_of userId) (notifications db)).

(** PUT /mark-all-read, after [auth]:
    [Notification.updateMany(filter, { isRead: true, readAt: new Date() })]
    and an answer that reports [modifiedCount]. The record does not carry
    [readAt], which no handler reads. *)
Definition mark_all_read (db : Db) (userId : ObjectId) : Db * Response unit :=
  let modifiedCount := length (filter (unread_of userId) (notifications db)) in
  (set_notifications db
     ((λ n, if decide (unread_of userId n) then set_isRead n true else n)
        <$> notifications db),
   mkResponse 200 true
     (Some (pretty modifiedCount ++ " notifications marked as read")) None).

(** GET /unread-count, after [auth]. *)
Definition unread_count (db : Db) (userId : ObjectId) : Response nat :=
  mkResponse 200 true None (Some (unreadCount db userId)).

End Notifications.

(** ** routes/matches.js: one match *)
Module MatchViews.
Import Inbox.

Record MatchView := mkMatchView {
  gm_id : ObjectId;
  gm_name : string;
  gm_avatar : Avatar;
  gm_college : string;
  gm_matchedAt : Z;
  gm_lastActivity : Z
}.

Definition formattedMatch (m : Match.doc) (otherUser : User) : MatchView :=
  mkMatchView (Match._id m) (name otherUser) (avatar otherUser) (college otherUser)
    (Match.matchedAt m) (Match.lastActivity m).

(** GET /:matchId, after [auth]. Both participants are populated; reading
    [_id] or [name] of one whose account is gone throws, which the handler
    answers with 500. *)
Definition get_match (db : Db) (userId matchId : ObjectId) : Response MatchView :=
  match list_find (λ m, Match._id m = matchId) (matches db) with
  | None => fail 404 "Match not found"
  | Some (_, m) =>
      match findById (users db) (Match.user1 m) with
      | None => fail 500 "Server error"
      | Some user1 =>
          match findById (users db) (Match.user2 m) with
          | None => fail 500 "Server error"
          | Some user2 =>
              if decide (_id user1 ≠ userId ∧ _id user2 ≠ userId) then
                fail 403 "Access denied"
              else
                mkResponse 200 true None
                  (Some (formattedMatch m
                           (if decide (_id user1 = userId) then user2 else user1)))
          end
      end
  end.

End MatchViews.

(** ** routes/confessions.js: writing confessions and comments;
       models/Confession.js: the reaction methods *)
Module Board.
Import Confessions.

Definition parse_category (s : string) : option Category :=
  if decide (s = "crush") then Some crush
  else if decide (s = "academic") then Some academic
  else if decide (s = "funny") then Some funny
  else if decide (s = "support") then Some support
  else if decide (s = "general") then Some general
  else None.

(** POST /, after [auth]; [category] is [undefined] when the body has
    none. [now] is the creation time, [fresh] the id of the new document.
    For a truthy content that is no string the call of [trim] throws, which
    the handler's [catch] answers with 500. A user without a college makes
    [confession.save()] fail on the required field, which the handler
    answers with 500 as well. *)
Definition create_confession (db : Db) (userId : ObjectId)
    (content : Field) (category : option string) (now : Z) (fresh : ObjectId)
    : Db * Response Formatted :=
  match content with
  | Absent | NotText false => (db, fail 400 "Content is required")
  | NotText true => (db, fail 500 "Server error")
  | Text text =>
      if Chat.blank (Some text) then (db, fail 400 "Content is required")
      else if decide (String.length (trim text) < 3)%nat then
        (db, fail 400 "Content too short (min 3 characters)")
      else if decide (1000 < String.length text)%nat then
        (db, fail 400 "Content too long (max 1000 characters)")
      else
        match parse_category (default "general" category) with
        | None => (db, fail 400 "Invalid category")
        | Some cat =>
            match findById (users db) userId with
            | None => (db, fail 404 "User not found")
            | Some currentUser =>
                if decide (college currentUser = "") then
                  (db, fail 500 "Server error")
                else
                  let confession :=
                    Confession.mk fresh userId (trim text) cat (college currentUser)
                      true false [] [] now in
                  (set_confessions db (confessions db ++ [confession])%list,
                   mkResponse 201 true None
                     (Some (mkFormatted fresh (trim text) cat (mkCounts 0 0 0 0)
                              0%nat t_now true
                              (mkUserReactions false false false false))))
            end
        end
  end.

(** [/^[0-9a-fA-F]{24}$/] *)
Definition hex_digit (a : Ascii.ascii) : bool :=
  let n := Ascii.nat_of_ascii a in
  bool_decide ((48 ≤ n ≤ 57) ∨ (65 ≤ n ≤ 70) ∨ (97 ≤ n ≤ 102))%nat.

Fixpoint all_hex (s : string) : bool :=
  match s with
  | EmptyString => true
  | String a s' => hex_digit a && all_hex s'
  end.

Definition is_object_id (s : string) : bool :=
  bool_decide (String.length s = 24%nat) && all_hex s.

Definition set_comments (c : Confession.doc) (cs : list Comment.doc) : Confession.doc :=
  Confession.mk (Confession._id c) (Confession.userId c) (Confession.content c)
    (Confession.category c) (Confession.college c) (Confession.isAnonymous c)
    (Confession.isReported c) (Confession.reactions c) cs (Confession.createdAt c).

(** The comment of the answer: author 'Anonymous', time 'now', no upvotes
    and no replies are constants of the handler. *)
Record CommentData := mkCommentData {
  cd_id : ObjectId;
  cd_content : string;
  totalComments : nat
}.

(** POST /:id/comments, after [auth]. The id of the path has passed the
    pattern when the confession is looked up; the store casts it to an
    ObjectId, whose string is the id in lower case. For a truthy content
    that is no string the call of [trim] throws, which the handler's
    [catch] answers with 500. *)
Definition add_comment (db : Db) (userId confessionId : ObjectId)
    (content : Field) (now : Z) (fresh : ObjectId)
    : Db * Response CommentData :=
  if negb (is_object_id confessionId) then
    (db, fail 400 "Invalid confession ID format")
  else
    match content with
    | Absent | NotText false => (db, fail 400 "Comment content is required")
    | NotText true => (db, fail 500 "Server error")
    | Text text =>
        if Chat.blank (Some text) then (db, fail 400 "Comment content is required")
        else if decide (500 < String.length text)%nat then
          (db, fail 400 "Comment too long (max 500 characters)")
        else
          match findConfession (confessions db) (toLowerCase confessionId) with
          | None => (db, fail 404 "Confession not found")
          | Some (i, confession) =>
              match findById (users db) userId with
              | None => (db, fail 404 "User not found")
              | Some currentUser =>
                  if decide (Confession.college confession ≠ college currentUser) then
                    (db, fail 403 "Access denied")
                  else
                    let newComment := Comment.mk fresh userId (trim text) now in
                    let updatedConfession :=
                      set_comments confession
                        (Confession.comments confession ++ [newComment])%list in
                    (set_confessions db (<[i := updatedConfession]> (confessions db)),
                     mkResponse 201 true None
                       (Some (mkCommentData fresh (trim text)
                                (length (Confession.comments updatedConfession)))))
              end
          end
    end.

(** [confessionSchema.methods.addReaction] and [removeReaction], on the
    reaction list of the document. *)
Definition addReaction (rs : list Reaction.doc) (userId : ObjectId) (type : ReactionType)
    : list Reaction.doc :=
  (filter (λ reaction, Reaction.userId reaction ≠ userId) rs
     ++ [Reaction.mk userId type])%list.

Definition removeReaction (rs : list Reaction.doc) (userId : ObjectId)
    : list Reaction.doc :=
  filter (λ reaction, Reaction.userId reaction ≠ userId) rs.

(** [formatTimestamp] of routes/matches.js and routes/notifications.js:
    the rendered strings are "now", "5m ago", "3h ago", "2d ago", and
    [toLocaleDateString()] of the date. *)
Inductive Stamp :=
  | s_now
  | s_minutes (n : Z)
  | s_hours (n : Z)
  | s_days (n : Z)
  | s_date (date : Z).

Definition formatTimestamp (now date : Z) : Stamp :=
  let diff := now - date in
  let minutes := diff / 60000 in
  let hours := diff / 3600000 in
  let days := diff / 86400000 in
  if decide (minutes < 1) then s_now
  else if decide (minutes < 60) then s_minutes minutes
  else if decide (hours < 24) then s_hours hours
  else if decide (days < 7) then s_days days
  else s_date date.

(** The two renderings of an age show the same thing. *)
Definition same_age (s : Stamp) (t : TimeAgo) : Prop :=
  match s, t with
  | s_now, t_now => True
  | s_minutes n, t_minutes n' => n = n'
  | s_hours n, t_hours n' => n = n'
  | s_days n, t_days n' => n = n'
  | s_date _, t_weeks _ => True
  | _, _ => False
  end.

End Board.

(** ** server.js: the clean-up at start-up *)
Module Server.

(** The [_id] of the [$group] stage: the two users of a match, the
    smaller id first. ObjectIds are compared as their hexadecimal
    strings. *)
Definition pair_key (m : Match.doc) : ObjectId * ObjectId :=
  if String.ltb (Match.user1 m) (Match.user2 m)
  then (Match.user1 m, Match.user2 m)
  else (Match.user2 m, Match.user1 m).

(** The ids that the loop deletes: of every group, all ids but the first
    that was pushed. [seen] are the keys of the documents before. *)
Fixpoint matchesToDelete (seen : list (ObjectId * ObjectId)) (ms : list Match.doc)
    : list ObjectId :=
  match ms with
  | [] => []
  | m :: rest =>
      if decide (pair_key m ∈ seen)
      then Match._id m :: matchesToDelete seen rest
      else matchesToDelete (pair_key m :: seen) rest
  end.

(** [Match.deleteMany({ _id: { $in: matchesToDelete } })] for every group. *)
Definition removeDuplicateMatches (ms : list Match.doc) : list Match.doc :=
  filter (λ m, Match._id m ∉ matchesToDelete [] ms) ms.

(** The first document of every group, in the order of the collection. *)
Fixpoint firsts (seen : list (ObjectId * ObjectId)) (ms : list Match.doc)
    : list Match.doc :=
  match ms with
  | [] => []
  | m :: rest =>
      if decide (pair_key m ∈ seen) then firsts seen rest
      else m :: firsts (pair_key m :: seen) rest
  end.

(** The matches of an unordered pair, whatever their status. *)
Definition between (x y : ObjectId) (m : Match.doc) : Prop :=
  (Match.user1 m = x ∧ Match.user2 m = y) ∨ (Match.user1 m = y ∧ Match.user2 m = x).

Global Instance between_dec x y m : Decision (between x y m).
Proof. unfold between. apply _. Defined.

End Server.

(** ** Sample stores for the concrete checks *)
Module Samples.
Import Matches.

Definition sample_photo (pid : string) (main : bool) : Photo :=
  mkPhoto ("https://img/" ++ pid) pid main [] 0.

Definition sample_user (id : ObjectId) (ps : list Photo) : User :=
  mkUser id "Asha" (id ++ "@abc.edu") "hash" "ABC" true None None None None ps.

Definition six_photos : list Photo :=
  [sample_photo "p1" true; sample_photo "p2" false; sample_photo "p3" false;
   sample_photo "p4" false; sample_photo "p5" false; sample_photo "p6" false].

Definition pending_user : User :=
  mkUser "u1" "Asha" "asha@abc.edu" "old-hash" "ABC" false
    (Some "v-token") (Some 1000) (Some "r-token") (Some 1000) [].

Definition two_users : list User :=
  [mkUser "a" "Asha" "asha@abc.edu" "h" "ABC" true None None None None [];
   mkUser "b" "Bela" "bela@abc.edu" "h" "ABC" true None None None None []].

Definition fresh_db : Db := mkDb two_users [] [] [] [] [].

(** Bela has liked Asha. *)
Definition liked_db : Db :=
  (swipe fresh_db "b" (Some "a") (Some "like") 1 "m1").1.

(** Then Asha has liked Bela: they are matched. *)
Definition matched_db : Db :=
  (swipe liked_db "a" (Some "b") (Some "like") 2 "m2").1.

(** Bela has liked Asha, and the matches collection holds two active
    records of the pair, as the duplicate clean-up at start-up expects to
    find them (the collection has no unique index). *)
Definition duplicated_db : Db :=
  mkDb two_users [Swipe.mk "b" "a" like 1 1]
    [Match.mk "m1" "b" "a" active 1 1 (Match.mkLast None None 1);
     Match.mk "m2" "a" "b" active 1 1 (Match.mkLast None None 1)]
    [] [] [].

Definition chat_db : Db :=
  mkDb
    [mkUser "a" "Asha" "asha@abc.edu" "h" "ABC" true None None None None [];
     mkUser "b" "Bela" "bela@abc.edu" "h" "ABC" true None None None None [];
     mkUser "c" "Chitra" "chitra@abc.edu" "h" "ABC" true None None None None []]
    []
    [Match.mk "m1" "a" "b" active 1 1 (Match.mkLast None None 1)]
    [] [] [].

Definition sample_confession (rs : list Reaction.doc) : Confession.doc :=
  Confession.mk "c1" "a" "I like the library" general "ABC" true false rs [] 10.

Definition board_db (rs : list Reaction.doc) : Db :=
  mkDb
    [mkUser "a" "Asha" "asha@abc.edu" "h" "ABC" true None None None None [];
     mkUser "x" "Xena" "xena@xyz.edu" "h" "XYZ" true None None None None []]
    [] [] [] [] [sample_confession rs].

Definition bela_photo : Photo := mkPhoto "https://img/p1" "p1" true [] 0.

Definition bela : User :=
  mkUser "b" "Bela" "bela@abc.edu" "h" "ABC" true None None None None [bela_photo].

Definition asha : User :=
  mkUser "a" "Asha" "asha@abc.edu" "h" "ABC" true None None None None [].

End Samples.

(** ** Further sample data *)
Module MoreSamples.
Import Samples.

Definition sample_hash (pw : string) : string := "bcrypt:" ++ pw.

Definition sample_compare (pw hash : string) : bool :=
  bool_decide (hash = sample_hash pw).

Definition image : Users.Upload := Users.Uploaded "https://img/v" "v".

(** Asha registers with an address in mixed case. *)
Definition asha_registers : list User * list Auth.Mail * Response Accounts.SessionData :=
  Accounts.register sample_hash [] (Some " Asha ") (Some "Asha@CS.abc.edu")
    (Some "secret1") true true image image 1000 "v-token" "u1".

(** A board whose confession has an id of the form the comment endpoint
    asks for. *)
Definition hex_board : Db :=
  mkDb
    [mkUser "a" "Asha" "asha@abc.edu" "h" "ABC" true None None None None [];
     mkUser "x" "Xena" "xena@xyz.edu" "h" "XYZ" true None None None None []]
    [] [] [] []
    [Confession.mk "64b7f0c2a1d3e4f5a6b7c8d9" "a" "I like the library" general "ABC"
       true false [] [] 10].

(** Asha has written to Bela in their match. *)
Definition talk_db : Db :=
  (Chat.send_message chat_db "a" "m1" (Text "hi") None None 5 "g1").1.

End MoreSamples.

(** * Properties *)

Module ListFacts.
Local Open Scope list_scope.

Section Find.
Context {A : Type} (P : A → Prop) `{!∀ x, Decision (P x)}.

Lemma filter_none (l : list A) : Forall (λ x, ¬ P x) l → filter P l = [].
Proof.
  induction 1 as [|x l Hx _ IH]; [done|]. by rewrite filter_cons_False.
Qed.

Lemma filter_all (l : list A) : Forall P l → filter P l = l.
Proof.
  induction 1 as [|x l Hx _ IH]; [done|]. by rewrite filter_cons_True, IH.
Qed.

Lemma filter_nil_Forall (l : list A) : filter P l = [] → Forall (λ x, ¬ P x) l.
Proof.
  intros Hf. apply Forall_forall. intros x Hx HP.
  by eapply filter_nil_not_elem_of.
Qed.

(** A successful [list_find] splits the list around the first match. *)
Lemma list_find_split (l : list A) i x :
  list_find P l = Some (i, x) →
  ∃ l1 l2, l = l1 ++ x :: l2 ∧ length l1 = i ∧ Forall (λ y, ¬ P y) l1 ∧ P x ∧
           ∀ y, <[i:=y]> l = l1 ++ y :: l2.
Proof.
  intros (Hl & HP & Hbefore)%list_find_Some.
  exists (take i l), (drop (S i) l).
  assert (i < length l)%nat as Hi by by eapply lookup_lt_Some.
  split_and!.
  - by rewrite take_drop_middle.
  - rewrite length_take. lia.
  - apply Forall_forall. intros y (j & Hj & Hlt)%elem_of_take. by eapply Hbefore.
  - done.
  - intros y. by apply insert_take_drop.
Qed.

Lemma filter_middle (l1 l2 : list A) x :
  P x → filter P (l1 ++ x :: l2) = filter P l1 ++ x :: filter P l2.
Proof. intros HP. by rewrite filter_app, filter_cons_True. Qed.

Lemma filter_at_most_one (l1 l2 : list A) x :
  P x → (length (filter P (l1 ++ x :: l2)) ≤ 1)%nat →
  filter P l1 = [] ∧ filter P l2 = [].
Proof.
  intros HP. rewrite filter_middle by done. rewrite length_app. simpl.
  destruct (filter P l1), (filter P l2); simpl; intros; try lia; done.
Qed.

Lemma list_find_insert_same (l : list A) i x y :
  list_find P l = Some (i, x) → P y → list_find P (<[i:=y]> l) = Some (i, y).
Proof.
  intros (Hl & HP & Hbefore)%list_find_Some Hy. apply list_find_Some.
  split_and!; [|done|].
  - apply list_lookup_insert_eq. by eapply lookup_lt_Some.
  - intros j z Hj Hlt. rewrite list_lookup_insert_ne in Hj by lia.
    by eapply Hbefore.
Qed.

Lemma find_is_Some_Exists (l : list A) :
  is_Some (list_find P l) ↔ Exists P l.
Proof.
  split.
  - intros [[i x] (Hl & HP & _)%list_find_Some].
    apply Exists_exists. exists x. split; [by eapply list_elem_of_lookup_2|done].
  - intros (x & Hin & HP)%Exists_exists. by eapply list_find_elem_of.
Qed.
End Find.
Lemma find_snd_Some {A} (P : A → Prop) `{!∀ x, Decision (P x)} (l : list A) x :
  snd <$> list_find P l = Some x → x ∈ l ∧ P x.
Proof.
  destruct (list_find P l) as [[i y]|] eqn:E; intros; simplify_eq/=.
  apply list_find_Some in E as (Hl & HP & _).
  split; [by eapply list_elem_of_lookup_2|done].
Qed.

Lemma find_snd_None {A} (P : A → Prop) `{!∀ x, Decision (P x)} (l : list A) :
  Forall (λ x, ¬ P x) l → snd <$> list_find P l = None.
Proof. intros Hl. by rewrite (proj2 (list_find_None P l) Hl). Qed.

End ListFacts.

Module StoreFacts.

Lemma findById_Some us id u :
  findById us id = Some u → u ∈ us ∧ _id u = id.
Proof.
  unfold findById. intros H.
  destruct (list_find _ us) as [[i v]|] eqn:E; simplify_eq/=.
  apply list_find_Some in E as (Hl & Hid & _).
  split; [by eapply list_elem_of_lookup_2|done].
Qed.

Lemma save_Forall (P : User → Prop) us u :
  Forall P us → P u → Forall P (save us u).
Proof.
  intros Hus Hu. unfold save. apply Forall_fmap.
  eapply Forall_impl; [exact Hus|]. intros v Hv. simpl. by case_decide.
Qed.

Lemma findById_cons u us id :
  findById (u :: us) id = if decide (_id u = id) then Some u else findById us id.
Proof.
  unfold findById. simpl. case_decide; [done|].
  by destruct (list_find _ us) as [[i v]|].
Qed.

Lemma findById_save us u id :
  is_Some (findById us id) → _id u = id → findById (save us u) id = Some u.
Proof.
  intros Hsome <-. induction us as [|v us IH].
  - by destruct Hsome.
  - rewrite findById_cons in Hsome. unfold save in *. rewrite fmap_cons.
    rewrite findById_cons. destruct (decide (_id v = _id u)) as [E|E].
    + by rewrite decide_True.
    + rewrite decide_False by done. by apply IH.
Qed.

Lemma findById_elem us u : u ∈ us → is_Some (findById us (_id u)).
Proof.
  intros Hin. unfold findById.
  destruct (list_find_elem_of (λ v, _id v = _id u) us u Hin eq_refl) as [[i v] ->].
  by eexists.
Qed.

End StoreFacts.

Module UsersFacts.
Import Users StoreFacts Samples.

Lemma main_count_app ps qs :
  main_count (ps ++ qs) = (main_count ps + main_count qs)%nat.
Proof. unfold main_count. by rewrite filter_app, length_app. Qed.

Lemma main_count_cons p ps :
  main_count (p :: ps) = ((if isMain p then 1 else 0) + main_count ps)%nat.
Proof.
  unfold main_count. rewrite filter_cons.
  destruct (isMain p); case_decide; simpl; congruence.
Qed.

Lemma main_count_delete ps i p :
  ps !! i = Some p →
  main_count ps = ((if isMain p then 1 else 0) + main_count (delete i ps))%nat.
Proof.
  revert i. induction ps as [|q ps IH]; intros [|i] Hi; simplify_eq/=.
  - by rewrite main_count_cons.
  - rewrite !main_count_cons, (IH i Hi). lia.
Qed.

Lemma main_count_cleared ps :
  main_count ((λ p, set_isMain p false) <$> ps) = 0%nat.
Proof.
  induction ps as [|q ps IH]; [done|].
  rewrite fmap_cons, main_count_cons. simpl. exact IH.
Qed.

Lemma main_count_alter_cleared ps i :
  (i < length ps)%nat →
  main_count (alter (λ p, set_isMain p true) i
                ((λ p, set_isMain p false) <$> ps)) = 1%nat.
Proof.
  revert i. induction ps as [|q ps IH]; intros i Hi; simpl in *; [lia|].
  destruct i as [|i]; simpl.
  - rewrite main_count_cons. simpl. by rewrite main_count_cleared.
  - rewrite main_count_cons. simpl. apply IH. lia.
Qed.

Lemma some_main_count ps :
  some_main ps = true ↔ (0 < main_count ps)%nat.
Proof.
  unfold some_main. rewrite bool_decide_eq_true.
  induction ps as [|q ps IH].
  - rewrite Exists_nil. unfold main_count. simpl. lia.
  - rewrite Exists_cons, main_count_cons, IH.
    destruct (isMain q); split; intros H; try lia; auto.
Qed.

Lemma findIndex_Some ps pid i :
  findIndex ps pid = Some i →
  ∃ p, ps !! i = Some p ∧ publicId p = pid.
Proof.
  unfold findIndex. intros H.
  destruct (list_find _ ps) as [[j p]|] eqn:E; simplify_eq/=.
  apply list_find_Some in E as (Hl & Hp & _). eauto.
Qed.

Lemma upload_photo_main_ok us uid file cloud :
  all_main_ok us → all_main_ok (upload_photo us uid file cloud).1.
Proof.
  intros Hus. unfold upload_photo.
  destruct file as [f|]; [|done].
  destruct (findById us uid) as [user|] eqn:Hu; [|done].
  case_decide; [done|]. destruct cloud as [su pi|msg]; [|done]. simpl.
  apply save_Forall; [done|]. simpl. intros _.
  apply findById_Some in Hu as [Hin _].
  pose proof (proj1 (Forall_forall _ _) Hus _ Hin) as Hok.
  unfold main_ok in Hok; simpl in Hok.
  rewrite main_count_app, main_count_cons. cbn [isMain main_count length filter list_filter].
  destruct (photos user) as [|p ps] eqn:Eps.
  - done.
  - rewrite Hok by done. by rewrite bool_decide_eq_false_2.
Qed.

Lemma delete_photo_main_ok us uid d :
  all_main_ok us → all_main_ok (delete_photo us uid d).1.
Proof.
  intros Hus. unfold delete_photo.
  destruct d as [pid|]; [|done].
  destruct (findById us uid) as [user|] eqn:Hu; [|done].
  destruct (findIndex (photos user) pid) as [i|] eqn:Hi; [|done]. simpl.
  apply save_Forall; [done|]. simpl.
  apply findById_Some in Hu as [Hin _].
  pose proof (proj1 (Forall_forall _ _) Hus _ Hin) as Hok.
  unfold main_ok in Hok; simpl in Hok.
  apply findIndex_Some in Hi as (p & Hp & _).
  assert (photos user ≠ []) as Hne by (intros E; rewrite E in Hp; done).
  specialize (Hok Hne).
  rewrite (main_count_delete _ _ _ Hp) in Hok.
  destruct (delete i (photos user)) as [|p0 rest] eqn:Ed;
    [intros ?; congruence|].
  destruct (some_main (p0 :: rest)) eqn:Es; intros _.
  - apply some_main_count in Es. destruct (isMain p); lia.
  - assert (main_count (p0 :: rest) = 0%nat) as Hz.
    { destruct (main_count (p0 :: rest)) eqn:E; [done|].
      assert (some_main (p0 :: rest) = true) by (apply some_main_count; lia).
      congruence. }
    rewrite main_count_cons in Hz |- *. simpl.
    destruct (isMain p0); simpl in *; lia.
Qed.

Lemma set_main_photo_main_ok us uid d :
  all_main_ok us → all_main_ok (set_main_photo us uid d).1.
Proof.
  intros Hus. unfold set_main_photo.
  destruct d as [pid|]; [|done].
  destruct (findById us uid) as [user|] eqn:Hu; [|done].
  destruct (findIndex (photos user) pid) as [i|] eqn:Hi; [|done]. simpl.
  apply save_Forall; [done|]. simpl. intros _.
  apply findIndex_Some in Hi as (p & Hp & _).
  apply main_count_alter_cleared. by eapply lookup_lt_Some.
Qed.

Lemma handle_main_ok us b r :
  all_main_ok us → all_main_ok (handle us b r).1.
Proof.
  intros Hus. unfold handle. destruct (auth us b) as [res|uid]; [done|].
  destruct r as [file cloud|d|d].
  - pose proof (upload_photo_main_ok us uid file cloud Hus).
    by destruct (upload_photo us uid file cloud).
  - pose proof (delete_photo_main_ok us uid d Hus).
    by destruct (delete_photo us uid d).
  - pose proof (set_main_photo_main_ok us uid d Hus).
    by destruct (set_main_photo us uid d).
Qed.

Lemma run_main_ok rs : ∀ us, all_main_ok us → all_main_ok (run us rs).
Proof.
  unfold run. induction rs as [|[b r] rs IH]; intros us Hus; [done|].
  simpl. apply IH. by apply handle_main_ok.
Qed.

Lemma set_main_flags ps i :
  (i < length ps)%nat →
  ∀ j q,
    alter (λ p, set_isMain p true) i ((λ p, set_isMain p false) <$> ps) !! j
      = Some q →
    isMain q = bool_decide (j = i).
Proof.
  intros Hi j q. destruct (decide (j = i)) as [->|Hne].
  - rewrite list_lookup_alter_eq, list_lookup_fmap.
    destruct (ps !! i); intros; simplify_eq/=. by rewrite bool_decide_eq_true_2.
  - rewrite list_lookup_alter_ne by done. rewrite list_lookup_fmap.
    destruct (ps !! j); intros; simplify_eq/=. by rewrite bool_decide_eq_false_2.
Qed.

Lemma upload_photo_bound us uid file cloud :
  Forall2 (λ v v', _id v' = _id v ∧
                   (length (photos v') ≤ length (photos v) `max` 6)%nat)
    us (upload_photo us uid file cloud).1.
Proof.
  assert (Forall2 (λ v v', _id v' = _id v ∧
            (length (photos v') ≤ length (photos v) `max` 6)%nat) us us) as Hid.
  { apply Forall2_same_length_lookup_2; [done|].
    intros i v v' ??; simplify_eq. split; [done|lia]. }
  unfold upload_photo. destruct file as [f|]; [|done].
  destruct (findById us uid) as [user|] eqn:Hu; [|done].
  case_decide as Hlen; [done|]. destruct cloud as [su pi|msg]; [|done].
  simpl. unfold save. apply Forall2_fmap_r.
  apply Forall2_same_length_lookup_2; [done|].
  intros i v v' ??; simplify_eq. unfold compose. cbn beta.
  destruct (decide (_id v = _id user)) as [Hv|Hv].
  - rewrite decide_True by done.
    split; [symmetry; exact Hv|]. simpl. rewrite length_app. simpl. lia.
  - rewrite decide_False by done. split; [done|lia].
Qed.

Lemma delete_photo_reassigns us uid user pid i p :
  all_main_ok us →
  findById us uid = Some user → findIndex (photos user) pid = Some i →
  photos user !! i = Some p →
  ∃ user', findById (delete_photo us uid (Some pid)).1 uid = Some user' ∧
           (length (photos user') + 1 = length (photos user))%nat ∧
           (isMain p = true → ∀ q, photos user' !! 0%nat = Some q → isMain q = true).
Proof.
  intros Hus Hu Hi Hp. unfold delete_photo. rewrite Hu, Hi. simpl.
  eexists. split.
  { apply findById_save; [by rewrite Hu|]. simpl.
    by apply findById_Some in Hu as [_ ?]. }
  simpl.
  assert (length (delete i (photos user)) + 1 = length (photos user))%nat as Hlen.
  { rewrite length_delete by by eexists.
    apply lookup_lt_Some in Hp. lia. }
  apply findById_Some in Hu as [Hin _].
  pose proof (proj1 (Forall_forall _ _) Hus _ Hin) as Hok.
  unfold main_ok in Hok; simpl in Hok.
  assert (photos user ≠ []) as Hne by (intros E; rewrite E in Hp; done).
  specialize (Hok Hne). rewrite (main_count_delete _ _ _ Hp) in Hok.
  destruct (delete i (photos user)) as [|p0 rest] eqn:Ed.
  { split; [done|]. by intros _ q ?. }
  destruct (some_main (p0 :: rest)) eqn:Es.
  - split; [done|]. intros Hmain. apply some_main_count in Es.
    rewrite Hmain in Hok. lia.
  - split; [done|]. intros _ q Hq. simpl in Hq. by injection Hq as <-.
Qed.

(** C8: in every user record a non-empty photo list has exactly one photo
    with [isMain = true]: the property holds for accounts without photos and
    is kept by uploading, deleting and choosing the main photo, hence by
    every sequence of these requests. The first uploaded photo becomes the
    main one and later ones do not; when the main photo is deleted and
    photos remain, the first of them becomes main; choosing a main photo
    unsets all the others. *)
Theorem photo_main_invariant :
  (∀ us, all_main_ok us →
     (∀ uid file cloud, all_main_ok (upload_photo us uid file cloud).1) ∧
     (∀ uid d, all_main_ok (delete_photo us uid d).1) ∧
     (∀ uid d, all_main_ok (set_main_photo us uid d).1) ∧
     (∀ rs, all_main_ok (run us rs)) ∧
     (∀ uid user pid i p,
         findById us uid = Some user → findIndex (photos user) pid = Some i →
         photos user !! i = Some p →
         ∃ user', findById (delete_photo us uid (Some pid)).1 uid = Some user' ∧
                  (length (photos user') + 1 = length (photos user))%nat ∧
                  (isMain p = true →
                   ∀ q, photos user' !! 0%nat = Some q → isMain q = true))) ∧
  (∀ us rs, Forall (λ u, photos u = []) us → all_main_ok (run us rs)) ∧
  (∀ us uid user f su pi,
      findById us uid = Some user → (length (photos user) < 6)%nat →
      findById (upload_photo us uid (Some f) (Uploaded su pi)).1 uid
        = Some (set_photos user
                  (photos user ++
                     [mkPhoto su pi (bool_decide (length (photos user) = 0%nat))
                        [] 0]))) ∧
  (∀ us uid user pid i,
      findById us uid = Some user → findIndex (photos user) pid = Some i →
      ∃ user', findById (set_main_photo us uid (Some pid)).1 uid = Some user' ∧
               length (photos user') = length (photos user) ∧
               ∀ j q, photos user' !! j = Some q → isMain q = bool_decide (j = i)).
Proof.
  split_and!.
  - intros us Hus. split_and!.
    + intros. by apply upload_photo_main_ok.
    + intros. by apply delete_photo_main_ok.
    + intros. by apply set_main_photo_main_ok.
    + intros. by apply run_main_ok.
    + intros. by eapply delete_photo_reassigns.
  - intros us rs Hempty. apply run_main_ok.
    eapply Forall_impl; [exact Hempty|]. intros u Hu Hne. by rewrite Hu in Hne.
  - intros us uid user f su pi Hu Hlen. unfold upload_photo. rewrite Hu.
    rewrite decide_False by lia. simpl.
    apply findById_save; [by rewrite Hu|]. simpl.
    by apply findById_Some in Hu as [_ ?].
  - intros us uid user pid i Hu Hi. unfold set_main_photo. rewrite Hu, Hi. simpl.
    eexists. split.
    + apply findById_save; [by rewrite Hu|]. simpl.
      by apply findById_Some in Hu as [_ ?].
    + simpl. split.
      * by rewrite length_alter, length_fmap.
      * apply set_main_flags. apply findIndex_Some in Hi as (p & Hp & _).
        by eapply lookup_lt_Some.
Qed.

Lemma photo_main_invariant_witness :
  all_main_ok
    (delete_photo
       [sample_user "u1" [sample_photo "p1" true; sample_photo "p2" false]]
       "u1" (Some "p1")).1.
Proof.
  apply (proj1 photo_main_invariant
           [sample_user "u1" [sample_photo "p1" true; sample_photo "p2" false]]).
  repeat constructor.
Defined.

(** C9: a user who already has six or more photos gets status 400 from
    upload-photo and keeps the same photo list, so the endpoint never
    grows a photo list beyond six entries. *)
Theorem upload_photo_limit us uid file cloud :
  (∀ user, findById us uid = Some user → (6 ≤ length (photos user))%nat →
     status (upload_photo us uid file cloud).2 = 400 ∧
     (upload_photo us uid file cloud).1 = us) ∧
  Forall2 (λ v v', _id v' = _id v ∧
                   (length (photos v') ≤ length (photos v) `max` 6)%nat)
    us (upload_photo us uid file cloud).1.
Proof.
  split; [|apply upload_photo_bound].
  intros user Hu Hlen. unfold upload_photo. destruct file as [f|]; [|done].
  rewrite Hu. by rewrite decide_True.
Qed.

Lemma upload_photo_limit_witness :
  status (upload_photo [sample_user "u1" six_photos] "u1" (Some "img")
            (Uploaded "https://img/p7" "p7")).2 = 400 ∧
  (upload_photo [sample_user "u1" six_photos] "u1" (Some "img")
     (Uploaded "https://img/p7" "p7")).1 = [sample_user "u1" six_photos].
Proof.
  apply (proj1 (upload_photo_limit [sample_user "u1" six_photos] "u1"
                  (Some "img") (Uploaded "https://img/p7" "p7"))
           (sample_user "u1" six_photos)).
  - reflexivity.
  - simpl. lia.
Defined.

End UsersFacts.

Module AuthFacts.
Import Auth ListFacts StoreFacts Samples.

Lemma save_clears (tok : User → option string) us u token :
  (∀ v, v ∈ us → tok v = Some token → _id v = _id u) →
  tok u ≠ Some token →
  Forall (λ v, tok v ≠ Some token) (save us u).
Proof.
  intros Huniq Hu. unfold save. apply Forall_fmap, Forall_forall.
  intros v Hv. simpl. case_decide as E; [done|].
  intros Htok. by apply E, Huniq.
Qed.

(** C10: the answer of forgot-password is the same whether or not an
    account with the given e-mail address exists: it depends on the
    submitted address only, not on the user store (nor on the time or the
    token that was drawn); for an address that is given it is the success
    envelope with the one fixed message. *)
Theorem forgot_password_hides_accounts
    (us1 us2 : list User) (email_ : option string) (now1 now2 : Z)
    (tok1 tok2 : string) :
  (forgot_password us1 email_ now1 tok1).2
    = (forgot_password us2 email_ now2 tok2).2 ∧
  (falsy email_ = false →
   (forgot_password us1 email_ now1 tok1).2
     = mkResponse 200 true (Some forgot_message) None).
Proof.
  unfold forgot_password. destruct (falsy email_); [done|].
  by destruct (findByEmail us1 _), (findByEmail us2 _).
Qed.

Lemma forgot_password_hides_accounts_witness :
  (forgot_password [pending_user] (Some "Asha@ABC.edu") 5 "t1").2
    = mkResponse 200 true (Some forgot_message) None ∧
  (forgot_password [pending_user] (Some "Asha@ABC.edu") 5 "t1").2
    = (forgot_password [] (Some "Asha@ABC.edu") 7 "t2").2 ∧
  resetPasswordToken <$> (forgot_password [pending_user] (Some "Asha@ABC.edu") 5 "t1").1.1
    = [Some "t1"].
Proof.
  split_and!.
  - apply (proj2 (forgot_password_hides_accounts [pending_user] []
                    (Some "Asha@ABC.edu") 5 7 "t1" "t2")).
    reflexivity.
  - apply (proj1 (forgot_password_hides_accounts [pending_user] []
                    (Some "Asha@ABC.edu") 5 7 "t1" "t2")).
  - reflexivity.
Defined.

Section Reset.
Variable bcrypt_hash : string → string.

Lemma reset_password_success us token pw now :
  status (reset_password bcrypt_hash us token pw now).2 = 200 →
  ∃ user p,
    pw = Some p ∧
    findByResetToken us token now = Some user ∧
    (reset_password bcrypt_hash us token pw now).1
      = save us (set_reset (set_password user (bcrypt_hash p)) None None).
Proof.
  unfold reset_password.
  destruct (falsy pw || _) eqn:Hpw; [done|].
  destruct (findByResetToken us token now) as [user|] eqn:Hf; [|done].
  intros _. destruct pw as [p|]; [|done]. by exists user, p.
Qed.

Lemma reset_password_replay us token pw now :
  Forall (λ v, resetPasswordToken v ≠ Some token) us →
  status (reset_password bcrypt_hash us token pw now).2 = 400 ∧
  (reset_password bcrypt_hash us token pw now).1 = us ∧
  ((6 ≤ String.length (default "" pw))%nat →
   message (reset_password bcrypt_hash us token pw now).2
     = Some "Invalid or expired reset token").
Proof.
  intros Hno. unfold reset_password.
  assert (findByResetToken us token now = None) as ->.
  { apply find_snd_None. eapply Forall_impl; [exact Hno|]. by intros v Hv [Ht _]. }
  destruct (falsy pw || _) eqn:Hpw; [|done].
  split_and!; [done..|]. intros Hlen.
  apply orb_true_iff in Hpw as [Hpw|Hpw].
  - destruct pw as [p|]; simpl in *; [|lia].
    apply bool_decide_eq_true in Hpw as ->. simpl in Hlen. lia.
  - apply bool_decide_eq_true in Hpw. lia.
Qed.
End Reset.

Lemma verify_email_replay us token now :
  Forall (λ v, verificationToken v ≠ Some token) us →
  verify_email us token now = (us, (400, InvalidOrExpiredLink)).
Proof.
  intros Hno. unfold verify_email.
  assert (findByVerificationToken us token now = None) as ->; [|done].
  apply find_snd_None. eapply Forall_impl; [exact Hno|]. by intros v Hv [Ht _].
Qed.

(** C7: a reset or verification token works once. After a successful
    reset-password (resp. verify-email) call with token [t] the user record
    has neither the token nor its expiry, and any later call that presents
    [t] again answers 400 (invalid or expired) and leaves the store as it
    is. Tokens are random, so [t] is taken to be pending on one account
    only. *)
Theorem tokens_are_single_use (bcrypt_hash : string → string)
    (us : list User) (t : string) :
  (∀ pw now,
      reset_token_unique us t →
      status (reset_password bcrypt_hash us t pw now).2 = 200 →
      let us' := (reset_password bcrypt_hash us t pw now).1 in
      (∃ user user',
          findByResetToken us t now = Some user ∧
          findById us' (_id user) = Some user' ∧
          resetPasswordToken user' = None ∧ resetPasswordExpires user' = None) ∧
      ∀ pw2 now2,
        status (reset_password bcrypt_hash us' t pw2 now2).2 = 400 ∧
        (reset_password bcrypt_hash us' t pw2 now2).1 = us' ∧
        ((6 ≤ String.length (default "" pw2))%nat →
         message (reset_password bcrypt_hash us' t pw2 now2).2
           = Some "Invalid or expired reset token")) ∧
  (∀ now,
      verification_token_unique us t →
      (verify_email us t now).2 = (200, EmailVerified) →
      let us' := (verify_email us t now).1 in
      (∃ user user',
          findByVerificationToken us t now = Some user ∧
          findById us' (_id user) = Some user' ∧
          isVerified user' = true ∧
          verificationToken user' = None ∧
          verificationTokenExpires user' = None) ∧
      ∀ now2, verify_email us' t now2 = (us', (400, InvalidOrExpiredLink))).
Proof.
  split.
  - intros pw now Huniq Hok us'.
    destruct (reset_password_success _ _ _ _ _ Hok) as (user & p & -> & Hf & Hus).
    subst us'. rewrite Hus.
    pose proof Hf as Hfound. apply find_snd_Some in Hfound as (Hin & Htok & _).
    split.
    + exists user, (set_reset (set_password user (bcrypt_hash p)) None None).
      split_and!; [done| |done..].
      apply (findById_save us _ (_id user)); [by apply findById_elem|done].
    + intros pw2 now2. apply reset_password_replay.
      apply (save_clears resetPasswordToken); [|done].
      intros v Hv Hvt. simpl. by apply Huniq.
  - intros now Huniq Hok us'. unfold verify_email in *.
    destruct (findByVerificationToken us t now) as [user|] eqn:Hf; [|done].
    subst us'. simpl.
    pose proof Hf as Hfound. apply find_snd_Some in Hfound as (Hin & Htok & _).
    split.
    + exists user, (set_verified user). split_and!; [done| |done..].
      apply (findById_save us _ (_id user)); [by apply findById_elem|done].
    + intros now2. apply verify_email_replay.
      apply (save_clears verificationToken); [|done].
      intros v Hv Hvt. simpl. by apply Huniq.
Qed.

Lemma tokens_are_single_use_witness :
  (status (reset_password (λ p, "bcrypt:" ++ p) (reset_password (λ p, "bcrypt:" ++ p)
             [pending_user] "r-token" (Some "secret1") 10).1
             "r-token" (Some "secret2") 20).2 = 400) ∧
  verify_email (verify_email [pending_user] "v-token" 10).1 "v-token" 20
    = ((verify_email [pending_user] "v-token" 10).1, (400, InvalidOrExpiredLink)).
Proof.
  pose proof (tokens_are_single_use (λ p, "bcrypt:" ++ p) [pending_user] "r-token")
    as [Hr _].
  pose proof (tokens_are_single_use (λ p, "bcrypt:" ++ p) [pending_user] "v-token")
    as [_ Hv].
  split.
  - refine (proj1 (proj2 (Hr (Some "secret1") 10 _ _) (Some "secret2") 20)).
    + intros u v Hu%list_elem_of_singleton Hv'%list_elem_of_singleton. by subst.
    + reflexivity.
  - refine (proj2 (Hv 10 _ _) 20).
    + intros u v Hu%list_elem_of_singleton Hv'%list_elem_of_singleton. by subst.
    + reflexivity.
Defined.

End AuthFacts.

Module MatchesFacts.
Import Matches ListFacts StoreFacts Samples.
Local Open Scope list_scope.

Lemma parse_action_string a : parse_action (action_string a) = Some a.
Proof. by destruct a. Qed.

(** What [record_swipe] does to the collection: it appends the first
    record of the pair, or rewrites the first record of the pair in place. *)
Lemma record_swipe_cases ss a b act now :
  (Forall (λ s, ¬ (Swipe.swiper s = a ∧ Swipe.swiped s = b)) ss ∧
   record_swipe ss a b act now = ss ++ [Swipe.mk a b act now now]) ∨
  (∃ l1 s l2,
      ss = l1 ++ s :: l2 ∧ Swipe.swiper s = a ∧ Swipe.swiped s = b ∧
      Forall (λ s, ¬ (Swipe.swiper s = a ∧ Swipe.swiped s = b)) l1 ∧
      record_swipe ss a b act now
        = l1 ++ Swipe.mk a b act (Swipe.swipedAt s) now :: l2).
Proof.
  unfold record_swipe, existingSwipe.
  destruct (list_find _ ss) as [[i s]|] eqn:E.
  - right. apply list_find_split in E as (l1 & l2 & -> & Hlen & Hl1 & [Ha Hb] & Hins).
    exists l1, s, l2. split_and!; [done..|]. by rewrite Hins, Ha, Hb.
  - left. split; [|done]. by apply list_find_None in E.
Qed.

Lemma record_swipe_pair ss a b act now :
  (length (swipes_of ss a b) ≤ 1)%nat →
  ∃ s, swipes_of (record_swipe ss a b act now) a b = [s] ∧ Swipe.action s = act.
Proof.
  intros Hone. unfold swipes_of in *.
  destruct (record_swipe_cases ss a b act now)
    as [[Hnone ->]|(l1 & s & l2 & -> & Ha & Hb & Hl1 & ->)].
  - eexists. rewrite filter_app, (filter_none _ _ Hnone). simpl.
    rewrite filter_cons_True by done. by rewrite filter_nil.
  - apply filter_at_most_one in Hone as [E1 E2]; [|done].
    eexists. rewrite filter_middle by done. by rewrite E1, E2.
Qed.

Lemma record_swipe_length ss a b act now a' b' :
  (length (swipes_of ss a' b') ≤ 1)%nat →
  (length (swipes_of (record_swipe ss a b act now) a' b') ≤ 1)%nat.
Proof.
  intros Hone. destruct (decide (a' = a ∧ b' = b)) as [[-> ->]|Hne].
  { by destruct (record_swipe_pair ss a b act now Hone) as (s & -> & _). }
  unfold swipes_of in *.
  destruct (record_swipe_cases ss a b act now)
    as [[Hnone ->]|(l1 & s & l2 & -> & Ha & Hb & Hl1 & ->)].
  - rewrite filter_app, (filter_cons_False _ (Swipe.mk a b act now now)), filter_nil,
      app_nil_r; [done|]. simpl. intros [? ?]. apply Hne. by subst.
  - rewrite filter_app, filter_cons_False in Hone |- *; [done| |];
      simpl; intros [? ?]; apply Hne; by subst.
Qed.

(** Recording a swipe of [a] on [b] does not change whether [b] has liked
    [a]. *)
Lemma record_swipe_reciprocal ss a b act now :
  a ≠ b →
  is_Some (reciprocalSwipe (record_swipe ss a b act now) a b)
    ↔ is_Some (reciprocalSwipe ss a b).
Proof.
  intros Hne. unfold reciprocalSwipe. rewrite !fmap_is_Some, !find_is_Some_Exists.
  destruct (record_swipe_cases ss a b act now)
    as [[Hnone ->]|(l1 & s & l2 & -> & Ha & Hb & Hl1 & ->)].
  - rewrite Exists_app, Exists_cons, Exists_nil. simpl. intuition congruence.
  - rewrite !Exists_app, !Exists_cons. simpl. intuition congruence.
Qed.

Lemma action_string_nonempty a : action_string a ≠ "".
Proof. by destruct a. Qed.

(** The store is only read for the users collection. *)
Lemma swipe_users db A tgt act now fresh :
  users (swipe db A tgt act now fresh).1 = users db.
Proof.
  unfold swipe. repeat case_match; simpl; done.
Qed.

(** The swipes collection after a call: unchanged when the request is
    rejected, and [record_swipe] of the request otherwise. *)
Lemma swipe_swipes_accepted db A B a now fresh :
  B ≠ "" → A ≠ B → is_Some (findById (users db) B) →
  swipes (swipe db A (Some B) (Some (action_string a)) now fresh).1
    = record_swipe (swipes db) A B a now.
Proof.
  intros HB Hne [tu Htu]. unfold swipe. simpl.
  rewrite !bool_decide_eq_false_2 by (done || apply action_string_nonempty). simpl.
  rewrite parse_action_string, decide_False by done. rewrite Htu.
  repeat case_match; simpl; done.
Qed.

Lemma swipe_swipes_cases db A tgt act now fresh :
  swipes (swipe db A tgt act now fresh).1 = swipes db ∨
  ∃ B a, swipes (swipe db A tgt act now fresh).1
           = record_swipe (swipes db) A B a now.
Proof.
  unfold swipe. repeat case_match; simpl; eauto.
Qed.

(** C3: a pass followed by a like of the same target leaves one swipe
    record for the ordered pair, and its action is the like; a call never
    adds a second record for a pair that has one. *)
Theorem swipe_last_write_wins :
  (∀ db A B now1 fresh1 now2 fresh2,
      A ≠ B → B ≠ "" → is_Some (findById (users db) B) →
      (length (swipes_of (swipes db) A B) ≤ 1)%nat →
      let db1 := (swipe db A (Some B) (Some "pass") now1 fresh1).1 in
      let db2 := (swipe db1 A (Some B) (Some "like") now2 fresh2).1 in
      (∃ s1, swipes_of (swipes db1) A B = [s1] ∧ Swipe.action s1 = pass) ∧
      (∃ s2, swipes_of (swipes db2) A B = [s2] ∧ Swipe.action s2 = like)) ∧
  (∀ db A tgt act now fresh x y,
      (length (swipes_of (swipes db) x y) ≤ 1)%nat →
      (length (swipes_of (swipes (swipe db A tgt act now fresh).1) x y) ≤ 1)%nat).
Proof.
  split.
  - intros db A B now1 fresh1 now2 fresh2 Hne HB Hex Hone db1 db2.
    assert (swipes db1 = record_swipe (swipes db) A B pass now1) as E1.
    { subst db1. by apply (swipe_swipes_accepted db A B pass). }
    assert (swipes db2 = record_swipe (swipes db1) A B like now2) as E2.
    { subst db2. apply (swipe_swipes_accepted db1 A B like); [done..|].
      subst db1. by rewrite swipe_users. }
    destruct (record_swipe_pair (swipes db) A B pass now1 Hone) as (s1 & Hs1 & Ha1).
    split; [exists s1; by rewrite E1|].
    rewrite E2. apply record_swipe_pair. rewrite E1, Hs1. simpl. lia.
  - intros db A tgt act now fresh x y Hone.
    destruct (swipe_swipes_cases db A tgt act now fresh) as [->|(B & a & ->)];
      [done|]. by apply record_swipe_length.
Qed.

Lemma active_between_sym x y m : active_between x y m ↔ active_between y x m.
Proof. unfold active_between. intuition. Qed.

Lemma active_matches_sym ms x y : active_matches ms x y = active_matches ms y x.
Proof.
  unfold active_matches. apply list_filter_iff. intros m. apply active_between_sym.
Qed.

Lemma existingMatch_None ms x y :
  existingMatch ms x y = None ↔ active_matches ms x y = [].
Proof.
  unfold existingMatch, active_matches. rewrite fmap_None, list_find_None.
  split; [apply filter_none|apply filter_nil_Forall].
Qed.

(** A mutual like: what the handler does once the request is accepted
    and the other side has liked already. *)
Lemma swipe_mutual db A B a now fresh tu au :
  B ≠ "" → A ≠ B → is_like a →
  findById (users db) B = Some tu → findById (users db) A = Some au →
  is_Some (reciprocalSwipe (swipes db) A B) →
  swipe db A (Some B) (Some (action_string a)) now fresh =
    let db1 := set_swipes db (record_swipe (swipes db) A B a now) in
    match existingMatch (matches db) A B with
    | Some m => (db1, swipe_response true (Some (Match._id m)))
    | None =>
        (set_notifications
           (set_matches db1
              (matches db ++
                 [Match.mk fresh A B active now now (Match.mkLast None None now)]))
           (notifications db ++
              [match_notification A B (name tu) fresh;
               match_notification B A (name au) fresh]),
         swipe_response true (Some fresh))
    end.
Proof.
  intros HB Hne Hlike Htu Hau Hrec. unfold swipe. simpl.
  rewrite !bool_decide_eq_false_2 by (done || apply action_string_nonempty). simpl.
  rewrite parse_action_string, decide_False by done. rewrite Htu.
  rewrite decide_True by done.
  apply (record_swipe_reciprocal (swipes db) A B a now Hne) in Hrec as [r Hr].
  rewrite Hr. destruct (existingMatch (matches db) A B); [done|].
  by rewrite Hau.
Qed.

(** The matches collection after a call: unchanged, or one active match
    appended for a pair that had none. *)
Lemma swipe_matches_cases db A tgt act now fresh :
  matches (swipe db A tgt act now fresh).1 = matches db ∨
  ∃ B, active_matches (matches db) A B = [] ∧
       matches (swipe db A tgt act now fresh).1
         = matches db ++
             [Match.mk fresh A B active now now (Match.mkLast None None now)].
Proof.
  unfold swipe. repeat case_match; simpl; eauto; right; eexists; split; eauto;
    by apply existingMatch_None.
Qed.

Lemma swipe_keeps_matches_unique db A tgt act now fresh x y :
  (length (active_matches (matches db) x y) ≤ 1)%nat →
  (length (active_matches (matches (swipe db A tgt act now fresh).1) x y) ≤ 1)%nat.
Proof.
  intros Hone.
  destruct (swipe_matches_cases db A tgt act now fresh) as [->|(B & Hnone & ->)];
    [done|].
  unfold active_matches in *. rewrite filter_app, length_app.
  set (m := Match.mk fresh A B active now now (Match.mkLast None None now)).
  destruct (decide (active_between x y m)) as [Hm|Hm].
  - assert (filter (active_between x y) (matches db) = []) as ->.
    { destruct Hm as [[[Hx Hy]|[Hx Hy]] _]; simpl in *; subst x y; [done|].
      rewrite <- Hnone. apply list_filter_iff. intros ?. apply active_between_sym. }
    rewrite filter_cons_True by done. simpl. lia.
  - rewrite filter_cons_False by done. simpl. lia.
Qed.

(** Once [b] has swiped [a] with a like, the reciprocal lookup of a swipe
    of [a] on [b] finds a record. *)
Lemma record_swipe_present ss a b act now :
  is_like act →
  is_Some (reciprocalSwipe (record_swipe ss b a act now) a b).
Proof.
  intros Hlike. unfold reciprocalSwipe. rewrite fmap_is_Some, find_is_Some_Exists.
  destruct (record_swipe_cases ss b a act now)
    as [[Hnone ->]|(l1 & s & l2 & -> & Ha & Hb & Hl1 & ->)];
    rewrite Exists_app; right; by apply Exists_cons_hd.
Qed.

(** C1, as the handler has it: when A likes B and B has liked A already,
    exactly one active match record of the unordered pair exists after the
    call, whichever of the two liked first, provided the pair had at most
    one before (which every call preserves). If the pair had no active
    match, the call creates it together with one notification of type
    match for A and one for B; if the match existed already, the call
    creates neither a match nor a notification. *)
Theorem mutual_like_creates_one_match :
  (∀ db A B a now fresh,
      is_like a → A ≠ B → B ≠ "" →
      is_Some (findById (users db) A) → is_Some (findById (users db) B) →
      is_Some (reciprocalSwipe (swipes db) A B) →
      (length (active_matches (matches db) A B) ≤ 1)%nat →
      let db' := (swipe db A (Some B) (Some (action_string a)) now fresh).1 in
      length (active_matches (matches db') A B) = 1%nat ∧
      length (active_matches (matches db') B A) = 1%nat ∧
      (active_matches (matches db) A B = [] →
       ∃ na nb,
         created (notifications db) (notifications db') = [na; nb] ∧
         notified [na; nb] n_match A B = [na] ∧
         notified [na; nb] n_match B A = [nb]) ∧
      (active_matches (matches db) A B ≠ [] →
       matches db' = matches db ∧ notifications db' = notifications db)) ∧
  (∀ db A tgt act now fresh x y,
      (length (active_matches (matches db) x y) ≤ 1)%nat →
      (length (active_matches (matches (swipe db A tgt act now fresh).1) x y)
         ≤ 1)%nat) ∧
  (∀ db A B a b now1 fresh1 now2 fresh2,
      is_like a → is_like b → A ≠ B → A ≠ "" → B ≠ "" →
      is_Some (findById (users db) A) → is_Some (findById (users db) B) →
      (length (active_matches (matches db) A B) ≤ 1)%nat →
      let db1 := (swipe db B (Some A) (Some (action_string b)) now1 fresh1).1 in
      let db2 := (swipe db1 A (Some B) (Some (action_string a)) now2 fresh2).1 in
      length (active_matches (matches db2) A B) = 1%nat).
Proof.
  assert (∀ db A B a now fresh,
      is_like a → A ≠ B → B ≠ "" →
      is_Some (findById (users db) A) → is_Some (findById (users db) B) →
      is_Some (reciprocalSwipe (swipes db) A B) →
      (length (active_matches (matches db) A B) ≤ 1)%nat →
      let db' := (swipe db A (Some B) (Some (action_string a)) now fresh).1 in
      length (active_matches (matches db') A B) = 1%nat ∧
      length (active_matches (matches db') B A) = 1%nat ∧
      (active_matches (matches db) A B = [] →
       ∃ na nb,
         created (notifications db) (notifications db') = [na; nb] ∧
         notified [na; nb] n_match A B = [na] ∧
         notified [na; nb] n_match B A = [nb]) ∧
      (active_matches (matches db) A B ≠ [] →
       matches db' = matches db ∧ notifications db' = notifications db)) as Hmain;
    [|split_and!; [exact Hmain|apply swipe_keeps_matches_unique|]].
  2:{ intros db A B a b now1 fresh1 now2 fresh2 Ha Hb Hne HA HB HuA HuB Hone db1 db2.
      subst db2. apply Hmain; try done.
      - subst db1. by rewrite swipe_users.
      - subst db1. by rewrite swipe_users.
      - subst db1. rewrite (swipe_swipes_accepted db B A b) by done.
        by apply record_swipe_present.
      - subst db1. apply swipe_keeps_matches_unique. done. }
  intros db A B a now fresh Hlike Hne HB [au Hau] [tu Htu] Hrec Hone db'.
  subst db'. rewrite (swipe_mutual db A B a now fresh tu au) by done.
  rewrite <- (active_matches_sym _ A B).
  destruct (existingMatch (matches db) A B) as [m|] eqn:Hex; simpl.
  - assert (active_matches (matches db) A B ≠ []) as Hsome.
    { intros E. apply existingMatch_None in E. congruence. }
    split_and!; [| |done|done];
      destruct (active_matches (matches db) A B) as [|m1 [|m2 l]];
      simpl in *; done || lia.
  - apply existingMatch_None in Hex.
    assert (length (active_matches
              (matches db ++
                 [Match.mk fresh A B active now now (Match.mkLast None None now)])
              A B) = 1%nat) as Hlen.
    { unfold active_matches in *. rewrite filter_app, Hex. simpl.
      rewrite filter_cons_True; [done|]. unfold active_between. simpl. auto. }
    split_and!; [done|done| |done].
    intros _. eexists _, _. unfold created. rewrite drop_app_length.
    split; [done|]. unfold notified, match_notification.
    split.
    + rewrite filter_cons_True by done. rewrite filter_cons_False; [done|].
      simpl. intros (_ & ? & _). done.
    + rewrite filter_cons_False; [|simpl; intros (_ & ? & _); done].
      by rewrite filter_cons_True.
Qed.

Lemma mutual_like_creates_one_match_witness :
  length (active_matches (matches matched_db) "a" "b") = 1%nat.
Proof.
  refine (proj1 (proj1 mutual_like_creates_one_match liked_db "a" "b" like 2 "m2"
                   _ _ _ _ _ _ _)).
  - by left.
  - done.
  - done.
  - by eexists.
  - by eexists.
  - by eexists.
  - simpl. lia.
Defined.

(** Asha likes Bela once more after they have matched: Bela has liked
    Asha already, one active match exists afterwards, and the call creates
    no notification at all, so none of type match for either of them.
    And when the collection holds two active records of the pair, a like of
    Asha, whom Bela has liked already, leaves the two of them. *)
Lemma mutual_like_again_counterexample :
  (is_Some (reciprocalSwipe (swipes matched_db) "a" "b") ∧
   length (active_matches
             (matches (swipe matched_db "a" (Some "b") (Some "like") 3 "m3").1)
             "a" "b") = 1%nat ∧
   ¬ (length (notified
                (created (notifications matched_db)
                   (notifications
                      (swipe matched_db "a" (Some "b") (Some "like") 3 "m3").1))
                n_match "a" "b") = 1%nat ∧
      length (notified
                (created (notifications matched_db)
                   (notifications
                      (swipe matched_db "a" (Some "b") (Some "like") 3 "m3").1))
                n_match "b" "a") = 1%nat)) ∧
  (is_Some (reciprocalSwipe (swipes duplicated_db) "a" "b") ∧
   length (active_matches
             (matches (swipe duplicated_db "a" (Some "b") (Some "like") 3 "m3").1)
             "a" "b") ≠ 1%nat).
Proof.
  split; split_and!.
  - by eexists.
  - reflexivity.
  - intros [H _]. vm_compute in H. discriminate H.
  - by eexists.
  - vm_compute. discriminate.
Qed.

Lemma swipe_last_write_wins_witness :
  ∃ s2, swipes_of
          (swipes (swipe (swipe fresh_db "a" (Some "b") (Some "pass") 1 "m1").1
                     "a" (Some "b") (Some "like") 2 "m2").1) "a" "b" = [s2] ∧
        Swipe.action s2 = like.
Proof.
  refine (proj2 (proj1 swipe_last_write_wins fresh_db "a" "b" 1 "m1" 2 "m2" _ _ _ _)).
  - done.
  - done.
  - by eexists.
  - simpl. lia.
Defined.

End MatchesFacts.

Module ChatFacts.
Import Chat ListFacts Samples.

Lemma findMatch_outsider ms matchId userId :
  (∀ m, m ∈ ms → Match._id m = matchId →
        Match.user1 m ≠ userId ∧ Match.user2 m ≠ userId) →
  findMatch ms matchId userId = None.
Proof.
  intros Hout. apply find_snd_None, Forall_forall.
  intros m Hm [Hid [H1|H2]]; destruct (Hout m Hm Hid); done.
Qed.

(** White space for [trim] is more than the blank: a content of a
    no-break space (U+00A0) and a tab is blank. *)
Lemma blank_no_break_space :
  blank (Some (String (Ascii.ascii_of_nat 160) (String (Ascii.ascii_of_nat 9) "")))
  = true.
Proof. reflexivity. Qed.

(** C6, as the handler has it: a caller who passed [auth] and is neither
    [user1] nor [user2] of the match with the given id gets no message
    created and leaves the whole store, so the match record with its
    cached last message and last activity, unchanged; the answer carries
    no data. Its status is 404 when the submitted content is a string that
    is not blank; it is 400 when the content is absent, falsy or a blank
    string, and 500 when it is a truthy value that is no string, as the
    content is checked before the match is looked up. *)
Theorem outsider_cannot_send db b userId matchId content type replyTo now fresh :
  auth (users db) b = inr userId →
  (∀ m, m ∈ matches db → Match._id m = matchId →
        Match.user1 m ≠ userId ∧ Match.user2 m ≠ userId) →
  let r := send_message_route db b matchId content type replyTo now fresh in
  r.1 = db ∧
  data r.2 = None ∧
  status r.2 = match content with
               | Text text => if blank (Some text) then 400 else 404
               | NotText true => 500
               | Absent | NotText false => 400
               end.
Proof.
  intros Hauth Hout r. subst r. unfold send_message_route. rewrite Hauth.
  unfold send_message. destruct content as [|text|[|]]; try done.
  destruct (blank (Some text)); [done|].
  by rewrite (findMatch_outsider _ _ _ Hout).
Qed.

Lemma outsider_cannot_send_witness :
  let r := send_message_route chat_db (SignedToken (generateToken "c" 0)) "m1"
             (Text "hello") None None 5 "msg1" in
  r.1 = chat_db ∧ data r.2 = None ∧ status r.2 = 404.
Proof.
  apply (outsider_cannot_send chat_db (SignedToken (generateToken "c" 0)) "c" "m1"
           (Text "hello") None None 5 "msg1").
  - reflexivity.
  - intros m Hm%list_elem_of_singleton _. by subst.
Defined.

(** Chitra is no participant of the match between Asha and Bela; with a
    content of blanks her request is answered 400, not 404. *)
Lemma outsider_blank_content_counterexample :
  auth (users chat_db) (SignedToken (generateToken "c" 0)) = inr "c" ∧
  (∀ m, m ∈ matches chat_db → Match._id m = "m1" →
        Match.user1 m ≠ "c" ∧ Match.user2 m ≠ "c") ∧
  status (send_message_route chat_db (SignedToken (generateToken "c" 0)) "m1"
            (Text "  ") None None 5 "msg1").2 ≠ 404.
Proof.
  split_and!.
  - reflexivity.
  - intros m Hm%list_elem_of_singleton _. by subst.
  - vm_compute. discriminate.
Qed.

End ChatFacts.

Module ConfessionsFacts.
Import Confessions ListFacts Samples.
Local Open Scope list_scope.

Lemma parse_reaction_string t : parse_reaction (reaction_string t) = Some t.
Proof. by destruct t. Qed.

Lemma reaction_eta r : Reaction.mk (Reaction.userId r) (Reaction.type r) = r.
Proof. by destruct r. Qed.

Lemma of_user_app u l1 l2 : of_user u (l1 ++ l2) = of_user u l1 ++ of_user u l2.
Proof. apply filter_app. Qed.

Lemma count_app t l1 l2 : count (l1 ++ l2) t = (count l1 t + count l2 t)%nat.
Proof. unfold count. by rewrite filter_app, length_app. Qed.

Lemma of_user_others u rs : of_user u (filter (λ r, Reaction.userId r ≠ u) rs) = [].
Proof.
  apply filter_none, Forall_forall. by intros r [Hr _]%list_elem_of_filter.
Qed.

Lemma of_user_other_filter u v rs :
  v ≠ u → of_user v (filter (λ r, Reaction.userId r ≠ u) rs) = of_user v rs.
Proof.
  intros Hne. unfold of_user. rewrite list_filter_filter.
  apply list_filter_iff. intros r. split; [by intros [? _]|].
  intros Hr. split; [done|congruence].
Qed.

(** The two branches of the toggle. *)
Lemma react_reactions_cases rs u t :
  (Forall (λ r, ¬ (Reaction.userId r = u ∧ Reaction.type r = t)) rs ∧
   react_reactions rs u t
     = filter (λ r, Reaction.userId r ≠ u) rs ++ [Reaction.mk u t]) ∨
  (∃ l1 l2, rs = l1 ++ Reaction.mk u t :: l2 ∧
            Forall (λ r, ¬ (Reaction.userId r = u ∧ Reaction.type r = t)) l1 ∧
            react_reactions rs u t = l1 ++ l2).
Proof.
  unfold react_reactions. destruct (list_find _ rs) as [[i r]|] eqn:E.
  - right. apply list_find_split in E as (l1 & l2 & -> & Hlen & Hl1 & [Hu Ht] & _).
    exists l1, l2. rewrite <- Hlen, delete_middle.
    split_and!; [|done..]. by rewrite <- (reaction_eta r), Hu, Ht.
  - left. split; [|done]. by apply list_find_None in E.
Qed.

(** Toggle off: the user held [t] and nothing else. *)
Lemma react_off rs u t :
  of_user u rs = [Reaction.mk u t] →
  of_user u (react_reactions rs u t) = [] ∧
  (count (react_reactions rs u t) t + 1 = count rs t)%nat.
Proof.
  intros Hheld.
  destruct (react_reactions_cases rs u t) as [[Hnone _]|(l1 & l2 & -> & Hl1 & ->)].
  - exfalso. assert (Reaction.mk u t ∈ of_user u rs) as Hin
      by (rewrite Hheld; apply list_elem_of_here).
    apply list_elem_of_filter in Hin as [_ Hin].
    by apply (proj1 (Forall_forall _ _) Hnone _ Hin).
  - rewrite of_user_app in Hheld |- *. unfold of_user in Hheld at 2.
    rewrite filter_cons_True in Hheld by done.
    fold (of_user u l2) in Hheld.
    destruct (of_user u l1) as [|x l]; simpl in Hheld.
    + injection Hheld as ->. split; [done|].
      rewrite !count_app. unfold count at 4. rewrite filter_cons_True by done.
      simpl. fold (count l2 t). lia.
    + injection Hheld as _ Hl. by destruct l.
Qed.

(** Toggle on: the user held no reaction of type [t]. *)
Lemma react_on rs u t :
  Forall (λ r, ¬ (Reaction.userId r = u ∧ Reaction.type r = t)) rs →
  react_reactions rs u t
    = filter (λ r, Reaction.userId r ≠ u) rs ++ [Reaction.mk u t] ∧
  of_user u (react_reactions rs u t) = [Reaction.mk u t].
Proof.
  intros Hnone.
  destruct (react_reactions_cases rs u t) as [[_ E]|(l1 & l2 & -> & Hl1 & _)].
  - split; [done|]. rewrite E, of_user_app, of_user_others. simpl.
    unfold of_user. by rewrite filter_cons_True.
  - exfalso. apply Forall_app in Hnone as [_ Hn].
    apply Forall_cons in Hn as [Hn _]. by apply Hn.
Qed.

(** Reacting twice with [t] from a state without [t]: back to the other
    users' reactions. *)
Lemma react_on_off rs u t :
  Forall (λ r, ¬ (Reaction.userId r = u ∧ Reaction.type r = t)) rs →
  react_reactions (react_reactions rs u t) u t
    = filter (λ r, Reaction.userId r ≠ u) rs.
Proof.
  intros Hnone. destruct (react_on rs u t Hnone) as [-> _].
  destruct (react_reactions_cases
              (filter (λ r, Reaction.userId r ≠ u) rs ++ [Reaction.mk u t]) u t)
    as [[Hn _]|(l1 & l2 & E & Hl1 & ->)].
  - exfalso. apply Forall_app in Hn as [_ Hn].
    apply Forall_cons in Hn as [Hn _]. by apply Hn.
  - destruct l2 as [|y l2 _] using rev_ind.
    + apply app_inj_tail in E as [<- _]. by rewrite app_nil_r.
    + exfalso. rewrite app_comm_cons, app_assoc in E.
      apply app_inj_tail in E as [E <-].
      assert (Reaction.mk u t ∈ filter (λ r, Reaction.userId r ≠ u) rs) as Hin.
      { rewrite E. apply elem_of_app. right. apply list_elem_of_here. }
      by apply list_elem_of_filter in Hin as [Hin _].
Qed.

Lemma count_others rs u t :
  Forall (λ r, ¬ (Reaction.userId r = u ∧ Reaction.type r = t)) rs →
  count (filter (λ r, Reaction.userId r ≠ u) rs) t = count rs t.
Proof.
  intros Hnone. unfold count. f_equal. rewrite list_filter_filter.
  induction Hnone as [|r rs Hr _ IH]; [done|].
  rewrite !filter_cons, IH. destruct (decide (Reaction.type r = t)) as [Ht|Ht].
  - rewrite decide_True; [done|]. split; [done|]. intros Hu. by apply Hr.
  - rewrite decide_False; [done|]. by intros [? _].
Qed.

Lemma react_keeps_one rs u t v :
  (length (of_user v rs) ≤ 1)%nat →
  (length (of_user v (react_reactions rs u t)) ≤ 1)%nat.
Proof.
  intros Hone.
  destruct (react_reactions_cases rs u t) as [[_ ->]|(l1 & l2 & -> & _ & ->)].
  - rewrite of_user_app, length_app. destruct (decide (v = u)) as [->|Hne].
    + rewrite of_user_others. unfold of_user. rewrite filter_cons_True by done.
      simpl. lia.
    + rewrite of_user_other_filter by done. unfold of_user at 2.
      rewrite filter_cons_False by (simpl; congruence). simpl. lia.
  - rewrite of_user_app, length_app in Hone |- *.
    unfold of_user in Hone at 2. rewrite filter_cons in Hone.
    fold (of_user v l2) in Hone. case_decide; simpl in Hone; lia.
Qed.

(** The handler stores [react_reactions] of the confession's reactions. *)
Lemma react_stored db u id t i c :
  findConfession (confessions db) id = Some (i, c) →
  findConfession (confessions (react db u id (Some (reaction_string t))).1) id
    = Some (i, set_reactions c (react_reactions (Confession.reactions c) u t)) ∧
  data (react db u id (Some (reaction_string t))).2
    = Some (mkReactData
              (reactionCounts (react_reactions (Confession.reactions c) u t))
              (bool_decide
                 (list_find (λ r, Reaction.userId r = u ∧ Reaction.type r = t)
                    (Confession.reactions c) = None))).
Proof.
  intros Hc. unfold react. simpl. rewrite parse_reaction_string, Hc. simpl.
  split; [|done]. unfold findConfession in *.
  apply (list_find_insert_same _ _ _ c); [done|]. simpl.
  by apply list_find_Some in Hc as (_ & ? & _).
Qed.

Lemma react_reactions_of db u id t :
  is_Some (findConfession (confessions db) id) →
  reactions_of (react db u id (Some (reaction_string t))).1 id
    = react_reactions (reactions_of db id) u t ∧
  is_Some (findConfession
             (confessions (react db u id (Some (reaction_string t))).1) id).
Proof.
  intros [[i c] Hc]. destruct (react_stored db u id t i c Hc) as [Hs _].
  unfold reactions_of. rewrite Hs, Hc. split; [done|by eexists].
Qed.

Lemma not_held_type rs u t :
  of_user u rs = [] ∨ (∃ y, y ≠ t ∧ of_user u rs = [Reaction.mk u y]) →
  Forall (λ r, ¬ (Reaction.userId r = u ∧ Reaction.type r = t)) rs.
Proof.
  intros Hheld. apply Forall_forall. intros r Hr [Hu Ht].
  assert (r ∈ of_user u rs) as Hin by by apply list_elem_of_filter.
  destruct Hheld as [E|(y & Hy & E)]; rewrite E in Hin.
  - by apply not_elem_of_nil in Hin.
  - apply list_elem_of_singleton in Hin. subst r. simpl in Ht. congruence.
Qed.

(** C2: reacting with the type the user holds removes the reaction (the
    user holds none and the counter of that type is one less, so it is
    back at its value before the user reacted); reacting with a type while
    holding another one, or none, leaves the user with exactly one
    reaction, of the new type, and reacting with it again gives the counter
    its earlier value; a user with at most one reaction on a confession has
    at most one after any react call. *)
Theorem reaction_toggle db id u t :
  is_Some (findConfession (confessions db) id) →
  let db1 := (react db u id (Some (reaction_string t))).1 in
  let db2 := (react db1 u id (Some (reaction_string t))).1 in
  (held db id u = [Reaction.mk u t] →
     held db1 id u = [] ∧
     (count (reactions_of db1 id) t + 1 = count (reactions_of db id) t)%nat) ∧
  (held db id u = [] ∨ (∃ y, y ≠ t ∧ held db id u = [Reaction.mk u y]) →
     held db1 id u = [Reaction.mk u t] ∧
     held db2 id u = [] ∧
     count (reactions_of db2 id) t = count (reactions_of db id) t) ∧
  (∀ v, (length (held db id v) ≤ 1)%nat → (length (held db1 id v) ≤ 1)%nat) ∧
  status (react db u id (Some (reaction_string t))).2 = 200 ∧
  (rd_reactionCounts <$> data (react db u id (Some (reaction_string t))).2)
    = Some (reactionCounts (reactions_of db1 id)).
Proof.
  intros Hex db1 db2.
  destruct (react_reactions_of db u id t Hex) as [E1 Hex1].
  destruct (react_reactions_of db1 u id t Hex1) as [E2 _].
  fold db1 in E1. fold db2 in E2. unfold held. rewrite E2, E1.
  split_and!.
  - apply react_off.
  - intros Hheld. pose proof (not_held_type _ _ _ Hheld) as Hnone.
    destruct (react_on _ u t Hnone) as [_ Hon]. split; [exact Hon|].
    rewrite react_on_off by done. split.
    + apply of_user_others.
    + by apply count_others.
  - intros v. apply react_keeps_one.
  - destruct Hex as [[i c] Hc]. unfold react. simpl.
    by rewrite parse_reaction_string, Hc.
  - destruct Hex as [[i c] Hc].
    destruct (react_stored db u id t i c Hc) as [_ ->]. simpl.
    unfold reactions_of. by rewrite Hc.
Qed.

Lemma reaction_toggle_witness :
  held (react (board_db [Reaction.mk "b" heart; Reaction.mk "a" heart]) "a" "c1"
          (Some "heart")).1 "c1" "a" = [].
Proof.
  refine (proj1 (proj1 (reaction_toggle
                          (board_db [Reaction.mk "b" heart; Reaction.mk "a" heart])
                          "c1" "a" heart _) _)).
  - by eexists.
  - reflexivity.
Defined.

Lemma find_page_sound cs co ca limit skip found :
  find_page cs co ca limit skip = Some found →
  Forall (λ c, c ∈ cs ∧ matches_query co ca c) found.
Proof.
  unfold find_page. case_decide; [done|]. intros [= <-].
  assert (Forall (λ c, c ∈ cs ∧ matches_query co ca c)
            (merge_sort newer (filter (matches_query co ca) cs))) as Hall.
  { rewrite merge_sort_Permutation. apply Forall_forall.
    intros c [Hq Hin]%list_elem_of_filter. done. }
  case_decide; [|apply Forall_take]; by apply Forall_drop.
Qed.

(** C5: every confession that the list endpoint returns to a caller is a
    stored confession of the caller's college, and a caller who asks for a
    single confession of another college gets status 403 and no
    confession data. *)
Theorem confessions_are_college_scoped db userId currentUser :
  findById (users db) userId = Some currentUser →
  (∀ category page limit now items more,
      data (list_confessions db userId category page limit now)
        = Some (mkListData items more) →
      ∃ found,
        items = format now userId <$> found ∧
        Forall (λ c, c ∈ confessions db ∧
                     Confession.college c = college currentUser) found) ∧
  (∀ confessionId i confession now,
      findConfession (confessions db) confessionId = Some (i, confession) →
      Confession.college confession ≠ college currentUser →
      get_confession db userId confessionId now = fail 403 "Access denied").
Proof.
  intros Hu. split.
  - intros category page limit now items more. unfold list_confessions.
    rewrite Hu.
    destruct (find_page _ _ _ _ _) as [found|] eqn:Hf; [|done].
    intros [= <- <-]. exists found. split; [done|].
    apply find_page_sound in Hf. eapply Forall_impl; [exact Hf|].
    by intros c [Hin [Hc _]].
  - intros confessionId i confession now Hc Hne. unfold get_confession.
    rewrite Hu, Hc. by rewrite decide_True.
Qed.

Lemma confessions_are_college_scoped_witness :
  get_confession (board_db []) "x" "c1" 20 = fail 403 "Access denied".
Proof.
  refine (proj2 (confessions_are_college_scoped (board_db []) "x"
                   (mkUser "x" "Xena" "xena@xyz.edu" "h" "XYZ" true
                      None None None None []) _)
            "c1" 0%nat (sample_confession []) 20 _ _).
  - reflexivity.
  - reflexivity.
  - simpl. discriminate.
Defined.

End ConfessionsFacts.

Module PhotosFacts.
Import Photos ListFacts Samples.
Local Open Scope list_scope.

(** The tokens that the server signs carry [userId], [iat] and [exp]; they
    have no property [id]. *)
Lemma generateToken_has_no_id userId iat :
  prop_string (generateToken userId iat) "id" = None ∧
  prop_string (generateToken userId iat) "userId" = Some userId.
Proof. split; reflexivity. Qed.

(** With [req.user.id] undefined the toggle always takes the like branch. *)
Lemma toggle_undefined photo :
  likeCount (toggle photo None).1 = likeCount photo + 1 ∧
  (toggle photo None).2 = true.
Proof.
  unfold toggle.
  rewrite (bool_decide_eq_false_2
             (Exists _ (filter (λ userId, userId ≠ None) (likes photo)))).
  - simpl. split; [done|]. apply bool_decide_eq_true_2, elem_of_app.
    right. apply list_elem_of_here.
  - intros (x & _ & [y Hy] & Hx)%Exists_exists. congruence.
Qed.

Lemma cleaned_idem (ls : list (option ObjectId)) :
  filter (λ userId, userId ≠ None) (filter (λ userId, userId ≠ None) ls)
    = filter (λ userId, userId ≠ None) ls.
Proof.
  rewrite list_filter_filter. apply list_filter_iff. intros x. tauto.
Qed.

(** Had the handler been given the caller's id, two toggles would restore
    the counter and report the photo as not liked. *)
Lemma toggle_twice_with_id photo c :
  Some c ∉ likes photo → (0 ≤ likeCount photo)%Z →
  let p1 := (toggle photo (Some c)).1 in
  likeCount (toggle p1 (Some c)).1 = likeCount photo ∧
  (toggle p1 (Some c)).2 = false ∧
  likes (toggle p1 (Some c)).1 = filter (λ userId, userId ≠ None) (likes photo).
Proof.
  intros Hnot Hpos p1.
  set (cleaned := filter (λ userId, userId ≠ None) (likes photo)).
  assert (Some c ∉ cleaned) as Hc.
  { intros [_ Hin]%list_elem_of_filter. done. }
  assert ((toggle photo (Some c)).1
          = Photos.set_likes photo (cleaned ++ [Some c]) (likeCount photo + 1)) as E1.
  { unfold toggle. fold cleaned. rewrite bool_decide_eq_false_2; [done|].
    intros (x & Hx & _ & ->)%Exists_exists. done. }
  subst p1. rewrite E1. unfold toggle. simpl.
  assert (filter (λ userId, userId ≠ None) (cleaned ++ [Some c])
          = cleaned ++ [Some c]) as ->.
  { rewrite filter_app. unfold cleaned at 1. rewrite cleaned_idem.
    by rewrite filter_cons_True. }
  rewrite bool_decide_eq_true_2.
  2:{ apply Exists_app. right. apply Exists_cons_hd. split; [by eexists|done]. }
  simpl.
  assert (filter (λ userId, userId ≠ None ∧ userId ≠ Some c) (cleaned ++ [Some c])
          = cleaned) as ->.
  { rewrite filter_app, filter_cons_False by (intros [_ ?]; done).
    rewrite filter_nil, app_nil_r. apply filter_all, Forall_forall.
    intros x Hx. split; [|by intros ->].
    by apply list_elem_of_filter in Hx as [? _]. }
  split_and!; [lia| |done]. by apply bool_decide_eq_false_2.
Qed.

(** Every accepted like request that carries a token of the server adds
    one to the counter of the photo and reports it as liked. *)
Lemma like_with_token us userId iat purl owner i photo :
  purl ≠ "" → findOwner us purl = Some owner →
  list_find (λ p, url p = purl) (photos owner) = Some (i, photo) →
  data (like_route us (SignedToken (generateToken userId iat)) (Some purl)).2
    = Some (mkLikeData (likeCount photo + 1) true).
Proof.
  intros Hne Howner Hphoto. unfold like_route. cbn [Confessions.auth].
  unfold like_photo.
  change (prop_string (generateToken userId iat) "id") with (@None ObjectId).
  change (default "" (Some purl)) with purl.
  cbn [falsy]. rewrite bool_decide_eq_false_2 by done.
  rewrite Howner, Hphoto.
  destruct (toggle_undefined photo) as [Hcount Hliked].
  destruct (toggle photo None) as [photo' liked]. simpl in *.
  by rewrite Hcount, Hliked.
Qed.

(** C4 at a concrete request: Asha, with the token the server gave her,
    toggles the like of Bela's photo twice. The photo had no like and a
    counter of 0; the second answer says [isLiked: true] with a counter
    of 2, the stored counter is 2 and the stored liker list holds a null
    entry and not Asha, where two toggles should have given
    [isLiked: false] and the counter 0. *)
Theorem photo_like_twice_with_token :
  let token := SignedToken (generateToken "a" 0) in
  let r1 := like_route [asha; bela] token (Some "https://img/p1") in
  let r2 := like_route r1.1 token (Some "https://img/p1") in
  data r1.2 = Some (mkLikeData 1 true) ∧
  data r2.2 = Some (mkLikeData 2 true) ∧
  photo_by_url r2.1 "https://img/p1"
    = Some (mkPhoto "https://img/p1" "p1" true [None] 2) ∧
  ((λ p, isLikedByCurrentUser p "a") <$> photo_by_url r2.1 "https://img/p1")
    = Some false.
Proof. vm_compute. done. Qed.

End PhotosFacts.

Module MoreListFacts.
Local Open Scope list_scope.

Section Find.
Context {A : Type} (P : A → Prop) `{!∀ x, Decision (P x)}.

Lemma find_snd_app_r (l1 l2 : list A) :
  Forall (λ x, ¬ P x) l1 →
  snd <$> list_find P (l1 ++ l2) = snd <$> list_find P l2.
Proof.
  intros Hl1. apply (proj2 (list_find_None P l1)) in Hl1.
  rewrite (list_find_app_r P l1 l2 Hl1). by destruct (list_find P l2) as [[i x]|].
Qed.

Lemma find_snd_app_l (l1 l2 : list A) x :
  snd <$> list_find P l1 = Some x → snd <$> list_find P (l1 ++ l2) = Some x.
Proof.
  destruct (list_find P l1) as [[i y]|] eqn:E; intros; simplify_eq/=.
  by rewrite (list_find_app_l P l1 l2 i x E).
Qed.

(** When every match of [P] in the list is [x] and there is one, the first
    match is [x]. *)
Lemma find_snd_unique (l : list A) x :
  Exists P l → (∀ y, y ∈ l → P y → y = x) → snd <$> list_find P l = Some x.
Proof.
  intros Hex Hall.
  apply (proj2 (ListFacts.find_is_Some_Exists P l)) in Hex as [[i y] Hf].
  rewrite Hf. simpl. f_equal. apply list_find_Some in Hf as (Hl & HP & _).
  apply Hall; [by eapply list_elem_of_lookup_2|done].
Qed.

Lemma filter_ext_elem (Q : A → Prop) `{!∀ x, Decision (Q x)} (l : list A) :
  (∀ x, x ∈ l → (P x ↔ Q x)) → filter P l = filter Q l.
Proof.
  induction l as [|x l IH]; intros Hext; [done|].
  rewrite !filter_cons. rewrite IH by (intros y Hy; apply Hext; by right).
  pose proof (Hext x (list_elem_of_here _ _)) as Hx.
  destruct (decide (P x)) as [HP|HP], (decide (Q x)) as [HQ|HQ]; try done;
    exfalso; tauto.
Qed.
End Find.

End MoreListFacts.

Module AccountsFacts.
Import Auth Accounts ListFacts StoreFacts MoreListFacts Samples MoreSamples.
Import Stdlib.Strings.Ascii.
Local Open Scope list_scope.
Local Open Scope Z_scope.

Lemma lower_unit_idem a : lower_unit (lower_unit a) = lower_unit a.
Proof. destruct a as [[] [] [] [] [] [] [] []]; reflexivity. Qed.

Lemma toLowerCase_idem s : toLowerCase (toLowerCase s) = toLowerCase s.
Proof. induction s as [|a s IH]; simpl; [done|]. by rewrite lower_unit_idem, IH. Qed.

Lemma lower_unit_at a : lower_unit a = "@"%char ↔ a = "@"%char.
Proof.
  split; [|by intros ->].
  intros H. destruct a as [[] [] [] [] [] [] [] []]; vm_compute in H;
    try discriminate H; reflexivity.
Qed.

Lemma after_at_lower s :
  after "@"%char (toLowerCase s) = toLowerCase <$> after "@"%char s.
Proof.
  induction s as [|a s IH]; simpl; [done|].
  destruct (decide (a = "@"%char)) as [->|Ha].
  - by rewrite decide_True.
  - rewrite decide_False; [done|]. by rewrite lower_unit_at.
Qed.

Lemma append_cons a s t : String.append (String a s) t = String a (String.append s t).
Proof. reflexivity. Qed.

Lemma append_assoc s t u :
  String.append s (String.append t u) = String.append (String.append s t) u.
Proof.
  induction s as [|a s IH]; [done|]. by rewrite !append_cons, IH.
Qed.

Lemma toUpperCase_app s1 s2 :
  toUpperCase (String.append s1 s2)
  = String.append (toUpperCase s1) (toUpperCase s2).
Proof.
  induction s1 as [|a s1 IH]; [done|].
  rewrite append_cons. simpl. by rewrite IH, append_assoc.
Qed.

Lemma upper_unit_idem a : toUpperCase (upper_unit a) = upper_unit a.
Proof. destruct a as [[] [] [] [] [] [] [] []]; reflexivity. Qed.

Lemma toUpperCase_idem s : toUpperCase (toUpperCase s) = toUpperCase s.
Proof.
  induction s as [|a s IH]; simpl; [done|].
  by rewrite toUpperCase_app, upper_unit_idem, IH.
Qed.

Lemma upper_unit_dot a : a ≠ "."%char → after "."%char (upper_unit a) = None.
Proof.
  intros H. destruct a as [[] [] [] [] [] [] [] []]; try reflexivity. done.
Qed.

Lemma upper_unit_at a : a ≠ "@"%char → after "@"%char (upper_unit a) = None.
Proof.
  intros H. destruct a as [[] [] [] [] [] [] [] []]; try reflexivity. done.
Qed.

Lemma after_app_None c s1 s2 :
  after c s1 = None → after c (String.append s1 s2) = after c s2.
Proof.
  induction s1 as [|a s1 IH]; [done|]. rewrite append_cons. simpl.
  case_decide; [done|]. apply IH.
Qed.

Lemma after_upper c s :
  (∀ a, a ≠ c → after c (upper_unit a) = None) →
  after c s = None → after c (toUpperCase s) = None.
Proof.
  intros Hc. induction s as [|a s IH]; simpl; [done|].
  destruct (decide (a = c)) as [->|Ha]; [done|].
  intros Hs. rewrite after_app_None by by apply Hc. by apply IH.
Qed.

Lemma after_split0_same c s : after c (split0 c s) = None.
Proof.
  induction s as [|a s IH]; simpl; [done|].
  destruct (decide (a = c)) as [->|Ha]; [done|]. simpl. by rewrite decide_False.
Qed.

Lemma after_split0_prefix c d s : after c s = None → after c (split0 d s) = None.
Proof.
  induction s as [|a s IH]; simpl; [done|].
  destruct (decide (a = c)) as [->|Ha]; [done|]. intros Hs.
  destruct (decide (a = d)); [done|]. simpl. rewrite decide_False by done. auto.
Qed.

(** The college that registration derives from an address: the first
    label of the domain in upper case; it holds no dot and no at-sign and
    is its own upper case. *)
Lemma collegeName_shape e c :
  collegeName e = Some c →
  after "."%char c = None ∧ after "@"%char c = None ∧ toUpperCase c = c.
Proof.
  unfold collegeName, split1. destruct (after "@"%char e) as [rest|]; [|done].
  simpl. intros [= <-]. split_and!.
  - apply after_upper; [apply upper_unit_dot|]. apply after_split0_same.
  - apply after_upper; [apply upper_unit_at|].
    apply after_split0_prefix, after_split0_same.
  - apply toUpperCase_idem.
Qed.

Section Bcrypt.
Variable bcrypt_hash : string → string.
Variable bcrypt_compare : string → string → bool.

Local Abbreviation new_account := (Accounts.new_account bcrypt_hash).

Lemma register_created us n e p sp cp s c now t f :
  status (register bcrypt_hash us n e p sp cp s c now t f).2 = 201 →
  ∃ nm em pw col,
    n = Some nm ∧ e = Some em ∧ p = Some pw ∧
    collegeName em = Some col ∧ col ≠ "" ∧ trim nm ≠ "" ∧
    (6 ≤ String.length pw)%nat ∧
    findByEmail us (toLowerCase em) = None ∧
    (register bcrypt_hash us n e p sp cp s c now t f).1
      = (us ++ [new_account nm em pw col now t f],
         [mkMail (toLowerCase em) (trim nm) t]).
Proof.
  unfold register.
  destruct (falsy n || falsy e || falsy p) eqn:Hfalsy; [done|].
  destruct n as [nm|]; [|done].
  destruct e as [em|]; [|by rewrite orb_true_r in Hfalsy].
  destruct p as [pw|]; [|by rewrite orb_true_r in Hfalsy].
  destruct (negb sp || negb cp); [done|]. cbn [default from_option id].
  destruct (collegeName em) as [col|] eqn:Hcol; [|done].
  case_decide as Hlen; [done|].
  destruct (findByEmail us (toLowerCase em)) eqn:Hfind; [done|].
  destruct s, c; try done.
  case_decide as Hreq; [done|]. intros _.
  exists nm, em, pw, col. split_and!; try done.
  - intros ->. apply Hreq. by right.
  - intros E. apply Hreq. by left.
  - lia.
Qed.

Lemma register_rejected us n e p sp cp s c now t f :
  status (register bcrypt_hash us n e p sp cp s c now t f).2 ≠ 201 →
  (register bcrypt_hash us n e p sp cp s c now t f).1 = (us, []).
Proof.
  unfold register. repeat case_match; simpl; try done.
Qed.

Lemma toLowerCase_nonempty s : s ≠ "" → toLowerCase s ≠ "".
Proof. by destruct s. Qed.

Lemma collegeName_lower em em' :
  toLowerCase em' = toLowerCase em →
  is_Some (collegeName em) → is_Some (collegeName em').
Proof.
  unfold collegeName, split1. rewrite !fmap_is_Some. intros Hlow Hsome.
  assert (is_Some (after "@"%char (toLowerCase em'))) as Hl.
  { rewrite Hlow, after_at_lower. by apply fmap_is_Some. }
  rewrite after_at_lower in Hl. by apply fmap_is_Some in Hl.
Qed.

Lemma findByEmail_new us u :
  findByEmail us (email u) = None → findByEmail (us ++ [u]) (email u) = Some u.
Proof.
  unfold findByEmail. intros Hnone. rewrite find_snd_app_r.
  - simpl. by rewrite decide_True.
  - apply fmap_None in Hnone. by apply list_find_None in Hnone.
Qed.

(** X1: registration keeps the stored addresses pairwise distinct and in
    lower case, and once an address is registered, a further registration
    with the same address in any letter case is answered 400 "User already
    exists" and changes nothing. *)
Theorem register_keeps_emails_distinct us n e p sp cp s c now t f :
  emails_ok us →
  emails_ok (register bcrypt_hash us n e p sp cp s c now t f).1.1 ∧
  (status (register bcrypt_hash us n e p sp cp s c now t f).2 = 201 →
   ∀ n' e' p' s' c' now' t' f',
     toLowerCase <$> e' = toLowerCase <$> e →
     falsy n' = false → (6 ≤ String.length (default "" p'))%nat →
     register bcrypt_hash (register bcrypt_hash us n e p sp cp s c now t f).1.1
         n' e' p' true true s' c' now' t' f'
       = ((register bcrypt_hash us n e p sp cp s c now t f).1.1, [],
          fail 400 "User already exists")).
Proof.
  intros [Hnodup Hlower].
  destruct (decide (status (register bcrypt_hash us n e p sp cp s c now t f).2 = 201))
    as [Hok|Hrej].
  2:{ rewrite (register_rejected _ _ _ _ _ _ _ _ _ _ _ Hrej). simpl.
      split; [done|]. by intros ?. }
  destruct (register_created _ _ _ _ _ _ _ _ _ _ _ Hok)
    as (nm & em & pw & col & -> & -> & -> & Hcol & Hcolne & Hnm & Hlen & Hfind & ->).
  simpl. split.
  - split.
    + rewrite fmap_app. simpl. apply NoDup_app. split_and!; [done| |apply NoDup_singleton].
      intros x Hx ->%list_elem_of_singleton.
      apply list_elem_of_fmap in Hx as (u & Hu & Hin).
      apply fmap_None in Hfind. apply list_find_None in Hfind.
      by apply (proj1 (Forall_forall _ _) Hfind u Hin).
    + apply Forall_app. split; [done|]. apply Forall_singleton. simpl.
      apply toLowerCase_idem.
  - intros _ n' e' p' s' c' now' t' f' He Hn' Hp'.
    destruct e' as [em'|]; [|done]. injection He as He.
    destruct n' as [nm'|]; [|done]. destruct p' as [pw'|]; [|simpl in Hp'; lia].
    assert (em ≠ "") as Hem by (intros ->; done).
    assert (em' ≠ "") as Hem'.
    { intros ->. apply (toLowerCase_nonempty em Hem). by rewrite <- He. }
    assert (pw' ≠ "") as Hpw' by (intros ->; simpl in Hp'; lia).
    destruct (collegeName_lower em em' He) as [col' Hcol']; [by rewrite Hcol|].
    unfold register at 1. simpl in Hn'. simpl.
    rewrite Hn', !bool_decide_eq_false_2 by done. simpl.
    rewrite Hcol'. rewrite decide_False by (simpl in Hp'; lia).
    rewrite He.
    change (toLowerCase em) with (email (new_account nm em pw col now t f)).
    rewrite findByEmail_new; [done|]. exact Hfind.
Qed.

Lemma findByVerificationToken_new us u t now' :
  Forall (λ v, verificationToken v ≠ Some t) us →
  verificationToken u = Some t →
  findByVerificationToken (us ++ [u]) t now'
    = if gt_now (verificationTokenExpires u) now' then Some u else None.
Proof.
  intros Hno Hu. unfold findByVerificationToken. rewrite find_snd_app_r.
  - simpl. destruct (gt_now (verificationTokenExpires u) now') eqn:Hgt.
    + by rewrite decide_True.
    + rewrite decide_False; [done|]. intros [_ ?]. congruence.
  - eapply Forall_impl; [exact Hno|]. by intros v Hv [? _].
Qed.

(** X2: the link of the registration mail works once within 24 hours: with
    the token of a successful registration, held by no other account,
    verify-email before the expiry answers 200 and marks the new account as
    verified, and from the expiry on it answers 400 and changes nothing. *)
Theorem registration_link_verifies us n e p sp cp s c now t f :
  status (register bcrypt_hash us n e p sp cp s c now t f).2 = 201 →
  Forall (λ v, verificationToken v ≠ Some t) us →
  (∀ now', now' < now + 86400000 →
     (verify_email (register bcrypt_hash us n e p sp cp s c now t f).1.1 t now').2
       = (200, EmailVerified) ∧
     ∃ u, findById
            (verify_email (register bcrypt_hash us n e p sp cp s c now t f).1.1
               t now').1 f = Some u ∧
          isVerified u = true ∧ verificationToken u = None) ∧
  (∀ now', now + 86400000 ≤ now' →
     verify_email (register bcrypt_hash us n e p sp cp s c now t f).1.1 t now'
       = ((register bcrypt_hash us n e p sp cp s c now t f).1.1,
          (400, InvalidOrExpiredLink))).
Proof.
  intros Hok Hno.
  destruct (register_created _ _ _ _ _ _ _ _ _ _ _ Hok)
    as (nm & em & pw & col & -> & -> & -> & Hcol & Hcolne & Hnm & Hlen & Hfind & ->).
  simpl. split.
  - intros now' Hnow. unfold verify_email.
    rewrite (findByVerificationToken_new us (new_account nm em pw col now t f) t now' Hno eq_refl). simpl.
    rewrite bool_decide_eq_true_2 by done. simpl. split; [done|].
    exists (set_verified (new_account nm em pw col now t f)). split; [|done].
    apply (findById_save _ _ f); [|done].
    apply (findById_elem _ (new_account nm em pw col now t f)).
    apply elem_of_app. right. apply list_elem_of_here.
  - intros now' Hnow. unfold verify_email.
    rewrite (findByVerificationToken_new us (new_account nm em pw col now t f) t now' Hno eq_refl). simpl.
    by rewrite bool_decide_eq_false_2 by lia.
Qed.

(** X3: the account that a successful registration appends has the
    address in lower case, the name as [name.trim()] gives it (not empty),
    and the hashed password, is not verified and has no photo. When the
    address has no code unit whose upper case lies outside the code units
    of the model, its college is the first label of the address's domain
    in upper case, which is not empty, holds no dot and no at-sign and is
    its own upper case. A failed registration stores nothing and sends no
    mail. *)
Theorem registered_account us n e p sp cp s c now t f :
  (status (register bcrypt_hash us n e p sp cp s c now t f).2 = 201 →
   ∃ nm em pw u,
     n = Some nm ∧ e = Some em ∧ p = Some pw ∧
     (register bcrypt_hash us n e p sp cp s c now t f).1.1 = us ++ [u] ∧
     _id u = f ∧ name u = trim nm ∧ name u ≠ "" ∧ email u = toLowerCase em ∧
     password u = bcrypt_hash pw ∧ isVerified u = false ∧ photos u = [] ∧
     (upper_in_range em = true →
      collegeName em = Some (college u) ∧ college u ≠ "" ∧
      after "."%char (college u) = None ∧ after "@"%char (college u) = None ∧
      toUpperCase (college u) = college u)) ∧
  (status (register bcrypt_hash us n e p sp cp s c now t f).2 ≠ 201 →
   (register bcrypt_hash us n e p sp cp s c now t f).1 = (us, [])).
Proof.
  split; [|apply register_rejected]. intros Hok.
  destruct (register_created _ _ _ _ _ _ _ _ _ _ _ Hok)
    as (nm & em & pw & col & -> & -> & -> & Hcol & Hcolne & Hnm & Hlen & Hfind & ->).
  destruct (collegeName_shape em col Hcol) as (Hdot & Hat & Hup).
  exists nm, em, pw, (new_account nm em pw col now t f). by split_and!.
Qed.

Hypothesis compare_hash : ∀ pw, bcrypt_compare pw (bcrypt_hash pw) = true.

(** X4: every 401 answer of login is the same envelope, whether the
    address is unknown or the password wrong; and after a successful
    registration, login with the same address in any letter case and the
    same password answers 200 with a token that names the new account and
    that the [auth] middleware accepts. *)
Theorem login_after_registration us n e p sp cp s c now t f :
  (∀ us1 us2 e1 e2 p1 p2 now1 now2,
      status (login bcrypt_compare us1 e1 p1 now1) = 401 →
      status (login bcrypt_compare us2 e2 p2 now2) = 401 →
      login bcrypt_compare us1 e1 p1 now1 = login bcrypt_compare us2 e2 p2 now2) ∧
  (status (register bcrypt_hash us n e p sp cp s c now t f).2 = 201 →
   ∀ e' now',
     toLowerCase <$> e' = toLowerCase <$> e →
     ∃ d, login bcrypt_compare
            (register bcrypt_hash us n e p sp cp s c now t f).1.1 e' p now'
          = mkResponse 200 true (Some "Login successful") (Some d) ∧
          token d = generateToken f (now' / 1000) ∧
          ud_id (sd_user d) = f ∧
          auth (register bcrypt_hash us n e p sp cp s c now t f).1.1
            (SignedToken (token d)) = inr f).
Proof.
  split.
  - intros us1 us2 e1 e2 p1 p2 now1 now2. unfold login.
    repeat case_match; simpl; done.
  - intros Hok e' now' He.
    destruct (register_created _ _ _ _ _ _ _ _ _ _ _ Hok)
      as (nm & em & pw & col & -> & -> & -> & Hcol & Hcolne & Hnm & Hlen & Hfind & ->).
    simpl. destruct e' as [em'|]; [|done]. injection He as He.
    assert (em ≠ "") as Hem by (intros ->; done).
    assert (em' ≠ "") as Hem'.
    { intros ->. apply (toLowerCase_nonempty em Hem). by rewrite <- He. }
    assert (pw ≠ "") as Hpw by (intros ->; simpl in Hlen; lia).
    unfold login. simpl. rewrite !bool_decide_eq_false_2 by done. simpl.
    rewrite He.
    change (toLowerCase em) with (email (new_account nm em pw col now t f)).
    rewrite findByEmail_new by exact Hfind. simpl. rewrite compare_hash.
    eexists. split; [done|]. simpl. split_and!; [done|done|].
    unfold auth.
    change (prop_string (generateToken f (now' / 1000)) "userId") with (Some f).
    destruct (findById_elem (us ++ [new_account nm em pw col now t f])
                (new_account nm em pw col now t f)) as [u Hu].
    { apply elem_of_app. right. apply list_elem_of_here. }
    simpl in Hu. by rewrite Hu.
Qed.

Lemma save_elem_inv us u v :
  v ∈ save us u → v = u ∨ (v ∈ us ∧ _id v ≠ _id u).
Proof.
  unfold save. intros (w & -> & Hw)%list_elem_of_fmap.
  case_decide; [by left|by right].
Qed.

Lemma save_elem_new us u w : w ∈ us → _id w = _id u → u ∈ save us u.
Proof.
  intros Hw Hid. unfold save. apply list_elem_of_fmap. exists w.
  by rewrite decide_True.
Qed.

Lemma findByEmail_Some us e u : findByEmail us e = Some u → u ∈ us ∧ email u = e.
Proof. unfold findByEmail. apply (find_snd_Some (λ v, email v = e)). Qed.

(** X5: the link of the forgot-password mail resets the password within one
    hour: after forgot-password for an existing account, with a token held
    by no other account, reset-password with that token and a password of
    at least six characters answers 200 before the expiry, stores the hash
    of the new password and clears the token; from the expiry on it
    answers 400 and changes nothing. *)
Theorem reset_link_resets us e now t user :
  e ≠ "" → findByEmail us (toLowerCase e) = Some user →
  (∀ v, v ∈ us → resetPasswordToken v = Some t → _id v = _id user) →
  (forgot_password us (Some e) now t).1.2 = [mkMail (email user) (name user) t] ∧
  (∀ pw now', (6 ≤ String.length pw)%nat → now' < now + 3600000 →
     status (reset_password bcrypt_hash (forgot_password us (Some e) now t).1.1
               t (Some pw) now').2 = 200 ∧
     ∃ u, findById
            (reset_password bcrypt_hash (forgot_password us (Some e) now t).1.1
               t (Some pw) now').1 (_id user) = Some u ∧
          password u = bcrypt_hash pw ∧ email u = email user ∧
          resetPasswordToken u = None ∧ resetPasswordExpires u = None) ∧
  (∀ pw now', now + 3600000 ≤ now' →
     status (reset_password bcrypt_hash (forgot_password us (Some e) now t).1.1
               t pw now').2 = 400 ∧
     (reset_password bcrypt_hash (forgot_password us (Some e) now t).1.1
        t pw now').1 = (forgot_password us (Some e) now t).1.1).
Proof.
  intros He Hfind Huniq. unfold forgot_password. simpl.
  rewrite bool_decide_eq_false_2 by done. rewrite Hfind. simpl.
  apply findByEmail_Some in Hfind as [Hin _].
  set (user1 := set_reset user (Some t) (Some (now + 3600000))).
  assert (∀ v, v ∈ save us user1 → resetPasswordToken v = Some t → v = user1) as Hall.
  { intros v [->|[Hv Hid]]%save_elem_inv Ht; [done|].
    exfalso. apply Hid. simpl. by apply Huniq. }
  assert (user1 ∈ save us user1) as Hin1 by by eapply save_elem_new.
  split_and!; [done| |].
  - intros pw now' Hlen Hnow. unfold reset_password.
    assert (findByResetToken (save us user1) t now' = Some user1) as ->.
    { apply find_snd_unique.
      - apply Exists_exists. exists user1. split; [done|]. simpl.
        split; [done|]. by apply bool_decide_eq_true_2.
      - intros v Hv [Ht _]. by apply Hall. }
    assert (pw ≠ "") as Hpw by (intros ->; simpl in Hlen; lia).
    simpl. rewrite bool_decide_eq_false_2 by done.
    rewrite bool_decide_eq_false_2 by lia. simpl. split; [done|].
    eexists. split.
    + apply (findById_save _ _ (_id user)); [|done].
      apply (findById_elem _ user1 Hin1).
    + done.
  - intros pw now' Hnow. unfold reset_password.
    assert (findByResetToken (save us user1) t now' = None) as ->.
    { apply find_snd_None, Forall_forall. intros v Hv [Ht Hgt].
      rewrite (Hall v Hv Ht) in Hgt. simpl in Hgt.
      apply bool_decide_eq_true in Hgt. lia. }
    by destruct (falsy pw || _).
Qed.

(** X6: resend-verification replaces the pending link of an unverified
    account: afterwards the previous token is refused (400) at any time and
    the new token verifies the account within 24 hours; for an account that
    is verified already the request is answered 400, and for an unknown
    address 404, both without a change or a mail. *)
Theorem resend_replaces_link us e now t' :
  e ≠ "" →
  (∀ user t0,
      findByEmail us (toLowerCase e) = Some user → isVerified user = false →
      t0 ≠ t' →
      (∀ v, v ∈ us → verificationToken v = Some t0 ∨ verificationToken v = Some t' →
            _id v = _id user) →
      (∀ now', verify_email (resend_verification us (Some e) now t').1.1 t0 now'
               = ((resend_verification us (Some e) now t').1.1,
                  (400, InvalidOrExpiredLink))) ∧
      (∀ now', now' < now + 86400000 →
         (verify_email (resend_verification us (Some e) now t').1.1 t' now').2
           = (200, EmailVerified) ∧
         ∃ u, findById
                (verify_email (resend_verification us (Some e) now t').1.1 t' now').1
                (_id user) = Some u ∧ isVerified u = true)) ∧
  (∀ user, findByEmail us (toLowerCase e) = Some user → isVerified user = true →
           resend_verification us (Some e) now t'
             = (us, [], fail 400 "Email is already verified")) ∧
  (findByEmail us (toLowerCase e) = None →
   resend_verification us (Some e) now t' = (us, [], fail 404 "User not found")).
Proof.
  intros He. unfold resend_verification. simpl.
  rewrite bool_decide_eq_false_2 by done. split_and!.
  - intros user t0 Hfind Hver Hne Huniq. rewrite Hfind, Hver. simpl.
    apply findByEmail_Some in Hfind as [Hin _].
    set (user1 := set_verification user (Some t') (Some (now + 86400000))).
    assert (∀ v, v ∈ save us user1 →
              verificationToken v = Some t0 ∨ verificationToken v = Some t' →
              v = user1) as Hall.
    { intros v [->|[Hv Hid]]%save_elem_inv Ht; [done|].
      exfalso. apply Hid. simpl. by apply Huniq. }
    assert (user1 ∈ save us user1) as Hin1 by by eapply save_elem_new.
    split.
    + intros now'. apply AuthFacts.verify_email_replay, Forall_forall.
      intros v Hv Ht. rewrite (Hall v Hv (or_introl Ht)) in Ht. simpl in Ht.
      congruence.
    + intros now' Hnow. unfold verify_email.
      assert (findByVerificationToken (save us user1) t' now' = Some user1) as ->.
      { apply find_snd_unique.
        - apply Exists_exists. exists user1. split; [done|]. simpl.
          split; [done|]. by apply bool_decide_eq_true_2.
        - intros v Hv [Ht _]. apply Hall; [done|by right]. }
      simpl. split; [done|]. eexists. split.
      * apply (findById_save _ _ (_id user)); [|done].
        apply (findById_elem _ user1 Hin1).
      * done.
  - intros user Hfind Hver. by rewrite Hfind, Hver.
  - by intros ->.
Qed.

End Bcrypt.

Lemma register_keeps_emails_distinct_witness :
  emails_ok asha_registers.1.1.
Proof.
  apply (proj1 (register_keeps_emails_distinct sample_hash [] (Some " Asha ")
                  (Some "Asha@CS.abc.edu") (Some "secret1") true true image image
                  1000 "v-token" "u1" (conj (NoDup_nil_2) (Forall_nil_2 _)))).
Defined.

Lemma registration_link_verifies_witness :
  (verify_email asha_registers.1.1 "v-token" 5000).2 = (200, EmailVerified).
Proof.
  refine (proj1 (proj1 (registration_link_verifies sample_hash [] (Some " Asha ")
                          (Some "Asha@CS.abc.edu") (Some "secret1") true true
                          image image 1000 "v-token" "u1" _ _) 5000 _)).
  - reflexivity.
  - constructor.
  - lia.
Defined.

Lemma registered_account_witness :
  ∃ u, asha_registers.1.1 = [u] ∧ email u = "asha@cs.abc.edu" ∧
       name u = "Asha" ∧ college u = "CS".
Proof.
  destruct (proj1 (registered_account sample_hash [] (Some " Asha ")
                     (Some "Asha@CS.abc.edu") (Some "secret1") true true
                     image image 1000 "v-token" "u1") eq_refl)
    as (nm & em & pw & u & Hn & He & Hp & Hus & Hid & Hname & _ & Hemail & _ & _ & _
        & Hcol).
  exists u. injection Hn as <-. injection He as <-.
  split_and!; [exact Hus|exact Hemail|exact Hname|].
  destruct (Hcol eq_refl) as (E & _).
  assert (collegeName "Asha@CS.abc.edu" = Some "CS") as E' by reflexivity.
  rewrite E' in E. congruence.
Defined.

Lemma login_after_registration_witness :
  status (login sample_compare asha_registers.1.1 (Some "ASHA@cs.abc.edu")
            (Some "secret1") 9000) = 200.
Proof.
  destruct (proj2 (login_after_registration sample_hash sample_compare
                     (λ pw, bool_decide_eq_true_2 _ eq_refl)
                     [] (Some " Asha ") (Some "Asha@CS.abc.edu") (Some "secret1")
                     true true image image 1000 "v-token" "u1")
              eq_refl (Some "ASHA@cs.abc.edu") 9000 eq_refl) as (d & Hd & _).
  unfold asha_registers. by rewrite Hd.
Defined.

Lemma reset_link_resets_witness :
  status (reset_password sample_hash
            (forgot_password [pending_user] (Some "Asha@abc.edu") 1000 "fresh-token").1.1
            "fresh-token" (Some "secret2") 2000).2 = 200.
Proof.
  refine (proj1 (proj1 (proj2 (reset_link_resets sample_hash [pending_user]
                                 "Asha@abc.edu" 1000 "fresh-token" pending_user
                                 _ _ _))
                   "secret2" 2000 _ _)).
  - discriminate.
  - reflexivity.
  - intros v Hv%list_elem_of_singleton _. by subst.
  - simpl. lia.
  - lia.
Defined.

Lemma resend_replaces_link_witness :
  verify_email (resend_verification [pending_user] (Some "asha@abc.edu") 2000
                  "new-token").1.1 "v-token" 2500
    = ((resend_verification [pending_user] (Some "asha@abc.edu") 2000
          "new-token").1.1, (400, InvalidOrExpiredLink)).
Proof.
  refine (proj1 (proj1 (resend_replaces_link [pending_user] "asha@abc.edu" 2000
                          "new-token" _)
                   pending_user "v-token" _ _ _ _) 2500).
  - discriminate.
  - reflexivity.
  - reflexivity.
  - discriminate.
  - intros v Hv%list_elem_of_singleton _. by subst.
Defined.

End AccountsFacts.

Module UsersMoreFacts.
Import Users Discover Photos ListFacts StoreFacts MoreListFacts UsersFacts.
Import Samples MoreSamples.
Local Open Scope list_scope.
Local Open Scope Z_scope.

(** X7: GET /discover never lists the caller: every user it returns is
    another account of the caller's college with a name and at least one
    photo, and with a limit other than 0 it returns at most |limit| users. *)
Theorem discover_lists_others us userId currentUser limit views :
  findById us userId = Some currentUser →
  data (discover us userId limit) = Some views →
  Forall (λ v, uv_id v ≠ userId ∧ uv_college v = college currentUser ∧
               uv_name v ≠ "" ∧ uv_photos v ≠ [] ∧
               ∃ u, u ∈ us ∧ v = user_view userId u) views ∧
  (limit ≠ 0 → Z.of_nat (length views) ≤ Z.abs limit).
Proof.
  intros Hu. unfold discover. rewrite Hu. simpl. intros [= <-]. split.
  - apply Forall_fmap.
    assert (Forall (λ u, u ∈ us ∧ candidate userId (college currentUser) u)
              (filter (candidate userId (college currentUser)) us)) as Hall.
    { apply Forall_forall. by intros u [? ?]%list_elem_of_filter. }
    assert (Forall (λ u, u ∈ us ∧ candidate userId (college currentUser) u)
              (limited limit (filter (candidate userId (college currentUser)) us)))
      as Hlim.
    { unfold limited. case_decide; [done|]. by apply Forall_take. }
    eapply Forall_impl; [exact Hlim|]. intros u [Hin (Hid & Hcol & Hname & Hph)].
    simpl. split_and!; try done.
    + destruct (photos u); [done|]. simpl. discriminate.
    + by exists u.
  - intros Hne. rewrite length_fmap. unfold limited.
    rewrite decide_False by done. rewrite length_take. lia.
Qed.

Lemma discover_lists_others_witness :
  Forall (λ v, uv_id v ≠ "a" ∧ uv_college v = "ABC" ∧
               uv_name v ≠ "" ∧ uv_photos v ≠ [] ∧
               ∃ u, u ∈ [asha; bela] ∧ v = user_view "a" u)
    [user_view "a" bela].
Proof.
  apply (proj1 (discover_lists_others [asha; bela] "a" asha 10
                  [user_view "a" bela] eq_refl eq_refl)).
Defined.

Lemma NoDup_fmap_elem {A B} (g : A → B) (l : list A) x y :
  NoDup (g <$> l) → x ∈ l → y ∈ l → g x = g y → x = y.
Proof.
  induction l as [|z l IH]; intros Hnd Hx Hy Hg; [by apply not_elem_of_nil in Hx|].
  rewrite fmap_cons in Hnd. apply NoDup_cons in Hnd as [Hz Hnd].
  apply elem_of_cons in Hx as [->|Hx], Hy as [->|Hy]; auto.
  - exfalso. apply Hz. rewrite Hg. by apply list_elem_of_fmap_2.
  - exfalso. apply Hz. rewrite <- Hg. by apply list_elem_of_fmap_2.
Qed.

(** Saving a document that was read from a collection with distinct ids,
    unchanged, gives the collection back. *)
Lemma save_same us u :
  NoDup (_id <$> us) → u ∈ us → save us u = us.
Proof.
  intros Hnd Hu. unfold save. rewrite <- (list_fmap_id us) at 2.
  apply list_fmap_ext. intros i v Hv. case_decide as E; [|done]. simpl.
  symmetry. eapply (NoDup_fmap_elem _id); eauto. by eapply list_elem_of_lookup_2.
Qed.

Lemma save_save us u1 u2 : _id u1 = _id u2 → save (save us u1) u2 = save us u2.
Proof.
  intros Hid. unfold save. rewrite <- list_fmap_compose.
  apply list_fmap_ext. intros i v Hv. simpl.
  destruct (decide (_id v = _id u1)) as [E|E].
  - rewrite decide_True by done. by rewrite decide_True by congruence.
  - destruct (decide (_id v = _id u2)); [congruence|done].
Qed.

Lemma set_photos_same u : set_photos u (photos u) = u.
Proof. by destruct u. Qed.

Lemma findIndex_last ps p :
  publicId p ∉ publicId <$> ps →
  findIndex (ps ++ [p]) (publicId p) = Some (length ps).
Proof.
  intros Hnot. unfold findIndex.
  rewrite list_find_app_r.
  - simpl. by rewrite decide_True.
  - apply list_find_None, Forall_forall. intros q Hq Heq. apply Hnot.
    rewrite <- Heq. by apply list_elem_of_fmap_2.
Qed.

(** X8: uploading a photo and then deleting it again gives the store back:
    for an account with fewer than six photos whose list has one main photo
    (or is empty), and a public id that the account does not have yet. *)
Theorem upload_then_delete us uid user f su pi :
  NoDup (_id <$> us) → findById us uid = Some user →
  (length (photos user) < 6)%nat → pi ∉ publicId <$> photos user →
  main_ok (photos user) →
  status (upload_photo us uid (Some f) (Uploaded su pi)).2 = 200 ∧
  delete_photo (upload_photo us uid (Some f) (Uploaded su pi)).1 uid (Some pi)
    = (us, mkResponse 200 true (Some "Photo deleted successfully") None).
Proof.
  intros Hnd Hu Hlen Hpi Hok. unfold upload_photo. rewrite Hu.
  rewrite decide_False by lia. simpl. split; [done|].
  set (new := mkPhoto su pi (bool_decide (length (photos user) = 0%nat)) [] 0).
  set (user' := set_photos user (photos user ++ [new])).
  pose proof (findById_Some _ _ _ Hu) as [Hin Hid].
  unfold delete_photo.
  rewrite (findById_save us user' uid) by (by rewrite ?Hu).
  change (photos user') with (photos user ++ [new]).
  change pi with (publicId new) at 1. rewrite findIndex_last by done. simpl.
  replace (delete (length (photos user)) (photos user ++ [new])) with (photos user)
    by (by rewrite delete_middle, app_nil_r).
  assert (match photos user with
          | [] => photos user
          | p0 :: rest =>
              if some_main (photos user) then photos user
              else set_isMain p0 true :: rest
          end = photos user) as ->.
  { destruct (photos user) as [|p0 rest] eqn:E; [done|].
    rewrite (proj2 (some_main_count _)); [done|]. rewrite Hok by done. lia. }
  f_equal. rewrite save_save by done.
  replace (set_photos user' (photos user)) with user by (by destruct user).
  by apply save_same.
Qed.

Lemma upload_then_delete_witness :
  delete_photo
    (upload_photo [sample_user "u1" [sample_photo "p1" true]] "u1" (Some "img")
       (Users.Uploaded "https://img/p2" "p2")).1 "u1" (Some "p2")
  = ([sample_user "u1" [sample_photo "p1" true]],
     mkResponse 200 true (Some "Photo deleted successfully") None).
Proof.
  refine (proj2 (upload_then_delete [sample_user "u1" [sample_photo "p1" true]] "u1"
                   (sample_user "u1" [sample_photo "p1" true]) "img"
                   "https://img/p2" "p2" _ _ _ _ _)).
  - apply NoDup_singleton.
  - reflexivity.
  - simpl. lia.
  - simpl. intros Hin%list_elem_of_singleton. discriminate.
  - intros _. reflexivity.
Defined.

Lemma flagged_content i ps : content <$> flagged i ps = content <$> ps.
Proof.
  unfold flagged. revert i. induction ps as [|p ps IH]; intros [|i]; simpl; try done.
  - f_equal. rewrite <- list_fmap_compose. by apply list_fmap_ext.
  - f_equal. apply IH.
Qed.

Lemma flagged_flagged i ps : flagged i (flagged i ps) = flagged i ps.
Proof.
  unfold flagged. revert i. induction ps as [|p ps IH]; intros [|i]; simpl; try done.
  - f_equal. rewrite <- list_fmap_compose. by apply list_fmap_ext.
  - f_equal. apply IH.
Qed.

Lemma findIndex_content ps ps' pid :
  content <$> ps' = content <$> ps → findIndex ps' pid = findIndex ps pid.
Proof.
  unfold findIndex. revert ps'. induction ps as [|p ps IH]; intros [|p' ps'] E;
    simplify_eq/=; [done|].
  assert (publicId p' = publicId p) as Hpid by (unfold content in *; congruence).
  rewrite Hpid. case_decide; [done|].
  specialize (IH ps' ltac:(done)).
  destruct (list_find _ ps') as [[j q]|], (list_find _ ps) as [[k r]|];
    simplify_eq/=; done.
Qed.

(** X9: choosing the main photo changes nothing but the flags (addresses,
    public ids, liker lists and counters of the account's photos stay as
    they are, in the same order), and choosing the same photo again changes
    nothing at all. *)
Theorem set_main_idempotent us uid user pid i :
  findById us uid = Some user → findIndex (photos user) pid = Some i →
  set_main_photo (set_main_photo us uid (Some pid)).1 uid (Some pid)
    = set_main_photo us uid (Some pid) ∧
  ∃ user', findById (set_main_photo us uid (Some pid)).1 uid = Some user' ∧
           content <$> photos user' = content <$> photos user.
Proof.
  intros Hu Hi. unfold set_main_photo at 2 3 4. rewrite Hu, Hi. simpl.
  fold (flagged i (photos user)).
  set (user1 := set_photos user (flagged i (photos user))).
  pose proof (findById_Some _ _ _ Hu) as [Hin Hid].
  assert (findById (save us user1) uid = Some user1) as Hu1
    by (apply findById_save; [by rewrite Hu|done]).
  split.
  - unfold set_main_photo. rewrite Hu1.
    change (photos user1) with (flagged i (photos user)).
    rewrite (findIndex_content (photos user)) by apply flagged_content.
    rewrite Hi. simpl. fold (flagged i (flagged i (photos user))).
    rewrite flagged_flagged. f_equal. by rewrite save_save.
  - exists user1. split; [done|]. apply flagged_content.
Qed.

Lemma set_main_idempotent_witness :
  set_main_photo
    (set_main_photo [sample_user "u1" six_photos] "u1" (Some "p3")).1 "u1" (Some "p3")
  = set_main_photo [sample_user "u1" six_photos] "u1" (Some "p3").
Proof.
  apply (proj1 (set_main_idempotent [sample_user "u1" six_photos] "u1"
                  (sample_user "u1" six_photos) "p3" 2%nat eq_refl eq_refl)).
Defined.

Lemma main_count_shape ps ps' :
  shape <$> ps' = shape <$> ps → main_count ps' = main_count ps.
Proof.
  revert ps'. induction ps as [|p ps IH]; intros [|p' ps'] E; simplify_eq/=; [done|].
  rewrite !main_count_cons. rewrite (IH ps') by done.
  assert (isMain p' = isMain p) as -> by (unfold shape in *; congruence). done.
Qed.

Lemma main_ok_shape ps ps' :
  shape <$> ps' = shape <$> ps → main_ok ps → main_ok ps'.
Proof.
  intros E Hok Hne. rewrite (main_count_shape _ _ E). apply Hok.
  intros ->. by destruct ps'.
Qed.

Lemma toggle_shape p cur :
  shape (toggle p cur).1 = shape p ∧
  (0 ≤ likeCount p → 0 ≤ likeCount (toggle p cur).1).
Proof. unfold toggle. case_bool_decide; simpl; split; try done; lia. Qed.

Lemma findOwner_Some us purl u : findOwner us purl = Some u → u ∈ us.
Proof.
  unfold findOwner. intros H.
  by apply (find_snd_Some (λ u, Exists (λ p, url p = purl) (photos u))) in H as [? _].
Qed.

(** What POST /like stores: nothing new, or the owner's record with one
    photo replaced by its toggled version. *)
Lemma like_photo_cases us decoded photoUrl :
  ((like_photo us decoded photoUrl).1 = us ∧
   status (like_photo us decoded photoUrl).2 ≠ 200) ∨
  (∃ owner i photo,
      owner ∈ us ∧ photos owner !! i = Some photo ∧
      status (like_photo us decoded photoUrl).2 = 200 ∧
      (like_photo us decoded photoUrl).1
        = save us (set_photos owner
                     (<[i := (toggle photo (prop_string decoded "id")).1]>
                        (photos owner)))).
Proof.
  unfold like_photo. destruct (falsy photoUrl); [by left|].
  destruct (findOwner us (default "" photoUrl)) as [owner|] eqn:Ho; [|by left].
  destruct (list_find _ (photos owner)) as [[i photo]|] eqn:Hp; [|by left].
  right. exists owner, i, photo.
  apply list_find_Some in Hp as (Hp & _ & _).
  destruct (toggle photo (prop_string decoded "id")) as [photo' liked] eqn:Ht.
  simpl. split_and!; try done. by eapply findOwner_Some.
Qed.

(** X10: liking never touches the photo lists apart from liker lists and
    counters: after POST /like every account's photo list still has one
    main photo (when it had), no counter is negative (when none was), and
    an answer other than 200 leaves the store as it is. *)
Theorem like_keeps_photo_lists us decoded photoUrl :
  (all_main_ok us → all_main_ok (like_photo us decoded photoUrl).1) ∧
  (counts_ok us → counts_ok (like_photo us decoded photoUrl).1) ∧
  (status (like_photo us decoded photoUrl).2 ≠ 200 →
   (like_photo us decoded photoUrl).1 = us).
Proof.
  destruct (like_photo_cases us decoded photoUrl)
    as [[-> Hst]|(owner & i & photo & Hin & Hp & Hst & ->)].
  { by split_and!. }
  destruct (toggle_shape photo (prop_string decoded "id")) as [Hshape Hcount].
  revert Hshape Hcount.
  generalize (toggle photo (prop_string decoded "id")).1. intros q Hshape Hcount.
  split_and!.
  - intros Hus. apply save_Forall; [done|]. simpl.
    eapply main_ok_shape; [|exact (proj1 (Forall_forall _ _) Hus _ Hin)].
    rewrite list_fmap_insert, Hshape. rewrite list_insert_id; [done|].
    by rewrite list_lookup_fmap, Hp.
  - intros Hus. apply save_Forall; [done|]. simpl.
    pose proof (proj1 (Forall_forall _ _) Hus _ Hin) as Hall. simpl in Hall.
    apply Forall_insert; [done|]. apply Hcount.
    by apply (proj1 (Forall_forall _ _) Hall photo), list_elem_of_lookup_2 with i.
  - by intros ?.
Qed.

Lemma like_keeps_photo_lists_witness :
  all_main_ok (like_photo [asha; bela] (generateToken "a" 0) (Some "https://img/p1")).1.
Proof.
  apply (proj1 (like_keeps_photo_lists [asha; bela] (generateToken "a" 0)
                  (Some "https://img/p1"))).
  apply Forall_cons; split; [by intros ?|].
  apply Forall_cons; split; [by intros _|apply Forall_nil_2].
Defined.

Lemma filter_out_length (l : list (option ObjectId)) x :
  None ∉ l → NoDup l → x ∈ l →
  (length (filter (λ y, y ≠ None ∧ y ≠ x) l) + 1 = length l)%nat.
Proof.
  induction l as [|y l IH]; intros Hnone Hnd Hx; [by apply not_elem_of_nil in Hx|].
  apply NoDup_cons in Hnd as [Hy Hnd]. apply not_elem_of_cons in Hnone as [Hy0 Hnone].
  apply elem_of_cons in Hx as [->|Hx].
  - rewrite filter_cons_False by (intros [_ ?]; done). simpl. f_equal.
    rewrite <- Nat.add_1_r. f_equal. rewrite filter_all; [lia|].
    apply Forall_forall. intros z Hz. split; [by intros ->|by intros ->].
  - rewrite filter_cons_True by (split; [done|by intros ->]). simpl.
    by rewrite IH.
Qed.

(** X11: with the caller's id at hand the toggle keeps liker list and
    counter in step: on a photo whose liker list has no null entry and no
    repetition and whose counter is the length of the list, a toggle gives
    such a photo again, reports the opposite of the former state, changes
    the caller's membership only, and a second toggle restores liker list
    and counter up to the order of the list. *)
Theorem toggle_in_step p c :
  in_step p →
  in_step (toggle p (Some c)).1 ∧
  (toggle p (Some c)).2 = negb (bool_decide (Some c ∈ likes p)) ∧
  (Some c ∈ likes (toggle p (Some c)).1 ↔ Some c ∉ likes p) ∧
  (∀ d, d ≠ c → Some d ∈ likes (toggle p (Some c)).1 ↔ Some d ∈ likes p) ∧
  likeCount (toggle (toggle p (Some c)).1 (Some c)).1 = likeCount p.
Proof.
  intros (Hnone & Hnd & Hcount).
  assert (filter (λ userId, userId ≠ None) (likes p) = likes p) as Hclean.
  { apply filter_all, Forall_forall. by intros x Hx ->. }
  assert (Exists (λ userId : option ObjectId, is_Some userId ∧ userId = Some c)
            (likes p) ↔ Some c ∈ likes p) as Hex.
  { rewrite Exists_exists. split; [by intros (x & Hx & _ & ->)|].
    intros Hin. exists (Some c). by split_and!. }
  assert (∀ q, in_step q →
            (Some c ∈ likes q →
               likes (toggle q (Some c)).1
                 = filter (λ y, y ≠ None ∧ y ≠ Some c) (likes q) ∧
               likeCount (toggle q (Some c)).1 = likeCount q - 1 ∧
               (toggle q (Some c)).2 = false) ∧
            (Some c ∉ likes q →
               likes (toggle q (Some c)).1 = likes q ++ [Some c] ∧
               likeCount (toggle q (Some c)).1 = likeCount q + 1 ∧
               (toggle q (Some c)).2 = true)) as Hstep.
  { intros q (Hqn & Hqd & Hqc).
    assert (filter (λ userId, userId ≠ None) (likes q) = likes q) as Hqclean.
    { apply filter_all, Forall_forall. by intros x Hx ->. }
    assert (Exists (λ userId : option ObjectId, is_Some userId ∧ userId = Some c)
              (likes q) ↔ Some c ∈ likes q) as Hqex.
    { rewrite Exists_exists. split; [by intros (x & Hx & _ & ->)|].
      intros Hin. exists (Some c). by split_and!. }
    unfold toggle. rewrite Hqclean. split; intros Hin.
    - rewrite bool_decide_eq_true_2 by by apply Hqex. simpl.
      split_and!; [done| |].
      + pose proof (filter_out_length (likes q) (Some c) Hqn Hqd Hin). lia.
      + apply bool_decide_eq_false_2. intros [[_ ?] _]%list_elem_of_filter. done.
    - rewrite bool_decide_eq_false_2 by by rewrite Hqex. simpl.
      split_and!; [done|done|].
      apply bool_decide_eq_true_2, elem_of_app. right. apply list_elem_of_here. }
  destruct (Hstep p (conj Hnone (conj Hnd Hcount))) as [Hon Hoff].
  destruct (decide (Some c ∈ likes p)) as [Hin|Hin].
  - destruct (Hon Hin) as (Hl & Hc & Hr).
    assert (in_step (toggle p (Some c)).1) as Hin1.
    { unfold in_step. rewrite Hl, Hc. split_and!.
      - intros [_ ?]%list_elem_of_filter. done.
      - by apply NoDup_filter.
      - pose proof (filter_out_length (likes p) (Some c) Hnone Hnd Hin). lia. }
    split_and!; [done| | | |].
    + rewrite Hr. by rewrite bool_decide_eq_true_2.
    + rewrite Hl. split; [|done]. intros [[_ ?] _]%list_elem_of_filter. done.
    + intros d Hd. rewrite Hl, list_elem_of_filter. split; [by intros [_ ?]|].
      intros Hdin. split_and!; [done|congruence|done].
    + destruct (Hstep _ Hin1) as [_ Hoff1].
      destruct Hoff1 as (_ & -> & _); [|lia].
      rewrite Hl. intros [[_ ?] _]%list_elem_of_filter. done.
  - destruct (Hoff Hin) as (Hl & Hc & Hr).
    assert (in_step (toggle p (Some c)).1) as Hin1.
    { unfold in_step. rewrite Hl, Hc. split_and!.
      - rewrite elem_of_app, list_elem_of_singleton. intros [?|?]; done.
      - apply NoDup_app. split_and!; [done| |apply NoDup_singleton].
        intros x Hx ->%list_elem_of_singleton. done.
      - rewrite length_app. simpl. lia. }
    split_and!; [done| | | |].
    + rewrite Hr. by rewrite bool_decide_eq_false_2.
    + rewrite Hl. split; [done|]. intros _. apply elem_of_app. right.
      apply list_elem_of_here.
    + intros d Hd. rewrite Hl, elem_of_app, list_elem_of_singleton.
      split; [intros [?|?]; [done|congruence]|by left].
    + destruct (Hstep _ Hin1) as [Hon1 _].
      destruct Hon1 as (_ & -> & _); [|lia].
      rewrite Hl. apply elem_of_app. right. apply list_elem_of_here.
Qed.

Lemma toggle_in_step_witness :
  (toggle bela_photo (Some "a")).2 = negb (bool_decide (Some "a" ∈ likes bela_photo)).
Proof.
  refine (proj1 (proj2 (toggle_in_step bela_photo "a" _))).
  split_and!; [apply not_elem_of_nil|apply NoDup_nil_2|reflexivity].
Defined.

End UsersMoreFacts.

(** ** Swipes: what a call adds to the store, and what its answer means *)
Module MatchesMoreFacts.
Import Matches Chat Inbox MatchViews ListFacts StoreFacts MoreListFacts MatchesFacts.
Import Samples.
Local Open Scope list_scope.

Lemma record_swipe_grows ss a b act now :
  (length ss ≤ length (record_swipe ss a b act now) ≤ length ss + 1)%nat.
Proof.
  destruct (record_swipe_cases ss a b act now)
    as [[_ ->]|(l1 & s & l2 & -> & _ & _ & _ & ->)];
    rewrite ?length_app; simpl; rewrite ?length_app; simpl; lia.
Qed.

Lemma auth_user us b uid : auth us b = inr uid → is_Some (findById us uid).
Proof.
  unfold auth. destruct b as [| |decoded]; try done.
  destruct (prop_string decoded "userId") as [u|]; [|done].
  destruct (findById us u) eqn:E; [|done]. intros [= <-]. by rewrite E.
Qed.

(** X12: POST /swipe as a whole either rejects the request and leaves the
    store as it is, or answers 200 and only adds: users, messages and
    confessions stay, at most one swipe record, one match and two
    notifications are appended, and the new notifications are unread. *)
Theorem swipe_route_adds_only db b tgt act now fresh :
  (status (swipe_route db b tgt act now fresh).2 ≠ 200 →
   (swipe_route db b tgt act now fresh).1 = db) ∧
  users (swipe_route db b tgt act now fresh).1 = users db ∧
  messages (swipe_route db b tgt act now fresh).1 = messages db ∧
  confessions (swipe_route db b tgt act now fresh).1 = confessions db ∧
  (length (swipes db) ≤ length (swipes (swipe_route db b tgt act now fresh).1)
     ≤ length (swipes db) + 1)%nat ∧
  (∃ ms, matches (swipe_route db b tgt act now fresh).1 = matches db ++ ms ∧
         (length ms ≤ 1)%nat) ∧
  (∃ ns, notifications (swipe_route db b tgt act now fresh).1
           = notifications db ++ ns ∧
         (length ns ≤ 2)%nat ∧
         Forall (λ n, Notification.isRead n = false) ns).
Proof.
  unfold swipe_route. destruct (auth (users db) b) as [res|A] eqn:Hauth.
  { simpl. split_and!; try done; try lia.
    - exists []. split; [by rewrite app_nil_r|simpl; lia].
    - exists []. split_and!; [by rewrite app_nil_r|simpl; lia|constructor]. }
  apply auth_user in Hauth as [au Hau]. cbv beta iota.
  split; [|split; [|split; [|split; [|split; [|split]]]]].
  - unfold swipe. repeat case_match; simpl in *; simplify_eq; try done.
  - apply swipe_users.
  - unfold swipe. by repeat case_match.
  - unfold swipe. by repeat case_match.
  - destruct (swipe_swipes_cases db A tgt act now fresh) as [->|(B & a & ->)];
      [lia|apply record_swipe_grows].
  - destruct (swipe_matches_cases db A tgt act now fresh) as [->|(B & _ & ->)].
    + exists []. split; [by rewrite app_nil_r|simpl; lia].
    + eexists [_]. split; [done|simpl; lia].
  - unfold swipe. repeat case_match; simpl;
      first [exists []; split_and!; [by rewrite app_nil_r|simpl; lia|constructor]
            |eexists; split_and!; [done|simpl; lia|by repeat constructor]].
Qed.

Lemma swipe_route_adds_only_witness :
  (swipe_route fresh_db NoToken (Some "b") (Some "like") 1 "m1").1 = fresh_db.
Proof.
  apply (proj1 (swipe_route_adds_only fresh_db NoToken (Some "b") (Some "like") 1 "m1")).
  simpl. lia.
Defined.

(** X13: the answer of an accepted swipe tells the truth about the store:
    [isMatch] comes with the id of an active match record of the two users
    that the store holds after the call, and the target has liked the
    caller; without [isMatch] no id is given, and either the action was a
    pass or the target has no like for the caller on record. *)
Theorem swipe_answer_sound db A tgt act now fresh d :
  data (swipe db A tgt act now fresh).2 = Some d →
  ∃ B a,
    tgt = Some B ∧ parse_action (default "" act) = Some a ∧
    if isMatch d then
      is_like a ∧
      is_Some (reciprocalSwipe (swipes (swipe db A tgt act now fresh).1) A B) ∧
      ∃ m, matchId d = Some (Match._id m) ∧
           m ∈ matches (swipe db A tgt act now fresh).1 ∧
           active_between A B m
    else
      matchId d = None ∧
      (a = pass ∨
       reciprocalSwipe (swipes (swipe db A tgt act now fresh).1) A B = None).
Proof.
  unfold swipe. destruct tgt as [B|]; [|done].
  destruct (falsy (Some B) || falsy act); [done|]. simpl.
  destruct (parse_action (default "" act)) as [a|]; [|done].
  destruct (decide (A = B)); [done|].
  destruct (findById (users db) B) as [tu|]; [|done].
  destruct (decide (is_like a)) as [Hlike|Hlike].
  - simpl.
    destruct (reciprocalSwipe _ A B) as [r|] eqn:Hr.
    + destruct (existingMatch (matches db) A B) as [m|] eqn:Hm.
      * intros [= <-]. exists B, a. simpl. split_and!; try done.
        exists m. split; [done|]. unfold existingMatch in Hm.
        apply fmap_Some in Hm as ([i m'] & Hm & ->).
        apply list_find_Some in Hm as (Hi & Hact & _). simpl.
        split; [by eapply list_elem_of_lookup_2|done].
      * simpl. destruct (findById (users db) A) as [au|]; [|done]. simpl.
        intros [= <-]. exists B, a. simpl. split_and!; try done.
        exists (Match.mk fresh A B active now now (Match.mkLast None None now)).
        split; [done|]. split.
        { apply elem_of_app. right. apply list_elem_of_here. }
        split; [by left|done].
    + simpl. intros [= <-]. exists B, a. simpl. split_and!; try done.
      by right.
  - simpl. intros [= <-]. exists B, a. simpl. split_and!; try done.
    left. destruct a; try done; exfalso; apply Hlike; [by left|by right].
Qed.

Lemma swipe_answer_sound_witness :
  ∃ B a, Some "b" = Some B ∧ parse_action (default "" (Some "like")) = Some a ∧
         is_like a ∧
         is_Some (reciprocalSwipe
                    (swipes (swipe liked_db "a" (Some "b") (Some "like") 2 "m2").1)
                    "a" B) ∧
         ∃ m, Some "m2" = Some (Match._id m) ∧
              m ∈ matches (swipe liked_db "a" (Some "b") (Some "like") 2 "m2").1 ∧
              active_between "a" B m.
Proof.
  apply (swipe_answer_sound liked_db "a" (Some "b") (Some "like") 2 "m2"
           (mkSwipeData true (Some "m2") "It's a match!")).
  reflexivity.
Defined.

(** An accepted pass, and an accepted like of somebody who has not liked
    back. *)
Lemma swipe_pass db A B now fresh :
  A ≠ B → B ≠ "" → is_Some (findById (users db) B) →
  swipe db A (Some B) (Some "pass") now fresh =
    (set_notifications (set_swipes db (record_swipe (swipes db) A B pass now))
       (notifications db ++ [like_notification B A]),
     swipe_response false None).
Proof.
  intros Hne HB [tu Htu]. unfold swipe. simpl.
  rewrite !bool_decide_eq_false_2 by done. simpl.
  rewrite decide_False by done. by rewrite Htu.
Qed.

Lemma swipe_unrequited db A B a now fresh :
  A ≠ B → B ≠ "" → is_Some (findById (users db) B) →
  is_like a → reciprocalSwipe (swipes db) A B = None →
  swipe db A (Some B) (Some (action_string a)) now fresh =
    (set_swipes db (record_swipe (swipes db) A B a now), swipe_response false None).
Proof.
  intros Hne HB [tu Htu] Hlike Hnone. unfold swipe. simpl.
  rewrite !bool_decide_eq_false_2 by (done || apply action_string_nonempty). simpl.
  rewrite parse_action_string, decide_False by done. rewrite Htu.
  rewrite decide_True by done. simpl.
  assert (reciprocalSwipe (record_swipe (swipes db) A B a now) A B = None) as ->; [|done].
  apply eq_None_not_Some. rewrite record_swipe_reciprocal by done.
  rewrite Hnone. by intros [? ?].
Qed.

(** X14: the like notification goes out on a pass. An accepted pass
    appends exactly one notification, of type like, for the target, and
    touches no match; an accepted like or superlike of somebody who has not
    liked back appends no notification and no match. Both answer without
    [isMatch]. *)
Theorem pass_sends_the_like_notification db A B a now fresh :
  A ≠ B → B ≠ "" → is_Some (findById (users db) B) →
  (a = pass →
   created (notifications db)
     (notifications (swipe db A (Some B) (Some (action_string a)) now fresh).1)
     = [like_notification B A] ∧
   matches (swipe db A (Some B) (Some (action_string a)) now fresh).1 = matches db ∧
   (swipe db A (Some B) (Some (action_string a)) now fresh).2
     = swipe_response false None) ∧
  (is_like a → reciprocalSwipe (swipes db) A B = None →
   notifications (swipe db A (Some B) (Some (action_string a)) now fresh).1
     = notifications db ∧
   matches (swipe db A (Some B) (Some (action_string a)) now fresh).1 = matches db ∧
   (swipe db A (Some B) (Some (action_string a)) now fresh).2
     = swipe_response false None).
Proof.
  intros Hne HB Htu. split.
  - intros ->. change (action_string pass) with "pass".
    rewrite swipe_pass by done. simpl.
    split_and!; try done. unfold created. by rewrite drop_app_length.
  - intros Hlike Hnone. by rewrite swipe_unrequited.
Qed.

Lemma pass_sends_the_like_notification_witness :
  created (notifications fresh_db)
    (notifications (swipe fresh_db "a" (Some "b") (Some (action_string pass)) 1 "m1").1)
    = [like_notification "b" "a"].
Proof.
  refine (proj1 (proj1 (pass_sends_the_like_notification fresh_db "a" "b" pass 1 "m1"
                          _ _ _) eq_refl)).
  - done.
  - done.
  - by eexists.
Defined.

(** X19: a new match can be opened by its two users and by nobody else.
    When a mutual like creates the match record (its id is new to the
    collection), GET /:matchId answers each of the two with the other's
    name, picture and college, and anybody else with 403; the messages of
    the match open with status 200 for the two and with 404 for anybody
    else. *)
Theorem new_match_opens_for_both db A B a now fresh au tu :
  is_like a → A ≠ B → B ≠ "" →
  findById (users db) A = Some au → findById (users db) B = Some tu →
  is_Some (reciprocalSwipe (swipes db) A B) →
  active_matches (matches db) A B = [] →
  fresh ∉ Match._id <$> matches db →
  fresh ∉ Message.match_ <$> messages db →
  let db' := (swipe db A (Some B) (Some (action_string a)) now fresh).1 in
  let m := Match.mk fresh A B active now now (Match.mkLast None None now) in
  get_match db' A fresh = mkResponse 200 true None (Some (formattedMatch m tu)) ∧
  get_match db' B fresh = mkResponse 200 true None (Some (formattedMatch m au)) ∧
  (∀ C, C ≠ A → C ≠ B → get_match db' C fresh = fail 403 "Access denied") ∧
  (∀ limit page,
     (get_messages db' A fresh limit page).2
       = mkResponse 200 true None
           (Some (mkMessagesData [] (mkMatchInfo fresh (name tu) (avatar tu)))) ∧
     (get_messages db' B fresh limit page).2
       = mkResponse 200 true None
           (Some (mkMessagesData [] (mkMatchInfo fresh (name au) (avatar au)))) ∧
     ∀ C, C ≠ A → C ≠ B →
          get_messages db' C fresh limit page = (db', fail 404 "Match not found")).
Proof.
  intros Hlike Hne HB Hau Htu Hrec Hnone Hfresh Hfreshmsg db' m.
  assert (existingMatch (matches db) A B = None) as Hex
    by by apply existingMatch_None.
  assert (users db' = users db) as Hus by apply swipe_users.
  assert (matches db' = matches db ++ [m]) as Hms.
  { subst db'. rewrite (swipe_mutual db A B a now fresh tu au) by done.
    simpl. by rewrite Hex. }
  assert (messages db' = messages db) as Hmsg.
  { subst db'. rewrite (swipe_mutual db A B a now fresh tu au) by done.
    simpl. by rewrite Hex. }
  assert (Forall (λ x, Match._id x ≠ fresh) (matches db)) as Hnot.
  { apply Forall_forall. intros x Hx E. apply Hfresh.
    apply list_elem_of_fmap. by exists x. }
  assert (list_find (λ x, Match._id x = fresh) (matches db')
          = Some (length (matches db), m)) as Hfind.
  { rewrite Hms. apply list_find_Some. split_and!.
    - by rewrite lookup_app_r, Nat.sub_diag by lia.
    - done.
    - intros j y Hj Hlt. rewrite lookup_app_l in Hj by done.
      apply (proj1 (Forall_forall _ _) Hnot y). by eapply list_elem_of_lookup_2. }
  pose proof (findById_Some _ _ _ Hau) as [_ HidA].
  pose proof (findById_Some _ _ _ Htu) as [_ HidB].
  assert (∀ C, get_match db' C fresh =
               if decide (A ≠ C ∧ B ≠ C) then fail 403 "Access denied"
               else mkResponse 200 true None
                      (Some (formattedMatch m (if decide (A = C) then tu else au))))
    as Hget.
  { intros C. unfold get_match. rewrite Hfind, Hus. simpl. rewrite Hau, Htu.
    by rewrite HidA, HidB. }
  assert (∀ C, findMatch (matches db') fresh C
               = if decide (A = C ∨ B = C) then Some m else None) as Hfm.
  { intros C. unfold findMatch. rewrite Hms. case_decide as HC.
    - rewrite find_snd_app_r.
      + simpl. by rewrite decide_True.
      + eapply Forall_impl; [exact Hnot|]. simpl. tauto.
    - apply find_snd_None. apply Forall_app. split.
      + eapply Forall_impl; [exact Hnot|]. simpl. tauto.
      + apply Forall_singleton. simpl. tauto. }
  assert (∀ C limit page, A = C ∨ B = C →
            (get_messages db' C fresh limit page).2
            = mkResponse 200 true None
                (Some (mkMessagesData []
                         (mkMatchInfo fresh (name (if decide (A = C) then tu else au))
                            (avatar (if decide (A = C) then tu else au))))))
    as Hopen.
  { intros C limit page HC. unfold get_messages. rewrite Hfm, decide_True by done.
    assert (filter (λ msg, Message.match_ msg = fresh) (messages db') = []) as ->.
    { rewrite Hmsg. apply filter_none, Forall_forall. intros msg Hin E.
      apply Hfreshmsg, list_elem_of_fmap. by exists msg. }
    assert (Discover.limited (limit * page) (merge_sort older []) = []) as ->.
    { unfold Discover.limited. case_decide; [done|]. apply take_nil. }
    simpl. unfold matchInfo. rewrite Hus. simpl. rewrite Hau. simpl.
    rewrite HidA. repeat case_decide; try done; by rewrite Htu. }
  split_and!.
  - rewrite Hget, decide_False, decide_True by tauto. done.
  - rewrite Hget, decide_False, decide_False by tauto. done.
  - intros C HA HC. rewrite Hget, decide_True; [done|]. split; congruence.
  - intros limit page. split_and!.
    + rewrite Hopen by by left. by rewrite decide_True.
    + rewrite Hopen by by right. by rewrite decide_False.
    + intros C HA HC. unfold get_messages. rewrite Hfm, decide_False; [done|].
      intros [?|?]; congruence.
Qed.

Lemma new_match_opens_for_both_witness :
  get_match matched_db "a" "m2"
  = mkResponse 200 true None
      (Some (formattedMatch
               (Match.mk "m2" "a" "b" active 2 2 (Match.mkLast None None 2))
               (mkUser "b" "Bela" "bela@abc.edu" "h" "ABC" true None None None None []))).
Proof.
  refine (proj1 (new_match_opens_for_both liked_db "a" "b" like 2 "m2"
                   (mkUser "a" "Asha" "asha@abc.edu" "h" "ABC" true None None None None [])
                   (mkUser "b" "Bela" "bela@abc.edu" "h" "ABC" true None None None None [])
                   _ _ _ _ _ _ _ _ _)).
  - by left.
  - done.
  - done.
  - reflexivity.
  - reflexivity.
  - by eexists.
  - reflexivity.
  - apply not_elem_of_nil.
  - apply not_elem_of_nil.
Defined.

End MatchesMoreFacts.

(** ** Chat: read marks and unread counters *)
Module InboxFacts.
Import Chat Inbox ListFacts StoreFacts MoreListFacts Samples MoreSamples.
Local Open Scope list_scope.

Lemma length_filter_fmap_split {A} (P R Q : A → Prop) {HP : ∀ x, Decision (P x)}
    {HR : ∀ x, Decision (R x)} {HQ : ∀ x, Decision (Q x)} (f : A → A) (l : list A) :
  (∀ x, x ∈ l → (P (f x) ∧ ¬ R x ∧ Q x) ∨ (¬ P (f x) ∧ R x ∧ Q x) ∨
                 (¬ P (f x) ∧ ¬ R x ∧ ¬ Q x)) →
  (length (filter P (f <$> l)) + length (filter R l) = length (filter Q l))%nat.
Proof.
  induction l as [|x l IH]; intros H; [done|].
  rewrite fmap_cons.
  pose proof (IH (λ y Hy, H y (list_elem_of_further _ _ _ Hy))) as IH'.
  destruct (H x (list_elem_of_here _ _)) as [(Hp & Hr & Hq)|[(Hp & Hr & Hq)|(Hp & Hr & Hq)]].
  - rewrite (filter_cons_True P), (filter_cons_False R), (filter_cons_True Q) by done.
    simpl. lia.
  - rewrite (filter_cons_False P), (filter_cons_True R), (filter_cons_True Q) by done.
    simpl. lia.
  - rewrite (filter_cons_False P), (filter_cons_False R), (filter_cons_False Q) by done.
    done.
Qed.

Lemma length_filter_fmap_iff {A} (P Q : A → Prop) {HP : ∀ x, Decision (P x)}
    {HQ : ∀ x, Decision (Q x)} (f : A → A) (l : list A) :
  (∀ x, x ∈ l → P (f x) ↔ Q x) →
  length (filter P (f <$> l)) = length (filter Q l).
Proof.
  intros H.
  pose proof (length_filter_fmap_split P (λ _, False) Q f l) as Hs.
  rewrite (filter_none (λ _ : A, False)) in Hs by (apply Forall_forall; tauto).
  simpl in Hs. rewrite <- Hs; [lia|].
  intros x Hx. destruct (decide (Q x)) as [Hq|Hq].
  - left. split_and!; [by apply H|tauto|done].
  - right. right. split_and!; [by rewrite H|tauto|done].
Qed.

Lemma elem_of_addToSet x y l : x ∈ addToSet y l ↔ x = y ∨ x ∈ l.
Proof.
  unfold addToSet. case_decide.
  - split; [by right|]. by intros [->|?].
  - rewrite elem_of_app, list_elem_of_singleton. tauto.
Qed.

Lemma addToSet_idemp x l : addToSet x (addToSet x l) = addToSet x l.
Proof.
  unfold addToSet at 1. rewrite decide_True; [done|].
  apply elem_of_addToSet. by left.
Qed.

Lemma findMatch_Some ms matchId userId m :
  findMatch ms matchId userId = Some m →
  m ∈ ms ∧ Match._id m = matchId ∧ (Match.user1 m = userId ∨ Match.user2 m = userId).
Proof.
  unfold findMatch. intros H.
  by apply (find_snd_Some
              (λ m, Match._id m = matchId ∧
                    (Match.user1 m = userId ∨ Match.user2 m = userId))) in H.
Qed.

Lemma findMatch_matchIds ms matchId userId m v :
  findMatch ms matchId userId = Some m →
  Match.user1 m = v ∨ Match.user2 m = v → matchId ∈ matchIds ms v.
Proof.
  intros (Hin & <- & _)%findMatch_Some Hv. unfold matchIds.
  apply list_elem_of_fmap_2. by apply list_elem_of_filter.
Qed.

Lemma marked_fields matchId userId msg :
  Message._id (marked matchId userId msg) = Message._id msg ∧
  Message.match_ (marked matchId userId msg) = Message.match_ msg ∧
  Message.sender (marked matchId userId msg) = Message.sender msg ∧
  Message.content (marked matchId userId msg) = Message.content msg ∧
  (∀ v, v ∈ Message.readBy (marked matchId userId msg)
        ↔ v ∈ Message.readBy msg ∨ (v = userId ∧ unread_in matchId userId msg)).
Proof.
  unfold marked. case_decide as Hu; simpl; split_and!; try done.
  - intros v. rewrite elem_of_addToSet. tauto.
  - intros v. tauto.
Qed.

(** X15: opening a conversation marks it read. A caller who is not in the
    match gets 404 and nothing changes. After a 200 answer no message of
    the match is unread for the caller, the caller's unread counter has
    gone down by exactly the number of messages that were unread in this
    match, every other user's counter is what it was, and the messages
    differ from the stored ones in their read marks only. *)
Theorem reading_marks_read db userId matchId limit page :
  (findMatch (matches db) matchId userId = None →
   get_messages db userId matchId limit page = (db, fail 404 "Match not found")) ∧
  (status (get_messages db userId matchId limit page).2 = 200 →
   filter (unread_in matchId userId)
     (messages (get_messages db userId matchId limit page).1) = [] ∧
   (unreadCount (get_messages db userId matchId limit page).1 userId
      + length (filter (unread_in matchId userId) (messages db))
    = unreadCount db userId)%nat ∧
   (∀ v, v ≠ userId →
      unreadCount (get_messages db userId matchId limit page).1 v = unreadCount db v) ∧
   Forall2 (λ old new, set_readBy new (Message.readBy old) = old ∧
                       Message.readBy old ⊆ Message.readBy new)
     (messages db) (messages (get_messages db userId matchId limit page).1)).
Proof.
  unfold get_messages. split; [by intros ->|].
  destruct (findMatch (matches db) matchId userId) as [m|] eqn:Hm; [|done].
  destruct (mapM _ _) as [formatted|]; [|done].
  assert (messages (set_messages db (markRead (messages db) matchId userId))
          = marked matchId userId <$> messages db) as Hmsgs by done.
  assert (∀ v, unreadCount (set_messages db (markRead (messages db) matchId userId)) v
               = length (filter (unread (matchIds (matches db) v) v)
                           (marked matchId userId <$> messages db))) as Hcount by done.
  destruct (matchInfo (users db) userId m) as [info|]; [|done].
  intros _. cbn [fst]. rewrite Hmsgs. split_and!.
  - apply filter_none, Forall_forall. intros msg' (msg & -> & _)%list_elem_of_fmap.
    destruct (marked_fields matchId userId msg) as (_ & Hma & Hse & _ & Hrb).
    intros (Hm1 & Hm2 & Hm3). apply Hm3, Hrb. rewrite Hma, Hse in *.
    destruct (decide (userId ∈ Message.readBy msg)); [by left|]. right. by repeat split.
  - rewrite Hcount. unfold unreadCount. apply length_filter_fmap_split.
    intros msg _.
    destruct (marked_fields matchId userId msg) as (_ & Hma & Hse & _ & Hrb).
    pose proof (findMatch_matchIds _ _ _ _ userId Hm
                  (proj2 (proj2 (findMatch_Some _ _ _ _ Hm)))) as Hid.
    unfold unread. rewrite Hma, Hse, Hrb.
    destruct (decide (unread_in matchId userId msg)) as [Hu|Hu].
    + right. left. split; [tauto|]. split; [done|].
      destruct Hu as (<- & ? & ?). done.
    + destruct (decide (Message.match_ msg ∈ matchIds (matches db) userId ∧
                        Message.sender msg ≠ userId ∧ userId ∉ Message.readBy msg))
        as [Hq|Hq].
      * left. split; [tauto|]. by split.
      * right. right. split; [tauto|]. by split.
  - intros v Hv. rewrite Hcount. unfold unreadCount. apply length_filter_fmap_iff.
    intros msg _.
    destruct (marked_fields matchId userId msg) as (_ & Hma & Hse & _ & Hrb).
    unfold unread. rewrite Hma, Hse, Hrb. intuition congruence.
  - apply Forall2_fmap_r, Forall_Forall2_diag, Forall_forall. intros msg _.
    fold (marked matchId userId msg).
    destruct (marked_fields matchId userId msg) as (_ & _ & _ & _ & Hrb).
    split.
    + unfold marked. case_decide; by destruct msg.
    + intros v Hv. apply Hrb. by left.
Qed.

Lemma reading_marks_read_witness :
  filter (unread_in "m1" "b") (messages (get_messages talk_db "b" "m1" 50 1).1) = [].
Proof.
  refine (proj1 (proj2 (reading_marks_read talk_db "b" "m1" 50 1) _)).
  reflexivity.
Defined.

Lemma updateMatch_matchIds ms id lm act v :
  matchIds (updateMatch ms id lm act) v = matchIds ms v.
Proof.
  unfold updateMatch. destruct (list_find _ ms) as [[i m]|] eqn:E; [|done].
  apply list_find_split in E as (l1 & l2 & -> & _ & _ & _ & ->).
  unfold matchIds. rewrite !filter_app, !filter_cons. simpl.
  case_decide; [|done]. by rewrite !fmap_app, !fmap_cons.
Qed.

(** X16: a message sent into a match is unread for the other participant:
    a successful send raises the unread counter of the other participant by
    exactly one and leaves the sender's own counter as it is. *)
Theorem send_raises_unread db A B matchId m content type replyTo now fresh :
  findMatch (matches db) matchId A = Some m →
  Match.user1 m = B ∨ Match.user2 m = B → A ≠ B →
  status (send_message db A matchId content type replyTo now fresh).2 = 200 →
  unreadCount (send_message db A matchId content type replyTo now fresh).1 B
    = S (unreadCount db B) ∧
  unreadCount (send_message db A matchId content type replyTo now fresh).1 A
    = unreadCount db A.
Proof.
  intros Hm HB Hne. unfold send_message.
  destruct content as [|text|[|]]; try done.
  destruct (blank (Some text)); [done|]. rewrite Hm.
  destruct (parse_type _) as [ty|]; [|done].
  case_decide; [done|]. intros _.
  set (msg := Message.mk fresh matchId A (trim text) ty replyTo [A] now).
  assert (∀ v, unreadCount
                 (set_matches (set_messages db (messages db ++ [msg]))
                    (updateMatch (matches (set_messages db (messages db ++ [msg])))
                       matchId
                       (Match.mkLast (Some (trim text)) (Some A) now)
                       now)) v
               = (unreadCount db v
                  + length (filter (unread (matchIds (matches db) v) v) [msg]))%nat)
    as Hcount.
  { intros v. unfold unreadCount. simpl.
    by rewrite updateMatch_matchIds, filter_app, length_app. }
  cbn [fst]. rewrite !Hcount. split.
  - rewrite filter_cons_True; [simpl; lia|]. unfold unread. simpl. split_and!.
    + by eapply findMatch_matchIds.
    + done.
    + by intros ?%list_elem_of_singleton.
  - rewrite filter_cons_False; [simpl; lia|]. unfold unread. simpl. tauto.
Qed.

Lemma send_raises_unread_witness :
  unreadCount talk_db "b" = S (unreadCount chat_db "b") ∧
  unreadCount talk_db "a" = unreadCount chat_db "a".
Proof.
  refine (send_raises_unread chat_db "a" "b" "m1"
            (Match.mk "m1" "a" "b" active 1 1 (Match.mkLast None None 1))
            (Text "hi") None None 5 "g1" _ _ _ _).
  - reflexivity.
  - by right.
  - done.
  - reflexivity.
Defined.

(** X17: marking a message read asks for no part in the conversation and
    is idempotent: the call answers 200 exactly when a message has the id,
    whoever the caller is; the caller then is among the readers of that
    message; nothing but read marks changes; and a second call changes
    nothing more. *)
Theorem mark_read_idempotent db userId messageId :
  mark_read (mark_read db userId messageId).1 userId messageId
    = mark_read db userId messageId ∧
  (status (mark_read db userId messageId).2 = 200
     ↔ messageId ∈ Message._id <$> messages db) ∧
  (status (mark_read db userId messageId).2 = 200 →
   ∃ i msg, list_find (λ msg, Message._id msg = messageId)
              (messages (mark_read db userId messageId).1) = Some (i, msg) ∧
            userId ∈ Message.readBy msg) ∧
  Forall2 (λ old new, set_readBy new (Message.readBy old) = old ∧
                      Message.readBy old ⊆ Message.readBy new)
    (messages db) (messages (mark_read db userId messageId).1).
Proof.
  destruct (mark_read db userId messageId) as [db1 r] eqn:Hmr. cbn [fst snd].
  unfold mark_read in Hmr.
  destruct (list_find _ (messages db)) as [[i msg]|] eqn:E; injection Hmr as <- <-.
  - set (msg' := set_readBy msg (addToSet userId (Message.readBy msg))).
    assert (list_find (λ msg, Message._id msg = messageId) (<[i:=msg']> (messages db))
            = Some (i, msg')) as E'.
    { apply (list_find_insert_same (λ msg, Message._id msg = messageId) _ _ msg);
        [done|]. simpl. by apply list_find_Some in E as (_ & ? & _). }
    pose proof E as (Hi & Hid & _)%list_find_Some.
    split_and!.
    + unfold mark_read. simpl. rewrite E'. simpl.
      rewrite list_insert_insert_eq. unfold msg' at 1. simpl.
      by rewrite addToSet_idemp.
    + simpl. split; [intros _|done].
      apply list_elem_of_fmap. exists msg. split; [done|].
      by eapply list_elem_of_lookup_2.
    + intros _. exists i, msg'. split; [done|]. simpl.
      apply elem_of_addToSet. by left.
    + simpl. rewrite <- (list_insert_id (messages db) i msg Hi) at 1.
      apply Forall2_insert.
      * apply Forall_Forall2_diag, Forall_forall. intros x _. split; [by destruct x|done].
      * split; [by destruct msg|]. simpl. intros v Hv. apply elem_of_addToSet. by right.
  - split_and!.
    + unfold mark_read. by rewrite E.
    + simpl. split; [done|]. intros (msg & Hid & Hin)%list_elem_of_fmap.
      apply list_find_None in E.
      by destruct (proj1 (Forall_forall _ _) E msg Hin).
    + done.
    + apply Forall_Forall2_diag, Forall_forall. intros x _. split; [by destruct x|done].
Qed.

Lemma mark_read_idempotent_witness :
  ∃ i msg, list_find (λ msg, Message._id msg = "g1")
             (messages (mark_read talk_db "c" "g1").1) = Some (i, msg) ∧
           "c" ∈ Message.readBy msg.
Proof.
  refine (proj1 (proj2 (proj2 (mark_read_idempotent talk_db "c" "g1"))) _).
  reflexivity.
Defined.

(** X18: only the sender deletes a message. With distinct message ids, a
    call of a user never removes a message that another user has sent; a
    200 answer means that the message with this id, sent by the caller, is
    gone and all others are kept; any other answer leaves the store as it
    is. *)
Theorem delete_needs_sender db userId messageId :
  NoDup (Message._id <$> messages db) →
  (∀ msg, msg ∈ messages db → Message.sender msg ≠ userId →
          msg ∈ messages (delete_message db userId messageId).1) ∧
  (status (delete_message db userId messageId).2 = 200 →
   (messageId ∉ Message._id <$> messages (delete_message db userId messageId).1) ∧
   S (length (messages (delete_message db userId messageId).1))
     = length (messages db) ∧
   ∀ msg, msg ∈ messages db → Message._id msg ≠ messageId →
          msg ∈ messages (delete_message db userId messageId).1) ∧
  (status (delete_message db userId messageId).2 ≠ 200 →
   (delete_message db userId messageId).1 = db).
Proof.
  intros Hnd. unfold delete_message.
  destruct (list_find (λ msg, Message._id msg = messageId ∧ Message.sender msg = userId)
              (messages db)) as [[j own]|] eqn:Eown.
  2:{ cbn [fst snd]. split_and!; [done|done|done]. }
  apply list_find_Some in Eown as (Hj & [Hid Hsender] & _).
  destruct (list_find (λ msg, Message._id msg = messageId) (messages db))
    as [[i msg0]|] eqn:E.
  2:{ apply list_find_None in E.
      destruct (proj1 (Forall_forall _ _) E own (list_elem_of_lookup_2 _ _ _ Hj) Hid). }
  pose proof E as (Hi & Hid0 & _)%list_find_Some.
  assert (i = j) as ->.
  { apply (NoDup_lookup (Message._id <$> messages db) i j messageId Hnd);
      rewrite list_lookup_fmap; [by rewrite Hi; simpl; f_equal|by rewrite Hj; simpl; f_equal]. }
  assert (msg0 = own) as -> by congruence.
  apply list_find_split in E as (l1 & l2 & Hl & Hlen & _ & _ & _).
  cbn [fst snd messages set_messages]. simpl. rewrite Hl in Hnd |- *.
  assert (delete j (l1 ++ own :: l2) = l1 ++ l2) as ->.
  { subst j. by rewrite delete_middle. }
  rewrite fmap_app, fmap_cons in Hnd.
  apply NoDup_app in Hnd as (_ & Hl1 & [Hl2 _]%NoDup_cons).
  split_and!.
  - intros msg Hin Hs. rewrite !elem_of_app, elem_of_cons in *.
    destruct Hin as [?|[->|?]]; [by left|done|by right].
  - intros _. split_and!.
    + rewrite fmap_app, elem_of_app. rewrite <- Hid.
      intros [H1|H2]; [|done]. apply (Hl1 _ H1). left.
    + rewrite !length_app. simpl. lia.
    + intros msg Hin Hm. rewrite !elem_of_app, elem_of_cons in *.
      destruct Hin as [?|[->|?]]; [by left|done|by right].
  - done.
Qed.

Lemma delete_needs_sender_witness :
  (delete_message talk_db "b" "g1").1 = talk_db.
Proof.
  refine (proj2 (proj2 (delete_needs_sender talk_db "b" "g1" _)) _).
  - apply NoDup_singleton.
  - simpl. lia.
Defined.

End InboxFacts.

(** ** Notifications: the unread counter *)
Module NotificationsFacts.
Import Matches Notifications ListFacts StoreFacts MatchesFacts MatchesMoreFacts.
Import InboxFacts Samples.
Local Open Scope list_scope.

Lemma unreadCount_app db ns v :
  unreadCount (set_notifications db (notifications db ++ ns)) v
  = (unreadCount db v + length (filter (unread_of v) ns))%nat.
Proof. unfold unreadCount. simpl. by rewrite filter_app, length_app. Qed.

(** X20: marking all read empties the caller's unread counter and nobody
    else's: afterwards the caller's counter is 0, every other user's
    counter is what it was, the answer reports the number of notifications
    that were unread, only read flags have changed, and a second call
    reports 0 and changes nothing. *)
Theorem mark_all_read_clears db userId :
  unreadCount (mark_all_read db userId).1 userId = 0%nat ∧
  (∀ v, v ≠ userId → unreadCount (mark_all_read db userId).1 v = unreadCount db v) ∧
  (mark_all_read db userId).2
    = mkResponse 200 true
        (Some (pretty (unreadCount db userId) ++ " notifications marked as read")%string)
        None ∧
  Forall2 (λ old new, set_isRead new (Notification.isRead old) = old)
    (notifications db) (notifications (mark_all_read db userId).1) ∧
  mark_all_read (mark_all_read db userId).1 userId
    = ((mark_all_read db userId).1,
       mkResponse 200 true (Some "0 notifications marked as read"%string) None).
Proof.
  set (f := λ n, if decide (unread_of userId n) then set_isRead n true else n).
  assert (notifications (mark_all_read db userId).1 = f <$> notifications db) as Hns
    by done.
  assert (filter (unread_of userId) (f <$> notifications db) = []) as Hnone.
  { apply filter_none, Forall_forall. intros n' (n & -> & _)%list_elem_of_fmap.
    unfold f; cbv beta. case_decide as Hn; unfold unread_of in *; simpl; [|done].
    by intros [_ ?]. }
  split_and!.
  - unfold unreadCount. by rewrite Hns, Hnone.
  - intros v Hv. unfold unreadCount. rewrite Hns.
    apply length_filter_fmap_iff. intros n _. unfold f; cbv beta.
    case_decide as Hn; [|done]. unfold unread_of in *. simpl.
    destruct Hn as [-> _]. split; intros [? _]; congruence.
  - done.
  - rewrite Hns. apply Forall2_fmap_r, Forall_Forall2_diag, Forall_forall.
    intros n _. unfold f, compose; cbv beta. case_decide as Hn; [|by destruct n].
    destruct Hn as [_ Hn]. destruct n; simpl in *. by rewrite Hn.
  - unfold mark_all_read at 1. rewrite Hns, Hnone. simpl. f_equal.
    unfold mark_all_read. simpl. fold f. f_equal.
    rewrite <- list_fmap_compose. apply list_fmap_ext. intros i n _. simpl.
    unfold f; cbv beta.
    destruct (decide (unread_of userId n)) as [Hn|Hn]; [|by rewrite decide_False].
    rewrite decide_False; [done|]. unfold unread_of. simpl. by intros [_ ?].
Qed.

Lemma mark_all_read_clears_witness :
  unreadCount (mark_all_read matched_db "a").1 "b" = unreadCount matched_db "b".
Proof.
  refine (proj1 (proj2 (mark_all_read_clears matched_db "a")) "b" _).
  done.
Defined.

(** X21: what a swipe does to the unread counters of the notifications. A
    pass raises the counter of the target by one; a mutual like that
    creates the match raises the counters of both users by one; a like
    that is not returned, or that finds the match in place, raises
    nobody's counter. *)
Theorem swipe_raises_unread_counter db A B a now fresh :
  A ≠ B → B ≠ "" →
  is_Some (findById (users db) A) → is_Some (findById (users db) B) →
  (a = pass →
   unreadCount (swipe db A (Some B) (Some (action_string a)) now fresh).1 B
     = S (unreadCount db B) ∧
   ∀ v, v ≠ B →
     unreadCount (swipe db A (Some B) (Some (action_string a)) now fresh).1 v
       = unreadCount db v) ∧
  (is_like a → is_Some (reciprocalSwipe (swipes db) A B) →
   active_matches (matches db) A B = [] →
   unreadCount (swipe db A (Some B) (Some (action_string a)) now fresh).1 A
     = S (unreadCount db A) ∧
   unreadCount (swipe db A (Some B) (Some (action_string a)) now fresh).1 B
     = S (unreadCount db B) ∧
   ∀ v, v ≠ A → v ≠ B →
     unreadCount (swipe db A (Some B) (Some (action_string a)) now fresh).1 v
       = unreadCount db v) ∧
  (is_like a →
   reciprocalSwipe (swipes db) A B = None ∨ active_matches (matches db) A B ≠ [] →
   ∀ v, unreadCount (swipe db A (Some B) (Some (action_string a)) now fresh).1 v
          = unreadCount db v).
Proof.
  intros Hne HB [au Hau] [tu Htu].
  assert (∀ db0 r v, unreadCount (set_notifications (set_swipes db0 r) (notifications db0)) v
                     = unreadCount db0 v) as Hsame by done.
  split_and!.
  - intros ->. change (action_string pass) with "pass".
    rewrite swipe_pass by done. cbn [fst].
    split; [|intros v Hv]; unfold unreadCount; simpl;
      rewrite filter_app, length_app.
    + rewrite filter_cons_True by done. simpl. lia.
    + rewrite filter_cons_False by (intros [? _]; done). simpl. lia.
  - intros Hlike Hrec Hnone.
    rewrite (swipe_mutual db A B a now fresh tu au) by done. cbn zeta.
    rewrite (proj2 (existingMatch_None _ _ _) Hnone). cbn [fst].
    split_and!; [| |intros v HvA HvB]; unfold unreadCount; simpl;
      rewrite filter_app, length_app.
    + rewrite filter_cons_True by done.
      rewrite filter_cons_False by (intros [? _]; done). simpl. lia.
    + rewrite filter_cons_False by (intros [? _]; done).
      rewrite filter_cons_True by done. simpl. lia.
    + rewrite !filter_cons_False by (intros [? _]; done). simpl. lia.
  - intros Hlike [Hnone|Hsome] v.
    + by rewrite swipe_unrequited.
    + destruct (reciprocalSwipe (swipes db) A B) as [r|] eqn:Hr.
      * rewrite (swipe_mutual db A B a now fresh tu au) by (done || by rewrite Hr).
        cbn zeta. destruct (existingMatch (matches db) A B) eqn:Hex; [done|].
        by apply existingMatch_None in Hex.
      * by rewrite swipe_unrequited.
Qed.

Lemma swipe_raises_unread_counter_witness :
  unreadCount (swipe fresh_db "a" (Some "b") (Some (action_string pass)) 1 "m1").1 "b"
  = S (unreadCount fresh_db "b").
Proof.
  refine (proj1 (proj1 (swipe_raises_unread_counter fresh_db "a" "b" pass 1 "m1"
                          _ _ _ _) eq_refl)).
  - done.
  - done.
  - by eexists.
  - by eexists.
Defined.

End NotificationsFacts.

(** ** The duplicate clean-up at start-up *)
Module ServerFacts.
Import Matches Server ListFacts MatchesFacts Samples.
Local Open Scope list_scope.

Lemma ltb_total x y : x ≠ y → String.ltb x y = negb (String.ltb y x).
Proof.
  intros Hne. unfold String.ltb. rewrite (String.compare_antisym y x).
  destruct (String.compare x y) eqn:E; try done.
  by apply String.compare_eq_iff in E.
Qed.

(** The key of the unordered pair. *)
Lemma pair_key_between x y m :
  between x y m → pair_key m = if String.ltb x y then (x, y) else (y, x).
Proof.
  unfold pair_key. intros [[-> ->]|[-> ->]]; [done|].
  destruct (decide (y = x)) as [->|Hne]; [by case_match|].
  rewrite (ltb_total _ _ Hne). by destruct (String.ltb _ _).
Qed.

Lemma pair_key_eq m m' :
  pair_key m = pair_key m' → between (Match.user1 m) (Match.user2 m) m'.
Proof.
  unfold pair_key, between. repeat case_match; intros [= -> ->]; tauto.
Qed.

Lemma matchesToDelete_ids seen ms id :
  id ∈ matchesToDelete seen ms → id ∈ Match._id <$> ms.
Proof.
  revert seen. induction ms as [|m rest IH]; intros seen; simpl.
  - by intros ?%not_elem_of_nil.
  - case_decide.
    + intros [->|?]%elem_of_cons; [left|right; by eapply IH].
    + intros ?. right. by eapply IH.
Qed.

Lemma filter_firsts seen ms :
  NoDup (Match._id <$> ms) →
  filter (λ m, Match._id m ∉ matchesToDelete seen ms) ms = firsts seen ms.
Proof.
  revert seen. induction ms as [|m rest IH]; intros seen Hnd; [done|].
  rewrite fmap_cons in Hnd. apply NoDup_cons in Hnd as [Hm Hnd]. simpl.
  case_decide as Hseen.
  - rewrite filter_cons_False by (intros Hn; apply Hn; left).
    rewrite <- (IH seen Hnd). apply MoreListFacts.filter_ext_elem. intros x Hx.
    rewrite not_elem_of_cons. split; [by intros [_ ?]|]. intros Hd. split; [|done].
    intros E. apply Hm. rewrite <- E. by apply list_elem_of_fmap_2.
  - rewrite filter_cons_True by (intros ?%matchesToDelete_ids; done).
    by rewrite (IH _ Hnd).
Qed.

Lemma firsts_keys seen ms :
  NoDup (pair_key <$> firsts seen ms) ∧
  (∀ k, k ∈ pair_key <$> firsts seen ms → k ∉ seen) ∧
  (∀ m, m ∈ ms → pair_key m ∈ seen ∨ pair_key m ∈ pair_key <$> firsts seen ms) ∧
  (∀ m, m ∈ firsts seen ms → m ∈ ms).
Proof.
  revert seen. induction ms as [|m rest IH]; intros seen; simpl.
  - split_and!; [apply NoDup_nil_2|by intros ? ?%not_elem_of_nil
                |by intros ? ?%not_elem_of_nil|done].
  - case_decide as Hseen.
    + destruct (IH seen) as (H1 & H2 & H3 & H4). split_and!; [done|done| |].
      * intros x [->|Hx]%elem_of_cons; [by left|by apply H3].
      * intros x Hx. right. by apply H4.
    + destruct (IH (pair_key m :: seen)) as (H1 & H2 & H3 & H4).
      rewrite fmap_cons. split_and!.
      * apply NoDup_cons. split; [|done]. intros Hin. apply (H2 _ Hin). left.
      * intros k [->|Hk]%elem_of_cons; [done|].
        intros Hin. apply (H2 _ Hk). by right.
      * intros x [->|Hx]%elem_of_cons; [right; left|].
        destruct (H3 x Hx) as [[->|?]%elem_of_cons|?];
          [right; left|by left|right; by right].
      * intros x [->|Hx]%elem_of_cons; [left|right; by apply H4].
Qed.

Lemma firsts_fixed seen ms :
  NoDup (pair_key <$> ms) → (∀ k, k ∈ pair_key <$> ms → k ∉ seen) →
  firsts seen ms = ms.
Proof.
  revert seen. induction ms as [|m rest IH]; intros seen Hnd Hseen; [done|].
  rewrite fmap_cons in Hnd, Hseen. apply NoDup_cons in Hnd as [Hm Hnd]. simpl.
  rewrite decide_False by (apply Hseen; left). f_equal. apply IH; [done|].
  intros k Hk [->|?]%elem_of_cons; [done|]. by apply (Hseen k); [right|].
Qed.

Lemma at_most_one_by_key {A K} (f : A → K) (P : A → Prop) `{!∀ a, Decision (P a)}
    (k : K) (l : list A) :
  NoDup (f <$> l) → (∀ a, P a → f a = k) → (length (filter P l) ≤ 1)%nat.
Proof.
  intros Hnd HP. induction l as [|a l IH]; [simpl; lia|].
  rewrite fmap_cons in Hnd. apply NoDup_cons in Hnd as [Ha Hnd].
  rewrite filter_cons. case_decide as Hp; [|by apply IH].
  rewrite (filter_none P l); [simpl; lia|].
  apply Forall_forall. intros b Hb Hpb. apply Ha.
  rewrite (HP a Hp), <- (HP b Hpb). by apply list_elem_of_fmap_2.
Qed.

(** X22: the duplicate clean-up at start-up leaves at most one match per
    pair of users. For a collection with distinct ids the matches it keeps
    are matches of the collection in their order; of every unordered pair
    of users at most one match is left (so at most one active one, which
    is what the swipe handler relies on), every pair that had a match
    still has one, and running the clean-up again removes nothing. *)
Theorem cleanup_leaves_one_per_pair ms :
  NoDup (Match._id <$> ms) →
  removeDuplicateMatches ms `sublist_of` ms ∧
  (∀ x y, (length (filter (between x y) (removeDuplicateMatches ms)) ≤ 1)%nat) ∧
  (∀ x y, (length (active_matches (removeDuplicateMatches ms) x y) ≤ 1)%nat) ∧
  (∀ x y, Exists (between x y) ms → Exists (between x y) (removeDuplicateMatches ms)) ∧
  removeDuplicateMatches (removeDuplicateMatches ms) = removeDuplicateMatches ms.
Proof.
  intros Hnd.
  assert (removeDuplicateMatches ms `sublist_of` ms) as Hsub by apply sublist_filter.
  assert (removeDuplicateMatches ms = firsts [] ms) as Hf by by apply filter_firsts.
  destruct (firsts_keys [] ms) as (Hkeys & Hseen & Hall & Hin).
  rewrite <- Hf in Hkeys, Hseen, Hall, Hin.
  split_and!.
  - done.
  - intros x y.
    apply (at_most_one_by_key pair_key _ (if String.ltb x y then (x, y) else (y, x)));
      [done|]. apply pair_key_between.
  - intros x y. unfold active_matches.
    apply (at_most_one_by_key pair_key _ (if String.ltb x y then (x, y) else (y, x)));
      [done|]. intros m [Hm _]. by apply pair_key_between.
  - intros x y (m & Hm & Hxy)%Exists_exists.
    destruct (Hall m Hm) as [?%not_elem_of_nil|(m' & Hk & Hm')%list_elem_of_fmap]; [done|].
    apply Exists_exists. exists m'. split; [done|].
    apply pair_key_eq in Hk. unfold between in *.
    destruct Hxy as [[<- <-]|[<- <-]]; tauto.
  - unfold removeDuplicateMatches at 1. rewrite filter_firsts.
    + apply firsts_fixed; [done|]. by intros k _ ?%not_elem_of_nil.
    + eapply sublist_NoDup; [exact Hnd|]. by apply fmap_sublist.
Qed.

Lemma cleanup_leaves_one_per_pair_witness :
  (length (active_matches (removeDuplicateMatches (matches duplicated_db)) "a" "b")
   ≤ 1)%nat.
Proof.
  refine (proj1 (proj2 (proj2 (cleanup_leaves_one_per_pair (matches duplicated_db) _)))
            "a" "b").
  apply NoDup_cons. split; [|apply NoDup_singleton].
  by intros ?%list_elem_of_singleton.
Defined.

End ServerFacts.

(** ** Confessions: writing, commenting, the model's reaction methods *)
Module BoardFacts.
Import Confessions Board ListFacts StoreFacts ConfessionsFacts Samples MoreSamples.
Local Open Scope list_scope.

Lemma length_rev_app s1 s2 :
  String.length (String.rev_app s1 s2) = (String.length s1 + String.length s2)%nat.
Proof.
  revert s2. induction s1 as [|a s1 IH]; intros s2; simpl; [done|].
  rewrite IH. simpl. lia.
Qed.

Lemma length_rev s : String.length (String.rev s) = String.length s.
Proof. unfold String.rev. rewrite length_rev_app. simpl. lia. Qed.

Lemma length_trimStart s : (String.length (trimStart s) ≤ String.length s)%nat.
Proof.
  induction s as [|a s IH]; simpl; [done|]. destruct (white_space a); simpl; lia.
Qed.

Lemma length_trim s : (String.length (trim s) ≤ String.length s)%nat.
Proof.
  unfold trim. rewrite length_rev.
  etrans; [apply length_trimStart|]. rewrite length_rev. apply length_trimStart.
Qed.

Lemma parse_category_string c : parse_category (category_string c) = Some c.
Proof. by destruct c. Qed.



(** X24: what POST /:id/comments stores. Any answer other than 201 leaves
    the store as it is. A 201 answer means that the content was a string,
    that the caller belongs to the college of the confession with this id
    (in lower case, as the store has it) and that exactly one comment was
    appended to it: the comment is the caller's, its content is the text as
    [content.trim()] gives it, between 1 and 500 code units long; the
    answer reports the new number of comments, every listing of the
    confession shows one comment more, and its reactions are as before. *)
Theorem comment_is_appended db userId confessionId content now fresh :
  (status (add_comment db userId confessionId content now fresh).2 ≠ 201 →
   (add_comment db userId confessionId content now fresh).1 = db) ∧
  (status (add_comment db userId confessionId content now fresh).2 = 201 →
   ∃ text i c u c',
     content = Text text ∧
     findConfession (confessions db) (toLowerCase confessionId) = Some (i, c) ∧
     findById (users db) userId = Some u ∧
     Confession.college c = college u ∧
     (add_comment db userId confessionId content now fresh).1
       = set_confessions db (<[i := c']> (confessions db)) ∧
     c' = set_comments c
            (Confession.comments c ++ [Comment.mk fresh userId (trim text) now]) ∧
     (1 ≤ String.length (trim text) ≤ 500)%nat ∧
     (totalComments <$> data (add_comment db userId confessionId content now fresh).2)
       = Some (S (length (Confession.comments c))) ∧
     ∀ now' v,
       f_commentCount (format now' v c') = S (f_commentCount (format now' v c)) ∧
       f_reactions (format now' v c') = f_reactions (format now' v c) ∧
       f_userReactions (format now' v c') = f_userReactions (format now' v c)).
Proof.
  unfold add_comment.
  destruct (negb (is_object_id confessionId)); [by split|].
  destruct content as [|text|[|]]; [by split| |by split|by split].
  destruct (Chat.blank (Some text)) eqn:Hblank; [by split|].
  case_decide as Hlong; [by split|].
  destruct (findConfession _ _) as [[i c]|] eqn:Hc; [|by split].
  destruct (findById (users db) userId) as [u|] eqn:Hu; [|by split].
  case_decide as Hcol; [by split|].
  cbn [fst snd status data]. split; [done|]. intros _.
  eexists text, i, c, u, _. split_and!; try done.
  - unfold Chat.blank in Hblank. apply orb_false_elim in Hblank as [_ Hne].
    apply bool_decide_eq_false in Hne. simpl in Hne.
    destruct (trim text); [done|]. simpl. lia.
  - pose proof (length_trim text). lia.
  - simpl. rewrite length_app. simpl. by rewrite Nat.add_1_r.
  - intros now' v. unfold format. simpl. rewrite length_app. simpl.
    by rewrite Nat.add_1_r.
Qed.

Lemma comment_is_appended_witness :
  (add_comment hex_board "x" "64b7f0c2a1d3e4f5a6b7c8d9" (Text "hello") 20 "k1").1
    = hex_board ∧
  (totalComments <$>
     data (add_comment hex_board "a" "64B7F0C2A1D3E4F5A6B7C8D9" (Text " hello ") 20
             "k1").2) = Some 1%nat.
Proof.
  split.
  - refine (proj1 (comment_is_appended hex_board "x" "64b7f0c2a1d3e4f5a6b7c8d9"
                     (Text "hello") 20 "k1") _).
    simpl. lia.
  - destruct (proj2 (comment_is_appended hex_board "a" "64B7F0C2A1D3E4F5A6B7C8D9"
                       (Text " hello ") 20 "k1") eq_refl)
      as (text & i & c & u & c' & _ & Hc & _ & _ & _ & _ & _ & Htotal & _).
    rewrite Htotal. injection Hc as <- <-. reflexivity.
Defined.

Lemma not_of_user_filter u rs :
  of_user u rs = [] → filter (λ r, Reaction.userId r ≠ u) rs = rs.
Proof.
  intros Hnone. apply filter_all, Forall_forall. intros r Hr Hu.
  assert (r ∈ of_user u rs) as Hin by by apply list_elem_of_filter.
  rewrite Hnone in Hin. by apply not_elem_of_nil in Hin.
Qed.

(** X25: the reaction methods of the model and the route agree.
    [addReaction] leaves the user with exactly one reaction, of the given
    type, whatever the user held before, and [removeReaction] with none;
    neither touches the reactions of other users. The toggle of the route
    is [addReaction] when the user does not hold a reaction of the type,
    and [removeReaction] when that reaction is the only one the user
    holds. *)
Theorem reaction_methods_agree rs u t :
  of_user u (addReaction rs u t) = [Reaction.mk u t] ∧
  of_user u (removeReaction rs u) = [] ∧
  (∀ v, v ≠ u → of_user v (addReaction rs u t) = of_user v rs ∧
                of_user v (removeReaction rs u) = of_user v rs) ∧
  removeReaction (addReaction rs u t) u = removeReaction rs u ∧
  (Forall (λ r, ¬ (Reaction.userId r = u ∧ Reaction.type r = t)) rs →
   react_reactions rs u t = addReaction rs u t) ∧
  (of_user u rs = [Reaction.mk u t] → react_reactions rs u t = removeReaction rs u).
Proof.
  unfold addReaction, removeReaction. split_and!.
  - rewrite of_user_app, of_user_others. unfold of_user.
    by rewrite filter_cons_True.
  - apply of_user_others.
  - intros v Hv. rewrite of_user_app, of_user_other_filter by done. split; [|done].
    unfold of_user at 2. rewrite filter_cons_False by (simpl; congruence).
    by rewrite filter_nil, app_nil_r.
  - rewrite filter_app, list_filter_filter, filter_cons_False by (simpl; tauto).
    rewrite filter_nil, app_nil_r. apply list_filter_iff. tauto.
  - intros Hnone. by destruct (react_on rs u t Hnone) as [-> _].
  - intros Hheld.
    destruct (react_reactions_cases rs u t) as [[Hnone _]|(l1 & l2 & -> & Hl1 & ->)].
    + exfalso. assert (Reaction.mk u t ∈ of_user u rs) as Hin
        by (rewrite Hheld; apply list_elem_of_here).
      apply list_elem_of_filter in Hin as [_ Hin].
      by apply (proj1 (Forall_forall _ _) Hnone _ Hin).
    + rewrite of_user_app in Hheld. unfold of_user in Hheld at 2.
      rewrite filter_cons_True in Hheld by done.
      assert (of_user u l1 = [] ∧ filter (λ r, Reaction.userId r = u) l2 = [])
        as [H1 H2].
      { destruct (of_user u l1) as [|? [|]]; simplify_eq/=; done. }
      rewrite filter_app, filter_cons_False by (simpl; tauto).
      by rewrite !not_of_user_filter.
Qed.

Lemma reaction_methods_agree_witness :
  react_reactions [Reaction.mk "b" heart; Reaction.mk "a" fire] "a" fire
  = removeReaction [Reaction.mk "b" heart; Reaction.mk "a" fire] "a".
Proof.
  refine (proj2 (proj2 (proj2 (proj2 (proj2
            (reaction_methods_agree [Reaction.mk "b" heart; Reaction.mk "a" fire]
               "a" fire))))) _).
  reflexivity.
Defined.

(** X26: the two renderings of an age agree. [formatTimestamp] (matches,
    notifications) and [getTimeAgo] (confessions) show the same unit and
    the same number for every pair of instants up to the seventh day,
    after which one shows the date and the other the weeks; the number is
    the age in that unit rounded down, minutes are 1 to 59, hours 1 to 23,
    days 1 to 6, weeks at least 1, and an instant in the future reads
    "now". *)
Theorem age_renderings_agree now date :
  same_age (formatTimestamp now date) (getTimeAgo now date) ∧
  match getTimeAgo now date with
  | t_now => (now - date < 60000)%Z
  | t_minutes n => (1 ≤ n ≤ 59)%Z ∧ (60000 * n ≤ now - date < 60000 * (n + 1))%Z
  | t_hours n => (1 ≤ n ≤ 23)%Z ∧ (3600000 * n ≤ now - date < 3600000 * (n + 1))%Z
  | t_days n => (1 ≤ n ≤ 6)%Z ∧ (86400000 * n ≤ now - date < 86400000 * (n + 1))%Z
  | t_weeks n => (1 ≤ n)%Z ∧ (604800000 * n ≤ now - date < 604800000 * (n + 1))%Z
  end.
Proof.
  unfold formatTimestamp, getTimeAgo. cbv zeta.
  generalize (now - date). intros d.
  repeat case_decide; simpl; Z.to_euclidean_division_equations; lia.
Qed.

Lemma parse_category_Some s c : parse_category s = Some c → category_string c = s.
Proof.
  unfold parse_category. repeat case_decide; intros [= <-]; by subst.
Qed.

Lemma create_confession_201 db userId content category now fresh :
  status (create_confession db userId content category now fresh).2 = 201 →
  ∃ text u cat,
    content = Text text ∧
    findById (users db) userId = Some u ∧
    parse_category (default "general" category) = Some cat ∧
    (create_confession db userId content category now fresh).1
      = set_confessions db
          (confessions db ++
             [Confession.mk fresh userId (trim text) cat (college u)
                true false [] [] now]).
Proof.
  unfold create_confession.
  destruct content as [|text|[|]]; try done.
  destruct (Chat.blank (Some text)); [done|].
  case_decide; [done|]. case_decide; [done|].
  destruct (parse_category _) as [cat|]; [|done].
  destruct (findById (users db) userId) as [u|]; [|done].
  case_decide; [done|]. intros _. by exists text, u, cat.
Qed.

Local Instance newer_trans : Transitive newer.
Proof. intros a b c. unfold newer. lia. Qed.

Local Instance newer_total : Total newer.
Proof. intros a b. unfold newer. lia. Qed.

Lemma sorted_head {A} (R : relation A) (l l0 : list A) c :
  StronglySorted R l → l ≡ₚ c :: l0 → Forall (λ x, ¬ R x c) l0 →
  ∃ t, l = c :: t.
Proof.
  intros Hs Hp Hl0. destruct l as [|h t].
  { by apply Permutation_nil_cons in Hp. }
  apply StronglySorted_inv in Hs as [_ Hh].
  assert (h ∈ c :: l0) as Hin by (rewrite <- Hp; left).
  apply elem_of_cons in Hin as [->|Hin]; [by exists t|].
  assert (c ∈ h :: t) as Hc by (rewrite Hp; left).
  apply elem_of_cons in Hc as [->|Hc]; [by exists t|].
  destruct (proj1 (Forall_forall _ _) Hl0 h Hin).
  by apply (proj1 (Forall_forall _ _) Hh c).
Qed.

(** X27: a new confession heads the list of its college. When a
    confession is created at a time later than the creation of all stored
    ones, the first page of the list, asked for by any user of the
    author's college with the category 'all' or the category of the
    confession and with any limit, starts with the new confession, whose
    content is the submitted text as [content.trim()] gives it. *)
Theorem new_confession_heads_the_list db userId content category now fresh
    u v reader query limit now' :
  status (create_confession db userId content category now fresh).2 = 201 →
  Forall (λ c, (Confession.createdAt c < now)%Z) (confessions db) →
  findById (users db) userId = Some u →
  findById (users db) v = Some reader → college reader = college u →
  query = "all" ∨ query = default "general" category →
  ∃ text c rest more,
    content = Text text ∧
    data (list_confessions (create_confession db userId content category now fresh).1
            v query 1 limit now')
      = Some (mkListData (format now' v c :: rest) more) ∧
    Confession._id c = fresh ∧ Confession.userId c = userId ∧
    Confession.content c = trim text.
Proof.
  intros H201 Hold Hu Hv Hcol Hq.
  destruct (create_confession_201 _ _ _ _ _ _ H201)
    as (text & u' & cat & -> & Hu' & Hcat & ->).
  assert (u' = u) as -> by congruence.
  set (c := Confession.mk fresh userId (trim text) cat (college u)
              true false [] [] now).
  assert (filter (matches_query (college reader) query) (confessions db ++ [c])
          = filter (matches_query (college reader) query) (confessions db) ++ [c])
    as Hfilter.
  { rewrite filter_app. f_equal. rewrite filter_cons_True; [done|].
    unfold matches_query. simpl.
    split_and!; [done|done|]. destruct Hq as [->| ->]; [by left|right].
    by apply parse_category_Some. }
  set (L := filter (matches_query (college reader) query) (confessions db)) in *.
  destruct (sorted_head newer (merge_sort newer (L ++ [c])) L c) as [t Ht].
  { apply (StronglySorted_merge_sort _). }
  { rewrite merge_sort_Permutation. by rewrite Permutation_app_comm. }
  { apply Forall_forall. intros x [_ Hx]%list_elem_of_filter.
    pose proof (proj1 (Forall_forall _ _) Hold x Hx) as Hlt. simpl in Hlt.
    unfold newer. simpl. lia. }
  assert (find_page (confessions db ++ [c]) (college reader) query limit ((1 - 1) * limit)
          = Some (if decide (limit = 0) then c :: t
                  else c :: take (pred (Z.to_nat (Z.abs limit))) t)) as Hpage.
  { unfold find_page. change ((1 - 1) * limit)%Z with 0%Z.
    rewrite decide_False by lia. rewrite Hfilter, Ht. simpl.
    f_equal. case_decide; [done|].
    destruct (Z.to_nat (Z.abs limit)) as [|n] eqn:Hn; [lia|done]. }
  unfold list_confessions.
  change (users (set_confessions db (confessions db ++ [c]))) with (users db).
  change (confessions (set_confessions db (confessions db ++ [c])))
    with (confessions db ++ [c]).
  rewrite Hv, Hpage. cbn [data]. case_decide.
  - by eexists text, c, _, _.
  - by eexists text, c, _, _.
Qed.

Lemma new_confession_heads_the_list_witness :
  ∃ text c rest more,
    Text " Exams soon " = Text text ∧
    data (list_confessions
            (create_confession (board_db []) "a" (Text " Exams soon ") None 20 "c2").1
            "a" "all" 1 20 30)
      = Some (mkListData (format 30 "a" c :: rest) more) ∧
    Confession._id c = "c2" ∧ Confession.userId c = "a" ∧
    Confession.content c = trim text.
Proof.
  refine (new_confession_heads_the_list (board_db []) "a" (Text " Exams soon ") None
            20 "c2"
            (mkUser "a" "Asha" "asha@abc.edu" "h" "ABC" true None None None None [])
            "a"
            (mkUser "a" "Asha" "asha@abc.edu" "h" "ABC" true None None None None [])
            "all" 20 30 _ _ _ _ _ _).
  - reflexivity.
  - apply Forall_singleton. simpl. lia.
  - reflexivity.
  - reflexivity.
  - reflexivity.
  - by left.
Defined.

End BoardFacts.
